(** * Adaptive defense companion: a shallow embedding of its control logic

    The embedded program is [enhanced-ai-companion.py]: the pattern store
    ([PatternManager]), the trigger correlator ([TriggerAnalyzer]), the
    countermeasure lifecycle ([CountermeasureManager]) and the threat scorer
    ([ThreatScorer]).

    Conventions of the embedding.
    - Python [int] is [Z]; Python [float] (timestamps, scores, confidences)
      is the rational [Q] it denotes; infinities and NaN are outside the
      model.  The subtraction of two time stamps in
      [check_resurrection_triggers], whose result is compared with the
      time window, is rounded to the nearest double ([float_sub]); the
      other operations are taken exactly.
    - Every reading of [time.time()] is an explicit argument.  Where a
      function reads the clock more than once and the readings are used
      against each other, each reading has an argument of its own.
    - A dictionary whose iteration order reaches a result is an insertion
      ordered association list; the other dictionaries are [gmap]s.
    - Records with optional keys (the countermeasure dictionaries) are
      records of [option] fields: [None] is an absent key.  A dictionary
      handed to [add_countermeasure] is one of its own, as the engine
      builds them, not an object already in the list.
    - A [str] is a string of 8-bit characters.
    - Writing a file either goes through or raises inside the handler of
      the saving method: a flag [write_ok] says which.
    - [hashlib.md5] and the text of a float in an f-string are arguments
      of the functions that mint an identifier; so are the two regular
      expression searches and [str.lower] of [extract_events_from_log].
    - [get_high_priority_threats] walks [threat_scores], a [gmap] here:
      the items in the order of the dictionary are an argument, and the
      statements hold for every order. *)

From Stdlib Require Import ZArith QArith Qminmax Ascii String List Lia Lqa.
From Stdlib Require Import Qabs DecimalString Sorting.Sorted Permutation.
From stdpp Require Import gmap strings list fin_maps.

Close Scope Q_scope.
Open Scope string_scope.
Open Scope Z_scope.

(** ** Python's comparisons, [min] and [max] on floats *)

Definition Qltb (a b : Q) : bool := negb (Qle_bool b a).
Definition Qleb (a b : Q) : bool := Qle_bool a b.

(** [min(a, b)] answers [a] unless [b < a]; [max(a, b)] answers [a]
    unless [b > a]. *)
Definition py_min (a b : Q) : Q := if Qltb b a then b else a.
Definition py_max (a b : Q) : Q := if Qltb a b then b else a.

(** ** Subtraction of floats

    A float is read as the rational it is; the difference of two is
    the double nearest to the exact difference, a tie going to the even
    significand.  [round_half_even n d] is the integer nearest to
    [n / d]; [double_exponent n d] is the exponent of the last place of
    [n / d] in a double (52 below that of its leading bit, and -1074 at
    least); a difference beyond the largest double is outside the
    model. *)
Definition round_half_even (n d : Z) : Z :=
  let q := n / d in
  let r := n mod d in
  if 2 * r <? d then q
  else if d <? 2 * r then q + 1
  else if Z.even q then q else q + 1.

Definition double_exponent (n d : Z) : Z :=
  let e := Z.log2 n - Z.log2 d - 52 in
  let e := if (if 0 <=? e then n <? 2 ^ 52 * d * 2 ^ e
               else n * 2 ^ (- e) <? 2 ^ 52 * d)
           then e - 1 else e in
  Z.max e (-1074).

Definition round_double (x : Q) : Q :=
  let n := Z.abs (Qnum x) in
  let d := Z.pos (Qden x) in
  if n =? 0 then 0%Q
  else
    let e := double_exponent n d in
    let m := if 0 <=? e then round_half_even n (d * 2 ^ e)
             else round_half_even (n * 2 ^ (- e)) d in
    let m := Z.sgn (Qnum x) * m in
    if 0 <=? e then inject_Z (m * 2 ^ e)
    else Qmake m (Z.to_pos (2 ^ (- e))).

(** [a - b] on floats. *)
Definition float_sub (a b : Q) : Q := round_double (a - b)%Q.

(** [l[-n:]] : the last [n] elements. *)
Definition last_n {A} (n : nat) (l : list A) : list A :=
  skipn (length l - n)%nat l.

(** [sum(l)] over integers. *)
Definition sumZ (l : list Z) : Z := fold_right Z.add 0 l.

(** ** Ordered dictionaries, sorting and strings as Python has them *)

(** [d[key] += 1] on a [defaultdict(int)] or a [Counter]: a known key
    keeps its place, a new one goes last. *)
Fixpoint incr (key : string) (d : list (string * Z)) : list (string * Z) :=
  match d with
  | [] => [(key, 1)]
  | (k, v) :: d' =>
      if String.eqb k key then (k, v + 1) :: d' else (k, v) :: incr key d'
  end.

(** [d[key]] on a [defaultdict(int)] or a [Counter]: 0 for a key that
    is not there. *)
Fixpoint counter (key : string) (d : list (string * Z)) : Z :=
  match d with
  | [] => 0
  | (k, v) :: d' => if String.eqb k key then v else counter key d'
  end.

(** [Counter(l)]. *)
Definition Counter (l : list string) : list (string * Z) :=
  fold_left (fun d k => incr k d) l [].

(** [list.sort]: a stable sort that compares with [<] only.  [lt a b]
    is the comparison of the keys; with [reverse=True] it is taken the
    other way round, and equal keys keep their order either way. *)
Fixpoint insert_sorted {A} (lt : A -> A -> bool) (x : A) (l : list A)
    : list A :=
  match l with
  | [] => [x]
  | y :: l' => if lt y x then y :: insert_sorted lt x l' else x :: y :: l'
  end.

Definition py_sort {A} (key : A -> Q) (reverse : bool) (l : list A)
    : list A :=
  let lt := if reverse then fun a b => Qltb (key b) (key a)
            else fun a b => Qltb (key a) (key b) in
  fold_right (insert_sorted lt) [] l.

(** [range(a, b)]. *)
Definition range (a b : nat) : list nat := seq a (b - a).

(** [a in b] on strings. *)
Fixpoint is_substring (a b : string) : bool :=
  String.prefix a b ||
  match b with
  | EmptyString => false
  | String _ b' => is_substring a b'
  end.

(** [key.rsplit(sep, 1)] unpacked into two names: the split at the
    last [sep]; [None] when there is none (the unpacking raises). *)
Fixpoint rsplit1 (sep : ascii) (s : string) : option (string * string) :=
  match s with
  | EmptyString => None
  | String c rest =>
      match rsplit1 sep rest with
      | Some (a, b) => Some (String c a, b)
      | None => if Ascii.eqb c sep then Some (EmptyString, rest) else None
      end
  end.

(** The characters [re.escape] puts a backslash before. *)
Definition re_special : list ascii :=
  list_ascii_of_string "()[]{}?*+-|^$\.&~# "
  ++ [ascii_of_nat 9; ascii_of_nat 10; ascii_of_nat 13; ascii_of_nat 11;
      ascii_of_nat 12].

(** [re.escape(s)]. *)
Fixpoint re_escape (s : string) : string :=
  match s with
  | EmptyString => EmptyString
  | String c s' =>
      if existsb (Ascii.eqb c) re_special
      then String "\" (String c (re_escape s'))
      else String c (re_escape s')
  end.

Definition is_ascii_letter (c : ascii) : bool :=
  let n := nat_of_ascii c in
  ((65 <=? n)%nat && (n <=? 90)%nat) || ((97 <=? n)%nat && (n <=? 122)%nat).

Definition is_ascii_digit (c : ascii) : bool :=
  let n := nat_of_ascii c in (48 <=? n)%nat && (n <=? 57)%nat.

(** [re.search(r'[a-zA-Z]', s)] as a truth value. *)
Definition has_letter (s : string) : bool :=
  existsb is_ascii_letter (list_ascii_of_string s).

(** [s.isdigit()]. *)
Definition isdigit (s : string) : bool :=
  match s with
  | EmptyString => false
  | _ => forallb is_ascii_digit (list_ascii_of_string s)
  end.

(** * The fallback [levenshtein_distance] *)

(** The inner loop: the rest of [current_row], whose last element so
    far is [left]. *)
Fixpoint lev_row (c1 : ascii) (s2 : list ascii) (previous_row : list Z)
    (left : Z) : list Z :=
  match s2, previous_row with
  | c2 :: s2', p_j :: ((p_j1 :: _) as previous_row') =>
      let insertions := p_j1 + 1 in
      let deletions := left + 1 in
      let substitutions := p_j + (if Ascii.eqb c1 c2 then 0 else 1) in
      let v := Z.min (Z.min insertions deletions) substitutions in
      v :: lev_row c1 s2' previous_row' v
  | _, _ => []
  end.

(** The outer loop, from row [i] on. *)
Fixpoint lev_rows (s1 s2 : list ascii) (i : Z) (previous_row : list Z)
    : list Z :=
  match s1 with
  | [] => previous_row
  | c1 :: s1' =>
      lev_rows s1' s2 (i + 1) ((i + 1) :: lev_row c1 s2 previous_row (i + 1))
  end.

Definition levenshtein_distance (s1 s2 : string) : Z :=
  let '(s1, s2) :=
    if (String.length s1 <? String.length s2)%nat then (s2, s1)
    else (s1, s2) in
  if (String.length s2 =? 0)%nat then Z.of_nat (String.length s1)
  else
    let previous_row := map Z.of_nat (range 0 (String.length s2 + 1)) in
    List.last
      (lev_rows (list_ascii_of_string s1) (list_ascii_of_string s2) 0
         previous_row) 0.

(** ** What the distance is measured against

    An alignment of two strings with its cost: a character of the first
    string is deleted, a character of the second inserted, or one put
    for the other; each costs 1, except a character put for itself. *)
Inductive Edits : list ascii -> list ascii -> Z -> Prop :=
| edits_nil : Edits [] [] 0
| edits_delete a s t n : Edits s t n -> Edits (a :: s) t (n + 1)
| edits_insert b s t n : Edits s t n -> Edits s (b :: t) (n + 1)
| edits_substitute a b s t n :
    Edits s t n ->
    Edits (a :: s) (b :: t) (n + if Ascii.eqb a b then 0 else 1).

(** The recurrence of the table the two loops fill, on the strings read
    from their first characters on. *)
Fixpoint edit_distance (s t : list ascii) {struct s} : Z :=
  match s with
  | [] => Z.of_nat (length t)
  | a :: s' =>
      (fix inner (t : list ascii) : Z :=
         match t with
         | [] => Z.of_nat (length s)
         | b :: t' =>
             Z.min (Z.min (edit_distance s' t + 1) (inner t' + 1))
                   (edit_distance s' t' + (if Ascii.eqb a b then 0 else 1))
         end) t
  end.

(** A row of the table: the distances of [rs] to [rt] and to [rt]
    with more and more characters of [rest] put before it. *)
Fixpoint table_row (rs rt rest : list ascii) : list Z :=
  edit_distance rs rt ::
  match rest with
  | [] => []
  | b :: rest' => table_row rs (b :: rt) rest'
  end.

(** * Config: the defaults the embedded classes read *)

Module Config.

Record t := mk {
  COUNTERMEASURE_TTL : Q;
  PATTERN_SIMILARITY_THRESHOLD : Q;
  MIN_PATTERN_LENGTH : nat;
  MAX_PATTERN_LENGTH : nat;
  EFFECTIVENESS_THRESHOLD : Q
}.

Definition defaults : t := mk 86400 (75 # 100) 4 20 (5 # 10).

End Config.

(** * PatternManager *)

Module PatternManager.

(** The pattern dictionary ([services], [patterns], the version in its
    metadata), the keys of the cache of compiled patterns, and the
    patterns in the pattern file.  The text of the metadata's time
    stamp is left out. *)
Record t := mk {
  services : list string;
  patterns : list string;
  version : Z;
  pattern_cache : list string;
  pattern_file : list string
}.

(** The dictionary [_load_patterns] writes when there is no file. *)
Definition default_patterns : list string :=
  [".*Location.*Service"; ".*Beacon.*Service"; ".*Persistent.*";
   ".*KLMS.*"; ".*Tracking.*"].

Definition default_services : list string :=
  ["GoogleLocationService"; "GoogleLocationManagerService";
   "OfflineBeaconService_Persistent"; "LocationPersistentService";
   "CrisisAlertsPersistentService"].

(** The characters the two [re.sub] calls of [_is_too_similar] take
    out of a pattern. *)
Definition regex_syntax : list ascii := list_ascii_of_string ".*+?[](){}|^$\".

(** [re.sub(r'[\.\*\+\?\[\]\(\)\{\}\|\^\$\\]', '', pattern)]. *)
Definition core (pattern : string) : string :=
  string_of_list_ascii
    (List.filter (fun c => negb (existsb (Ascii.eqb c) regex_syntax))
       (list_ascii_of_string pattern)).

(** The similarity of two cores in [_is_too_similar]. *)
Definition similarity (pattern_core existing_core : string) : Q :=
  (1 - inject_Z (levenshtein_distance pattern_core existing_core)
       / inject_Z (Z.of_nat (Nat.max (String.length pattern_core)
                                     (String.length existing_core))))%Q.

(** One turn of the loop of [_is_too_similar]: does this stored
    pattern make it answer [True]? *)
Definition too_similar_to (cfg : Config.t) (pattern_core : string)
    (existing_pattern : string) : bool :=
  let existing_core := core existing_pattern in
  if is_substring pattern_core existing_core
     || is_substring existing_core pattern_core then true
  else if (0 <? String.length pattern_core)%nat
          && (0 <? String.length existing_core)%nat then
    Qltb (Config.PATTERN_SIMILARITY_THRESHOLD cfg)
      (similarity pattern_core existing_core)
  else false.

(** [_is_too_similar(pattern)]. *)
Definition _is_too_similar (cfg : Config.t) (pattern : string) (s : t)
    : bool :=
  let pattern_core := core pattern in
  if (String.length pattern_core <? Config.MIN_PATTERN_LENGTH cfg)%nat
  then true
  else existsb (too_similar_to cfg pattern_core) (patterns s).

(** [_save_patterns(self.patterns)]: the version goes up in memory,
    the file is written when [write_ok]. *)
Definition _save_patterns (write_ok : bool) (s : t) : bool * t :=
  let s := mk (services s) (patterns s) (version s + 1) (pattern_cache s)
             (pattern_file s) in
  if write_ok
  then (true, mk (services s) (patterns s) (version s) (pattern_cache s)
                (patterns s))
  else (false, s).

(** The loop of [add_patterns]: every candidate is tested against the
    stored list as it was when the call began. *)
Definition unique_patterns (cfg : Config.t) (new_patterns : list string)
    (s : t) : list string :=
  List.filter
    (fun pattern =>
       negb (bool_decide (pattern ∈ patterns s))
       && negb (_is_too_similar cfg pattern s))
    new_patterns.

(** [add_patterns(new_patterns)]. *)
Definition add_patterns (cfg : Config.t) (write_ok : bool)
    (new_patterns : list string) (s : t) : Z * t :=
  match new_patterns with
  | [] => (0, s)
  | _ :: _ =>
      let unique_patterns := unique_patterns cfg new_patterns s in
      let s := mk (services s) (patterns s ++ unique_patterns)%list
                 (version s) (pattern_cache s) (pattern_file s) in
      let s :=
        match unique_patterns with
        | [] => s
        | _ :: _ =>
            let s := snd (_save_patterns write_ok s) in
            mk (services s) (patterns s) (version s) [] (pattern_file s)
        end in
      (Z.of_nat (length unique_patterns), s)
  end.

(** The n-grams one service contributes in
    [generate_patterns_from_services]. *)
Definition ngrams_of (cfg : Config.t) (service : string) : list string :=
  if (String.length service <? Config.MIN_PATTERN_LENGTH cfg)%nat then []
  else
    flat_map
      (fun n =>
         flat_map
           (fun i =>
              let substring := String.substring i n service in
              if negb (has_letter substring) || isdigit substring then []
              else [substring])
           (range 0 (String.length service - n + 1)))
      (range (Config.MIN_PATTERN_LENGTH cfg)
         (Nat.min (Config.MAX_PATTERN_LENGTH cfg)
            (String.length service + 1))).

(** [generate_patterns_from_services(services)]. *)
Definition generate_patterns_from_services (cfg : Config.t)
    (services : list string) : list string :=
  if (length services <? 2)%nat then []
  else
    let ngrams := flat_map (ngrams_of cfg) services in
    let ngram_counts := Counter ngrams in
    let common_ngrams :=
      map fst (List.filter (fun kv => 2 <=? snd kv) ngram_counts) in
    map (fun ngram => ".*" ++ re_escape ngram ++ ".*") common_ngrams.

End PatternManager.

(** The invariant of the pattern list in the words of the
    specification, over the code's own [core], [is_substring] and
    [similarity]: of any two stored patterns, neither core is a
    substring of the other and their similarity does not exceed the
    threshold. *)
Definition spec_compatible (cfg : Config.t) (p q : string) : bool :=
  negb (is_substring (PatternManager.core p) (PatternManager.core q))
  && negb (Qltb (Config.PATTERN_SIMILARITY_THRESHOLD cfg)
             (PatternManager.similarity (PatternManager.core p)
                (PatternManager.core q))).

Fixpoint spec_store_invariant (cfg : Config.t) (l : list string) : bool :=
  match l with
  | [] => true
  | p :: l' =>
      forallb (fun q => spec_compatible cfg p q && spec_compatible cfg q p) l'
      && spec_store_invariant cfg l'
  end.

(** * TriggerAnalyzer *)

Module TriggerAnalyzer.

(** An entry of one of the six event lists. *)
Record Event := mkEvent {
  timestamp : Q;
  details : list (string * string)
}.

(** A trigger as [check_resurrection_triggers] builds it. *)
Record Trigger := mkTrigger {
  tr_type : string;
  tr_service : string;
  time_diff : Q;
  tr_details : list (string * string)
}.

(** An entry of the result of [get_strong_correlations]. *)
Record Correlation := mkCorrelation {
  service : string;
  trigger_type : string;
  count : Z;
  confidence : Q
}.

Record t := mk {
  trigger_correlations : list (string * Z);
  screen_state_changes : list Event;
  network_changes : list Event;
  usb_events : list Event;
  bluetooth_events : list Event;
  app_launches : list Event;
  foreground_app_changes : list Event
}.

(** [TriggerAnalyzer.__init__]. *)
Definition init : t := mk [] [] [] [] [] [] [].

(** [record_event(event_type, timestamp, details)]. *)
Definition record_event (event_type : string) (timestamp : Q)
    (details : list (string * string)) (s : t) : t :=
  let event := mkEvent timestamp details in
  let push l := last_n 20 (l ++ [event])%list in
  if String.eqb event_type "screen_state" then
    mk (trigger_correlations s) (push (screen_state_changes s))
       (network_changes s) (usb_events s) (bluetooth_events s)
       (app_launches s) (foreground_app_changes s)
  else if String.eqb event_type "network" then
    mk (trigger_correlations s) (screen_state_changes s)
       (push (network_changes s)) (usb_events s) (bluetooth_events s)
       (app_launches s) (foreground_app_changes s)
  else if String.eqb event_type "usb" then
    mk (trigger_correlations s) (screen_state_changes s)
       (network_changes s) (push (usb_events s)) (bluetooth_events s)
       (app_launches s) (foreground_app_changes s)
  else if String.eqb event_type "bluetooth" then
    mk (trigger_correlations s) (screen_state_changes s)
       (network_changes s) (usb_events s) (push (bluetooth_events s))
       (app_launches s) (foreground_app_changes s)
  else if String.eqb event_type "app_launch" then
    mk (trigger_correlations s) (screen_state_changes s)
       (network_changes s) (usb_events s) (bluetooth_events s)
       (push (app_launches s)) (foreground_app_changes s)
  else if String.eqb event_type "foreground_app" then
    mk (trigger_correlations s) (screen_state_changes s)
       (network_changes s) (usb_events s) (bluetooth_events s)
       (app_launches s) (push (foreground_app_changes s))
  else s.

Definition time_window : Q := 5.

(** The trigger built for [event] in the loop for [trigger_type]. *)
Definition trigger_of (trigger_type service : string)
    (resurrection_time : Q) (event : Event) : Trigger :=
  mkTrigger trigger_type service
    (Qabs (float_sub resurrection_time (timestamp event))) (details event).

(** One of the six loops of [check_resurrection_triggers], over the
    list [events], for the trigger type [trigger_type]. *)
Definition scan (trigger_type service : string) (resurrection_time : Q)
    (events : list Event) (acc : list Trigger * list (string * Z))
    : list Trigger * list (string * Z) :=
  fold_left
    (fun acc event =>
       let time_diff :=
         Qabs (float_sub resurrection_time (timestamp event)) in
       if Qleb time_diff time_window then
         ((fst acc ++ [trigger_of trigger_type service resurrection_time
                         event])%list,
          incr (service ++ "_" ++ trigger_type) (snd acc))
       else acc)
    events acc.

(** The six event lists, in the order [check_resurrection_triggers]
    walks them, each with the trigger type its loop writes. *)
Definition windows (s : t) : list (string * list Event) :=
  [("screen_state_change", screen_state_changes s);
   ("network_change", network_changes s);
   ("usb_event", usb_events s);
   ("bluetooth_event", bluetooth_events s);
   ("app_launch", app_launches s);
   ("foreground_app_change", foreground_app_changes s)].

(** The test of the time window in each loop. *)
Definition within_window (resurrection_time : Q) (event : Event) : bool :=
  Qleb (Qabs (float_sub resurrection_time (timestamp event))) time_window.

(** [check_resurrection_triggers(service, resurrection_time)]. *)
Definition check_resurrection_triggers (service : string)
    (resurrection_time : Q) (s : t) : list Trigger * t :=
  let acc := ([], trigger_correlations s) in
  let acc := scan "screen_state_change" service resurrection_time
               (screen_state_changes s) acc in
  let acc := scan "network_change" service resurrection_time
               (network_changes s) acc in
  let acc := scan "usb_event" service resurrection_time
               (usb_events s) acc in
  let acc := scan "bluetooth_event" service resurrection_time
               (bluetooth_events s) acc in
  let acc := scan "app_launch" service resurrection_time
               (app_launches s) acc in
  let acc := scan "foreground_app_change" service resurrection_time
               (foreground_app_changes s) acc in
  (py_sort time_diff false (fst acc),
   mk (snd acc) (screen_state_changes s) (network_changes s)
      (usb_events s) (bluetooth_events s) (app_launches s)
      (foreground_app_changes s)).

(** The loop of [get_strong_correlations] over the items of the
    counter dictionary; [None] when a key has no underscore, so that
    unpacking the result of [rsplit] raises. *)
Fixpoint strong_entries (min_count : Z) (items : list (string * Z))
    : option (list Correlation) :=
  match items with
  | [] => Some []
  | (key, count) :: items' =>
      if min_count <=? count then
        match rsplit1 "_" key with
        | Some (service, trigger_type) =>
            match strong_entries min_count items' with
            | Some l =>
                Some (mkCorrelation service trigger_type count
                        (py_min 1 (inject_Z count / 10)) :: l)
            | None => None
            end
        | None => None
        end
      else strong_entries min_count items'
  end.

(** [get_strong_correlations(min_count)]. *)
Definition get_strong_correlations (min_count : Z) (s : t)
    : option (list Correlation) :=
  match strong_entries min_count (trigger_correlations s) with
  | Some l => Some (py_sort confidence true l)
  | None => None
  end.

Section Extraction.

(** What [extract_events_from_log] gets from the library: the package
    found by [re.search(r'cmp=([^\s/]+)', log_line)], the one found by
    [re.search(r'([a-zA-Z0-9_.]+)/[a-zA-Z0-9_.]+', log_line)] (group 1
    of each, [None] without a match), and [str.lower]. *)
Variable cmp_package : string -> option string.
Variable displayed_package : string -> option string.
Variable lower : string -> string.

(** [extract_events_from_log(log_line)].  [timestamp] is the time the
    first part of the method settles on: the one written in the line
    when there is one that parses, the clock's otherwise. *)
Definition extract_events_from_log (timestamp : Q) (log_line : string)
    (s : t) : t :=
  if is_substring "mWakefulness=" log_line then
    let state :=
      if is_substring "Awake" log_line then "awake"
      else if is_substring "Asleep" log_line then "asleep"
      else if is_substring "Dozing" log_line then "dozing"
      else "unknown" in
    record_event "screen_state" timestamp [("state", state)] s
  else if is_substring "NetworkInfo" log_line
          || is_substring "ConnectivityService" log_line then
    if is_substring "CONNECTED" log_line then
      record_event "network" timestamp [("state", "connected")] s
    else if is_substring "DISCONNECTED" log_line then
      record_event "network" timestamp [("state", "disconnected")] s
    else s
  else if is_substring "UsbDeviceManager" log_line
          || is_substring "USB" log_line then
    if is_substring "attached" (lower log_line) then
      record_event "usb" timestamp [("state", "attached")] s
    else if is_substring "detached" (lower log_line) then
      record_event "usb" timestamp [("state", "detached")] s
    else s
  else if is_substring "Bluetooth" log_line
          || is_substring "BT_" log_line then
    if is_substring "enabled" (lower log_line) then
      record_event "bluetooth" timestamp [("state", "enabled")] s
    else if is_substring "disabled" (lower log_line) then
      record_event "bluetooth" timestamp [("state", "disabled")] s
    else if is_substring "connected" (lower log_line) then
      record_event "bluetooth" timestamp [("state", "connected")] s
    else if is_substring "disconnected" (lower log_line) then
      record_event "bluetooth" timestamp [("state", "disconnected")] s
    else s
  else if is_substring "ActivityManager" log_line
          && is_substring "start" log_line then
    match cmp_package log_line with
    | Some package =>
        record_event "app_launch" timestamp [("package", package)] s
    | None => s
    end
  else if is_substring "ActivityManager" log_line
          && is_substring "Displayed" log_line then
    match displayed_package log_line with
    | Some package =>
        record_event "foreground_app" timestamp [("package", package)] s
    | None => s
    end
  else s.

End Extraction.

(** The six trigger types [check_resurrection_triggers] writes, which
    are also the six [generate_countermeasures] knows. *)
Definition trigger_types : list string :=
  ["screen_state_change"; "network_change"; "usb_event";
   "bluetooth_event"; "app_launch"; "foreground_app_change"].

(** The six event lists by the event type [record_event] files an
    event under. *)
Definition event_lists : list (string * (t -> list Event)) :=
  [("screen_state", screen_state_changes);
   ("network", network_changes);
   ("usb", usb_events);
   ("bluetooth", bluetooth_events);
   ("app_launch", app_launches);
   ("foreground_app", foreground_app_changes)].

(** The analyzers the two recording methods lead to from a new one. *)
Inductive Reachable : t -> Prop :=
| reach_init : Reachable init
| reach_record event_type timestamp details s :
    Reachable s -> Reachable (record_event event_type timestamp details s)
| reach_check service resurrection_time s :
    Reachable s ->
    Reachable (snd (check_resurrection_triggers service resurrection_time s)).

End TriggerAnalyzer.

(** * CountermeasureManager *)

Module CountermeasureManager.

(** The [tracking] dictionary of a countermeasure.  Every place that
    builds one gives it the first three keys; [_calculate_effectiveness]
    also looks up a key [created_at] in it. *)
Record Tracking := mkTracking {
  resurrections_before : Z;
  resurrections_after : Z;
  last_checked : Q;
  tracking_created_at : option Q
}.

(** A countermeasure dictionary: [None] is an absent key. *)
Record Countermeasure := mkCM {
  cm_id : option string;
  cm_type : option string;
  cm_service : option string;
  cm_interval : option Z;
  cm_components : option (list string);
  cm_description : option string;
  cm_severity : option Q;
  cm_ttl : option Q;
  cm_created_at : option Q;
  cm_expires_at : option Q;
  cm_retry_count : option Z;
  cm_max_retries : option Z;
  cm_tracking : option Tracking
}.

(** The empty dictionary [{}]. *)
Definition empty_cm : Countermeasure :=
  mkCM None None None None None None None None None None None None None.

Definition set_id v c :=
  mkCM v (cm_type c) (cm_service c) (cm_interval c) (cm_components c)
    (cm_description c) (cm_severity c) (cm_ttl c) (cm_created_at c)
    (cm_expires_at c) (cm_retry_count c) (cm_max_retries c) (cm_tracking c).
Definition set_type v c :=
  mkCM (cm_id c) v (cm_service c) (cm_interval c) (cm_components c)
    (cm_description c) (cm_severity c) (cm_ttl c) (cm_created_at c)
    (cm_expires_at c) (cm_retry_count c) (cm_max_retries c) (cm_tracking c).
Definition set_interval v c :=
  mkCM (cm_id c) (cm_type c) (cm_service c) v (cm_components c)
    (cm_description c) (cm_severity c) (cm_ttl c) (cm_created_at c)
    (cm_expires_at c) (cm_retry_count c) (cm_max_retries c) (cm_tracking c).
Definition set_components v c :=
  mkCM (cm_id c) (cm_type c) (cm_service c) (cm_interval c) v
    (cm_description c) (cm_severity c) (cm_ttl c) (cm_created_at c)
    (cm_expires_at c) (cm_retry_count c) (cm_max_retries c) (cm_tracking c).
Definition set_description v c :=
  mkCM (cm_id c) (cm_type c) (cm_service c) (cm_interval c) (cm_components c)
    v (cm_severity c) (cm_ttl c) (cm_created_at c)
    (cm_expires_at c) (cm_retry_count c) (cm_max_retries c) (cm_tracking c).
Definition set_severity v c :=
  mkCM (cm_id c) (cm_type c) (cm_service c) (cm_interval c) (cm_components c)
    (cm_description c) v (cm_ttl c) (cm_created_at c)
    (cm_expires_at c) (cm_retry_count c) (cm_max_retries c) (cm_tracking c).
Definition set_ttl v c :=
  mkCM (cm_id c) (cm_type c) (cm_service c) (cm_interval c) (cm_components c)
    (cm_description c) (cm_severity c) v (cm_created_at c)
    (cm_expires_at c) (cm_retry_count c) (cm_max_retries c) (cm_tracking c).
Definition set_created_at v c :=
  mkCM (cm_id c) (cm_type c) (cm_service c) (cm_interval c) (cm_components c)
    (cm_description c) (cm_severity c) (cm_ttl c) v
    (cm_expires_at c) (cm_retry_count c) (cm_max_retries c) (cm_tracking c).
Definition set_expires_at v c :=
  mkCM (cm_id c) (cm_type c) (cm_service c) (cm_interval c) (cm_components c)
    (cm_description c) (cm_severity c) (cm_ttl c) (cm_created_at c)
    v (cm_retry_count c) (cm_max_retries c) (cm_tracking c).
Definition set_retry_count v c :=
  mkCM (cm_id c) (cm_type c) (cm_service c) (cm_interval c) (cm_components c)
    (cm_description c) (cm_severity c) (cm_ttl c) (cm_created_at c)
    (cm_expires_at c) v (cm_max_retries c) (cm_tracking c).
Definition set_max_retries v c :=
  mkCM (cm_id c) (cm_type c) (cm_service c) (cm_interval c) (cm_components c)
    (cm_description c) (cm_severity c) (cm_ttl c) (cm_created_at c)
    (cm_expires_at c) (cm_retry_count c) v (cm_tracking c).
Definition set_tracking v c :=
  mkCM (cm_id c) (cm_type c) (cm_service c) (cm_interval c) (cm_components c)
    (cm_description c) (cm_severity c) (cm_ttl c) (cm_created_at c)
    (cm_expires_at c) (cm_retry_count c) (cm_max_retries c) v.

(** [not countermeasure]: the dictionary has no key. *)
Definition is_empty (c : Countermeasure) : bool :=
  match c with
  | mkCM None None None None None None None None None None None None None =>
      true
  | _ => false
  end.

(** An entry of [effectiveness_metrics["countermeasures"]]. *)
Record CmMetrics := mkCmMetrics {
  effectiveness : Q;
  last_updated : Q
}.

(** An entry of [effectiveness_metrics["services"]]. *)
Record ServiceMetrics := mkServiceMetrics {
  total_kills : Z;
  resurrections : Z;
  last_kill : Q;
  last_resurrection : Q
}.

(** The manager: the list in memory, the two metric dictionaries, and
    the content of the countermeasure file. *)
Record t := mk {
  countermeasures : list Countermeasure;
  metrics_countermeasures : gmap string CmMetrics;
  metrics_services : gmap string ServiceMetrics;
  cm_file : list Countermeasure
}.

Definition set_countermeasures (l : list Countermeasure) (s : t) : t :=
  mk l (metrics_countermeasures s) (metrics_services s) (cm_file s).

(** [str(x)] for an integer and for an optional string ([None] prints
    as [None]). *)
Definition str_int (z : Z) : string := NilZero.string_of_int (Z.to_int z).
Definition str_opt (o : option string) : string := default "None" o.

(** The test of expiry in [_clean_expired_countermeasures]. *)
Definition expired (now : Q) (c : Countermeasure) : bool :=
  match cm_expires_at c with
  | Some e => Qltb e now
  | None => false
  end.

(** The test of the retry limit in [_clean_expired_countermeasures]. *)
Definition retry_limit_exceeded (c : Countermeasure) : bool :=
  match cm_retry_count c, cm_max_retries c with
  | Some r, Some m => m <=? r
  | _, _ => false
  end.

(** [_clean_expired_countermeasures()]: the number removed and the new
    state. *)
Definition _clean_expired_countermeasures (now : Q) (s : t) : Z * t :=
  let active_countermeasures :=
    List.filter (fun c => negb (expired now c) && negb (retry_limit_exceeded c))
      (countermeasures s) in
  (Z.of_nat (length (countermeasures s))
     - Z.of_nat (length active_countermeasures),
   set_countermeasures active_countermeasures s).

(** [_save_countermeasures()].  [write_ok] says whether opening and
    writing the file went through; when it did not, the handler answers
    [False] and the file keeps its content. *)
Definition _save_countermeasures (now : Q) (write_ok : bool) (s : t)
    : bool * t :=
  let s := snd (_clean_expired_countermeasures now s) in
  if write_ok then
    (true, mk (countermeasures s) (metrics_countermeasures s)
             (metrics_services s) (countermeasures s))
  else (false, s).

(** [_is_duplicate_countermeasure(cm1, cm2)]. *)
Definition _is_duplicate_countermeasure (cm1 cm2 : Countermeasure) : bool :=
  if negb (bool_decide (cm_type cm1 = cm_type cm2)) then false
  else if negb (bool_decide (cm_service cm1 = cm_service cm2)) then false
  else
    let cm_type := cm_type cm1 in
    if bool_decide (cm_type = Some "preemptive_kill") then
      bool_decide (cm_interval cm1 = cm_interval cm2)
    else if bool_decide (cm_type = Some "app_launch_hook")
            || bool_decide (cm_type = Some "screen_state_hook") then true
    else false.

Section Digest.

(** Two library functions the identifier is built with: the text of a
    float in an f-string, and [hashlib.md5(s.encode()).hexdigest()]. *)
Variable str_float : Q -> string.
Variable md5_hexdigest : string -> string.

(** The identifier [add_countermeasure] mints. *)
Definition new_id (now : Q) (c : Countermeasure) : string :=
  let cm_type := default "unknown" (cm_type c) in
  let service := default "global" (cm_service c) in
  let cm_hash :=
    substring 0 8
      (md5_hexdigest (cm_type ++ "_" ++ service ++ "_" ++ str_float now)) in
  cm_type ++ "_" ++ service ++ "_" ++ cm_hash.

(** The first part of [add_countermeasure]: the keys it writes into
    the dictionary it was given, before the search for a duplicate. *)
Definition prepare (cfg : Config.t) (now : Q) (c : Countermeasure)
    : Countermeasure :=
  let ttl := default (Config.COUNTERMEASURE_TTL cfg) (cm_ttl c) in
  let c := set_created_at (Some now) c in
  let c := set_expires_at (Some (now + ttl)%Q) c in
  let c := match cm_tracking c with
           | Some _ => c
           | None => set_tracking (Some (mkTracking 0 0 now None)) c
           end in
  let c := match cm_retry_count c with
           | Some _ => c
           | None => set_retry_count (Some 0) c
           end in
  let c := match cm_max_retries c with
           | Some _ => c
           | None => set_max_retries (Some 3) c
           end in
  match cm_id c with
  | Some _ => c
  | None => set_id (Some (new_id now c)) c
  end.

(** The loop over the stored countermeasures in [add_countermeasure]:
    the first duplicate of [c] gets its TTL extended and its retry
    count incremented.  [None]: no duplicate in the list.
    [Some None]: the duplicate has no [retry_count], so [+= 1] raises
    [KeyError]. *)
Fixpoint update_duplicate (now ttl : Q) (c : Countermeasure)
    (l : list Countermeasure) : option (option (list Countermeasure)) :=
  match l with
  | [] => None
  | existing_cm :: rest =>
      if _is_duplicate_countermeasure existing_cm c then
        match cm_retry_count existing_cm with
        | Some r =>
            Some (Some
              (set_retry_count (Some (r + 1))
                 (set_expires_at (Some (now + ttl)%Q) existing_cm) :: rest))
        | None => Some None
        end
      else
        match update_duplicate now ttl c rest with
        | Some (Some rest') => Some (Some (existing_cm :: rest'))
        | other => other
        end
  end.

(** [add_countermeasure(countermeasure)].  [now] is the reading at the
    top, [now_save] the later one of the clean-up inside the save.
    [None] is a raised [KeyError]. *)
Definition add_countermeasure (cfg : Config.t) (now now_save : Q)
    (write_ok : bool) (countermeasure : Countermeasure) (s : t)
    : option (bool * t) :=
  if is_empty countermeasure then Some (false, s)
  else
    let ttl :=
      default (Config.COUNTERMEASURE_TTL cfg) (cm_ttl countermeasure) in
    let countermeasure := prepare cfg now countermeasure in
    match update_duplicate now ttl countermeasure (countermeasures s) with
    | Some (Some l) =>
        Some (true,
              snd (_save_countermeasures now_save write_ok
                     (set_countermeasures l s)))
    | Some None => None
    | None =>
        Some (true,
              snd (_save_countermeasures now_save write_ok
                     (set_countermeasures
                        (countermeasures s ++ [countermeasure])%list s)))
    end.

End Digest.

(** [_calculate_effectiveness(tracking)].  [now1] and [now2] are the
    two readings taken for the defaults of the two [get]s. *)
Definition _calculate_effectiveness (now1 now2 : Q) (tracking : Tracking)
    : Q :=
  let resurrections_before := Z.max 1 (resurrections_before tracking) in
  let resurrections_after := resurrections_after tracking in
  let created_at := default now1 (tracking_created_at tracking) in
  let last_checked := last_checked tracking in
  let time_active := (last_checked - created_at)%Q in
  let time_before := 3600%Q in
  let resurrections_rate_after :=
    if Qltb 0 time_active then
      (inject_Z resurrections_after / (time_active / 3600))%Q
    else 0%Q in
  let resurrections_rate_before :=
    (inject_Z resurrections_before / (time_before / 3600))%Q in
  let reduction :=
    if Qltb 0 resurrections_rate_before then
      (1 - resurrections_rate_after / resurrections_rate_before)%Q
    else 0%Q in
  py_max 0 (py_min 1 reduction).

(** The body of the loop over the countermeasures in
    [update_effectiveness], for a resurrection of [service] that made
    its counter [service_resurrections]; [now_calc] is the reading
    taken inside [_calculate_effectiveness]. *)
Definition track_resurrection (now now_calc : Q) (service : string)
    (service_resurrections : Z)
    (acc : list Countermeasure * gmap string CmMetrics)
    (cm : Countermeasure) : list Countermeasure * gmap string CmMetrics :=
  let '(visited, metrics) := acc in
  if bool_decide (cm_service cm = Some service) then
    let tracking :=
      default (mkTracking 0 0 (default now (cm_created_at cm)) None)
        (cm_tracking cm) in
    let tracking :=
      if (resurrections_before tracking =? 0)
         && (resurrections_after tracking =? 0)
      then mkTracking service_resurrections (resurrections_after tracking)
             (last_checked tracking) (tracking_created_at tracking)
      else mkTracking (resurrections_before tracking)
             (resurrections_after tracking + 1)
             (last_checked tracking) (tracking_created_at tracking) in
    let tracking :=
      mkTracking (resurrections_before tracking)
        (resurrections_after tracking) now (tracking_created_at tracking) in
    let metrics :=
      if 0 <? resurrections_before tracking then
        <[default "unknown" (cm_id cm) :=
            mkCmMetrics (_calculate_effectiveness now_calc now_calc tracking)
              now]> metrics
      else metrics in
    ((visited ++ [set_tracking (Some tracking) cm])%list, metrics)
  else ((visited ++ [cm])%list, metrics).

(** [update_effectiveness(service, killed)]. *)
Definition update_effectiveness (now now_calc : Q) (service : string)
    (killed : bool) (s : t) : t :=
  let service_metrics :=
    default (mkServiceMetrics 0 0 0 0) (metrics_services s !! service) in
  if killed then
    let service_metrics :=
      mkServiceMetrics (total_kills service_metrics + 1)
        (resurrections service_metrics) now
        (last_resurrection service_metrics) in
    mk (countermeasures s) (metrics_countermeasures s)
       (<[service := service_metrics]> (metrics_services s)) (cm_file s)
  else
    let service_metrics :=
      mkServiceMetrics (total_kills service_metrics)
        (resurrections service_metrics + 1)
        (last_kill service_metrics) now in
    let '(cms, metrics) :=
      fold_left
        (track_resurrection now now_calc service
           (resurrections service_metrics))
        (countermeasures s) ([], metrics_countermeasures s) in
    mk cms metrics
       (<[service := service_metrics]> (metrics_services s)) (cm_file s).

(** [get_ineffective_countermeasures(threshold)]; [now1] and [now2]
    are the readings behind the defaults of [created_at] and
    [last_checked]. *)
Definition get_ineffective_countermeasures (cfg : Config.t) (now1 now2 : Q)
    (threshold : option Q) (s : t) : list Countermeasure :=
  let threshold :=
    default (Config.EFFECTIVENESS_THRESHOLD cfg) threshold in
  List.filter
    (fun cm =>
       let cm_id := default "unknown" (cm_id cm) in
       let effectiveness :=
         match metrics_countermeasures s !! cm_id with
         | Some m => effectiveness m
         | None => 0%Q
         end in
       let created_at := default now1 (cm_created_at cm) in
       let last_checked :=
         match cm_tracking cm with
         | Some tr => last_checked tr
         | None => now2
         end in
       if Qltb (last_checked - created_at) 1800 then false
       else Qltb effectiveness threshold)
    (countermeasures s).

(** The six hook types [escalate_countermeasure] combines with a
    preemptive kill. *)
Definition hook_types : list string :=
  ["screen_state_hook"; "app_launch_hook"; "network_hook";
   "bluetooth_hook"; "usb_hook"; "foreground_app_hook"].

(** [escalate_countermeasure(countermeasure)]: the escalated copy. *)
Definition escalate_countermeasure (cfg : Config.t) (now : Q)
    (countermeasure : Countermeasure) : Countermeasure :=
  let cm_type := cm_type countermeasure in
  let service := cm_service countermeasure in
  let escalated := set_id None countermeasure in
  let escalated :=
    if bool_decide (cm_type = Some "preemptive_kill") then
      let original_interval := default 30 (cm_interval escalated) in
      let interval := Z.max 1 (Z.quot original_interval 2) in
      set_description
        (Some ("Escalated: Preemptively kill " ++ str_opt service
               ++ " every " ++ str_int interval ++ " seconds"))
        (set_interval (Some interval) escalated)
    else
      match cm_type with
      | Some ty =>
          if bool_decide (ty ∈ hook_types) then
            set_description
              (Some ("Escalated: Combined strategy for " ++ str_opt service
                     ++ " with 15s preemptive kills"))
              (set_interval (Some 15)
                 (set_components (Some [ty; "preemptive_kill"])
                    (set_type (Some "combined_strategy") escalated)))
          else escalated
      | None => escalated
      end in
  let escalated :=
    set_severity
      (Some (py_min 1 (default (5 # 10)%Q (cm_severity countermeasure)
                       + (2 # 10))%Q))
      escalated in
  let escalated :=
    set_tracking (Some (mkTracking 0 0 now None)) escalated in
  set_ttl (Some (Config.COUNTERMEASURE_TTL cfg * 2)%Q) escalated.

(** The keys [add_countermeasure] gives every dictionary it stores. *)
Definition has_admission_keys (c : Countermeasure) : Prop :=
  is_Some (cm_id c) /\ is_Some (cm_created_at c)
  /\ is_Some (cm_expires_at c) /\ is_Some (cm_retry_count c)
  /\ is_Some (cm_max_retries c) /\ is_Some (cm_tracking c).

(** No [tracking] dictionary in the list has a key [created_at]. *)
Definition tracking_without_created_at (l : list Countermeasure) : Prop :=
  forall cm tr,
    In cm l -> cm_tracking cm = Some tr -> tracking_created_at tr = None.

(** The dictionary [generate_countermeasures] builds for a service
    that resurrects at a steady interval. *)
Definition preemptive_kill_cm (cfg : Config.t) (service : string)
    (interval : Z) (threat_score : Q) : Countermeasure :=
  mkCM None (Some "preemptive_kill") (Some service) (Some interval) None
    (Some ("Preemptively kill " ++ service ++ " every " ++ str_int interval
           ++ " seconds"))
    (Some threat_score) (Some (Config.COUNTERMEASURE_TTL cfg)) None None
    None (Some 3) None.

(** The dictionary [generate_countermeasures] builds for a strong
    correlation: [hook] is the hook type and [after] the end of its
    description. *)
Definition hook_cm (cfg : Config.t) (hook service after : string)
    (threat_score : Q) : Countermeasure :=
  mkCM None (Some hook) (Some service) None None
    (Some ("Monitor and kill " ++ service ++ " immediately after " ++ after))
    (Some threat_score) (Some (Config.COUNTERMEASURE_TTL cfg)) None None
    None (Some 3) None.

(** [int(x)] of a float: truncation towards zero. *)
Definition int_of_float (x : Q) : Z := Z.quot (Qnum x) (Z.pos (Qden x)).

(** The first loop of [generate_countermeasures], for one item of
    [resurrection_patterns]. *)
Definition periodic_countermeasure (cfg : Config.t)
    (threat_scores : gmap string Q) (item : string * list Z)
    : list Countermeasure :=
  let '(service, times) := item in
  if (3 <=? length times)%nat then
    let len := inject_Z (Z.of_nat (length times)) in
    let avg_time := (inject_Z (sumZ times) / len)%Q in
    let variance :=
      (fold_right Qplus 0
         (map (fun t => (inject_Z t - avg_time) * (inject_Z t - avg_time))
            times) / len)%Q in
    if Qltb variance 25 then
      let threat_score := default (5 # 10)%Q (threat_scores !! service) in
      [preemptive_kill_cm cfg service
         (Z.max 1 (int_of_float avg_time - 2)) threat_score]
    else []
  else [].

(** The second loop, for one strong correlation. *)
Definition correlation_countermeasure (cfg : Config.t)
    (threat_scores : gmap string Q)
    (correlation : TriggerAnalyzer.Correlation) : list Countermeasure :=
  let service := TriggerAnalyzer.service correlation in
  let trigger_type := TriggerAnalyzer.trigger_type correlation in
  let confidence := TriggerAnalyzer.confidence correlation in
  if Qltb confidence (7 # 10) then []
  else
    let threat_score := default (5 # 10)%Q (threat_scores !! service) in
    if String.eqb trigger_type "screen_state_change" then
      [hook_cm cfg "screen_state_hook" service "screen state changes"
         threat_score]
    else if String.eqb trigger_type "app_launch" then
      [hook_cm cfg "app_launch_hook" service "app launches" threat_score]
    else if String.eqb trigger_type "network_change" then
      [hook_cm cfg "network_hook" service "network changes" threat_score]
    else if String.eqb trigger_type "bluetooth_event" then
      [hook_cm cfg "bluetooth_hook" service "Bluetooth events" threat_score]
    else if String.eqb trigger_type "usb_event" then
      [hook_cm cfg "usb_hook" service "USB events" threat_score]
    else if String.eqb trigger_type "foreground_app_change" then
      [hook_cm cfg "foreground_app_hook" service "foreground app changes"
         threat_score]
    else [].

(** [generate_countermeasures(resurrection_patterns,
    trigger_correlations, threat_scores)]; the first dictionary is
    walked in the order of its items. *)
Definition generate_countermeasures (cfg : Config.t)
    (resurrection_patterns : list (string * list Z))
    (trigger_correlations : list TriggerAnalyzer.Correlation)
    (threat_scores : gmap string Q) : list Countermeasure :=
  let new_countermeasures :=
    (flat_map (periodic_countermeasure cfg threat_scores)
       resurrection_patterns
     ++ flat_map (correlation_countermeasure cfg threat_scores)
          trigger_correlations)%list in
  py_sort (fun x => default 0%Q (cm_severity x)) true new_countermeasures.

End CountermeasureManager.

(** * ThreatScorer *)

Module ThreatScorer.

(** The value stored under a service name in [service_stats]. *)
Record ServiceStats := mkStats {
  kill_count : Z;
  resurrection_count : Z;
  resurrection_times : list Z;
  first_seen : Q;
  last_seen : Q;
  patterns_matched : gset string
}.

(** The two dictionaries of a [ThreatScorer]. *)
Record t := mk {
  service_stats : gmap string ServiceStats;
  threat_scores : gmap string Q
}.

(** [ThreatScorer.__init__]. *)
Definition init : t := mk ∅ ∅.

(** The entry [update_service_stats] creates for an unknown service. *)
Definition fresh_stats (now : Q) : ServiceStats :=
  mkStats 0 0 [] now now ∅.

(** [update_service_stats(service, killed, resurrection_time)]. *)
Definition update_service_stats (now : Q) (service : string) (killed : bool)
    (resurrection_time : option Z) (s : t) : t :=
  let st := match service_stats s !! service with
            | Some st => st
            | None => fresh_stats now
            end in
  let st := mkStats (kill_count st) (resurrection_count st)
              (resurrection_times st) (first_seen st) now
              (patterns_matched st) in
  let st :=
    if killed then
      mkStats (kill_count st + 1) (resurrection_count st)
        (resurrection_times st) (first_seen st) (last_seen st)
        (patterns_matched st)
    else
      let times := match resurrection_time with
                   | Some r => last_n 20 (resurrection_times st ++ [r])
                   | None => resurrection_times st
                   end in
      mkStats (kill_count st) (resurrection_count st + 1) times
        (first_seen st) (last_seen st) (patterns_matched st) in
  mk (<[service := st]> (service_stats s)) (threat_scores s).

(** [add_pattern_match(service, pattern)].  The last line indexes the
    dictionary, which holds the service by then. *)
Definition add_pattern_match (now : Q) (service pattern : string) (s : t)
    : t :=
  let s := match service_stats s !! service with
           | Some _ => s
           | None => update_service_stats now service false None s
           end in
  match service_stats s !! service with
  | Some st =>
      mk (<[service := mkStats (kill_count st) (resurrection_count st)
                         (resurrection_times st) (first_seen st)
                         (last_seen st)
                         ({[pattern]} ∪ patterns_matched st)]>
            (service_stats s))
         (threat_scores s)
  | None => s
  end.

(** The body of the loop of [calculate_threat_scores] for one service
    that passed the recency test. *)
Definition score_of (st : ServiceStats) : Q :=
  let score := (5 # 10)%Q in
  let score :=
    if 0 <? kill_count st then
      let resurrection_ratio :=
        (inject_Z (resurrection_count st) / inject_Z (kill_count st))%Q in
      (score + py_min (3 # 10) (resurrection_ratio * (1 # 10)))%Q
    else score in
  let score :=
    match resurrection_times st with
    | [] => score
    | _ :: _ =>
        let avg_time :=
          (inject_Z (sumZ (resurrection_times st))
           / inject_Z (Z.of_nat (length (resurrection_times st))))%Q in
        if Qltb avg_time 10 then (score + (15 # 100))%Q
        else if Qltb avg_time 30 then (score + (1 # 10))%Q
        else if Qltb avg_time 60 then (score + (5 # 100))%Q
        else score
    end in
  let pattern_count := Z.of_nat (size (patterns_matched st)) in
  let score :=
    (score + py_min (2 # 10) (inject_Z pattern_count * (5 # 100)))%Q in
  py_max 0 (py_min 1 score).

(** The recency test: [time.time() - stats["last_seen"] > 604800]. *)
Definition stale (now : Q) (st : ServiceStats) : bool :=
  Qltb 604800 (now - last_seen st)%Q.

(** One iteration of the loop of [calculate_threat_scores]. *)
Definition score_step (now : Q) (service : string) (st : ServiceStats)
    (scores : gmap string Q) : gmap string Q :=
  if stale now st then scores else <[service := score_of st]> scores.

(** [calculate_threat_scores()]: the loop writes into the stored
    dictionary [self.threat_scores], which is also what is returned. *)
Definition calculate_threat_scores (now : Q) (s : t) : gmap string Q * t :=
  let scores :=
    map_fold (score_step now) (threat_scores s) (service_stats s) in
  (scores, mk (service_stats s) scores).

(** An entry of the result of [get_high_priority_threats].
    [list(stats["patterns_matched"])] lists a set in an order the code
    does not fix; the entry keeps the set. *)
Record Threat := mkThreat {
  th_service : string;
  th_score : Q;
  th_kill_count : Z;
  th_resurrection_count : Z;
  th_resurrection_speed : Q;
  th_patterns_matched : gset string;
  th_last_seen : Q
}.

(** The loop of [get_high_priority_threats] over [items], the items of
    [threat_scores] in the order of the dictionary.  [None]: a service
    with a score has no statistics, and indexing [service_stats]
    raises [KeyError]. *)
Fixpoint high_priority (threshold : Q) (stats : gmap string ServiceStats)
    (items : list (string * Q)) : option (list Threat) :=
  match items with
  | [] => Some []
  | (service, score) :: items' =>
      if Qleb threshold score then
        match stats !! service with
        | Some st =>
            match high_priority threshold stats items' with
            | Some l =>
                Some (mkThreat service score (kill_count st)
                        (resurrection_count st)
                        (inject_Z (sumZ (resurrection_times st))
                         / inject_Z
                             (Z.max 1
                                (Z.of_nat (length (resurrection_times st)))))%Q
                        (patterns_matched st) (last_seen st) :: l)
            | None => None
            end
        | None => None
        end
      else high_priority threshold stats items'
  end.

(** [get_high_priority_threats(threshold)], given the items of
    [threat_scores] in the order of the dictionary. *)
Definition get_high_priority_threats (threshold : Q)
    (items : list (string * Q)) (s : t) : option (list Threat) :=
  match high_priority threshold (service_stats s) items with
  | Some l => Some (py_sort th_score true l)
  | None => None
  end.

(** The scorers the three methods lead to from a new one. *)
Inductive Reachable : t -> Prop :=
| reach_init : Reachable init
| reach_update now service killed resurrection_time s :
    Reachable s ->
    Reachable (update_service_stats now service killed resurrection_time s)
| reach_match now service pattern s :
    Reachable s -> Reachable (add_pattern_match now service pattern s)
| reach_scores now s :
    Reachable s -> Reachable (snd (calculate_threat_scores now s)).

End ThreatScorer.

(** * Facts about the comparisons *)

Lemma Qltb_lt a b : Qltb a b = true <-> (a < b)%Q.
Proof.
  unfold Qltb. rewrite negb_true_iff. split.
  - intros H. apply Qnot_le_lt. intros Hle.
    apply Qle_bool_iff in Hle. congruence.
  - intros H. destruct (Qle_bool b a) eqn:E; [|reflexivity].
    apply Qle_bool_iff in E. exfalso. exact (Qlt_not_le _ _ H E).
Qed.

Lemma Qltb_ge a b : Qltb a b = false <-> (b <= a)%Q.
Proof.
  unfold Qltb. rewrite negb_false_iff. apply Qle_bool_iff.
Qed.

Lemma Qleb_le a b : Qleb a b = true <-> (a <= b)%Q.
Proof. apply Qle_bool_iff. Qed.

Lemma Qleb_gt a b : Qleb a b = false <-> (b < a)%Q.
Proof.
  unfold Qleb. split.
  - intros H. apply Qnot_le_lt. intros Hle.
    apply Qle_bool_iff in Hle. congruence.
  - intros H. destruct (Qle_bool a b) eqn:E; [|reflexivity].
    apply Qle_bool_iff in E. exfalso. exact (Qlt_not_le _ _ H E).
Qed.

(** The clamp [max(0.0, min(1.0, x))] lands in the unit interval. *)
Lemma clamp_unit x : (0 <= py_max 0 (py_min 1 x) <= 1)%Q.
Proof.
  unfold py_max, py_min.
  destruct (Qltb x 1) eqn:E1.
  - apply Qltb_lt in E1. destruct (Qltb 0 x) eqn:E0.
    + apply Qltb_lt in E0. split; apply Qlt_le_weak; assumption.
    + split; [apply Qle_refl | discriminate].
  - destruct (Qltb 0 1) eqn:E0.
    + split; [discriminate | apply Qle_refl].
    + split; [apply Qle_refl | discriminate].
Qed.

(** * ThreatScorer: proofs *)

Section ThreatScorerFacts.

Import ThreatScorer.

Lemma score_of_unit st : (0 <= score_of st <= 1)%Q.
Proof. unfold score_of. apply clamp_unit. Qed.

(** What the loop of [calculate_threat_scores] leaves under each key. *)
Lemma score_fold_lookup now (stats : gmap string ServiceStats)
    (prev : gmap string Q) service :
  map_fold (score_step now) prev stats !! service =
  match stats !! service with
  | Some st => if stale now st then prev !! service else Some (score_of st)
  | None => prev !! service
  end.
Proof.
  apply (map_fold_weak_ind
    (fun r (m : gmap string ServiceStats) =>
       r !! service =
       match m !! service with
       | Some st =>
           if stale now st then prev !! service else Some (score_of st)
       | None => prev !! service
       end)).
  - rewrite lookup_empty. reflexivity.
  - intros i x m r Hi IH. unfold score_step.
    destruct (decide (i = service)) as [->|Hne].
    + rewrite lookup_insert_eq. rewrite Hi in IH.
      destruct (stale now x); [exact IH | apply lookup_insert_eq].
    + rewrite (lookup_insert_ne m) by exact Hne.
      destruct (stale now x); [exact IH |].
      rewrite lookup_insert_ne by exact Hne. exact IH.
Qed.

End ThreatScorerFacts.

(** C10: for a subject without a stats entry, [add_pattern_match]
    first runs [update_service_stats(service, False)], which creates the
    entry and counts one resurrection although none was observed, and
    only then adds the pattern: the entry ends with kill count 0,
    resurrection count 1, no resurrection times and the one pattern. *)
Theorem add_pattern_match_counts_a_resurrection
    (now : Q) (service pattern : string) (s : ThreatScorer.t) :
  ThreatScorer.service_stats s !! service = None ->
  ThreatScorer.service_stats
    (ThreatScorer.update_service_stats now service false None s) !! service
  = Some (ThreatScorer.mkStats 0 1 [] now now ∅)
  /\ ThreatScorer.add_pattern_match now service pattern s
     = ThreatScorer.mk
         (<[service := ThreatScorer.mkStats 0 1 [] now now {[pattern]}]>
            (ThreatScorer.service_stats
               (ThreatScorer.update_service_stats now service false None s)))
         (ThreatScorer.threat_scores s)
  /\ ThreatScorer.service_stats
       (ThreatScorer.add_pattern_match now service pattern s) !! service
     = Some (ThreatScorer.mkStats 0 1 [] now now {[pattern]}).
Proof.
  intros Hnone.
  assert (Hupd :
    ThreatScorer.service_stats
      (ThreatScorer.update_service_stats now service false None s) !! service
    = Some (ThreatScorer.mkStats 0 1 [] now now ∅)).
  { unfold ThreatScorer.update_service_stats. rewrite Hnone. simpl.
    apply lookup_insert_eq. }
  assert (Hadd :
    ThreatScorer.add_pattern_match now service pattern s
    = ThreatScorer.mk
        (<[service := ThreatScorer.mkStats 0 1 [] now now {[pattern]}]>
           (ThreatScorer.service_stats
              (ThreatScorer.update_service_stats now service false None s)))
        (ThreatScorer.threat_scores s)).
  { unfold ThreatScorer.add_pattern_match. rewrite Hnone, Hupd. simpl.
    rewrite (right_id_L ∅ (∪)). reflexivity. }
  split; [exact Hupd | split; [exact Hadd |]].
  rewrite Hadd. simpl. apply lookup_insert_eq.
Qed.

Lemma add_pattern_match_counts_a_resurrection_witness :
  ThreatScorer.service_stats
    (ThreatScorer.add_pattern_match 7 "svc" ".*Tracking.*" ThreatScorer.init)
    !! "svc"
  = Some (ThreatScorer.mkStats 0 1 [] 7 7 {[".*Tracking.*"]}).
Proof.
  apply (add_pattern_match_counts_a_resurrection 7 "svc" ".*Tracking.*"
           ThreatScorer.init).
  apply lookup_empty.
Defined.

(** What [calculate_threat_scores] returns under each key, and that
    it is what it stores. *)
Lemma calculate_threat_scores_lookup (now : Q) (s : ThreatScorer.t)
    (service : string) :
  fst (ThreatScorer.calculate_threat_scores now s) !! service =
  match ThreatScorer.service_stats s !! service with
  | Some st =>
      if ThreatScorer.stale now st
      then ThreatScorer.threat_scores s !! service
      else Some (ThreatScorer.score_of st)
  | None => ThreatScorer.threat_scores s !! service
  end.
Proof.
  unfold ThreatScorer.calculate_threat_scores. simpl.
  apply score_fold_lookup.
Qed.

Lemma calculate_threat_scores_stored (now : Q) (s : ThreatScorer.t) :
  ThreatScorer.threat_scores
    (snd (ThreatScorer.calculate_threat_scores now s))
  = fst (ThreatScorer.calculate_threat_scores now s).
Proof. reflexivity. Qed.





(** * CountermeasureManager: pruning at every save *)

Lemma expired_iff (now : Q) (c : CountermeasureManager.Countermeasure) :
  CountermeasureManager.expired now c = true <->
  exists e, CountermeasureManager.cm_expires_at c = Some e /\ (e < now)%Q.
Proof.
  unfold CountermeasureManager.expired.
  destruct (CountermeasureManager.cm_expires_at c) as [e|].
  - rewrite Qltb_lt. split.
    + intros H. exists e. split; [reflexivity | exact H].
    + intros (e' & [= <-] & H). exact H.
  - split; [discriminate | intros (e & He & _); discriminate].
Qed.


(** What [_clean_expired_countermeasures] keeps. *)
Lemma clean_keeps (now : Q) (s : CountermeasureManager.t)
    (c : CountermeasureManager.Countermeasure) :
  In c (CountermeasureManager.countermeasures
          (snd (CountermeasureManager._clean_expired_countermeasures now s)))
  <-> In c (CountermeasureManager.countermeasures s)
      /\ CountermeasureManager.expired now c = false
      /\ CountermeasureManager.retry_limit_exceeded c = false.
Proof.
  unfold CountermeasureManager._clean_expired_countermeasures. simpl.
  rewrite filter_In, andb_true_iff, !negb_true_iff. tauto.
Qed.

Lemma clean_length (now : Q) (s : CountermeasureManager.t) :
  (length (CountermeasureManager.countermeasures
             (snd (CountermeasureManager._clean_expired_countermeasures
                     now s)))
   <= length (CountermeasureManager.countermeasures s))%nat.
Proof.
  unfold CountermeasureManager._clean_expired_countermeasures. simpl.
  apply List.filter_length_le.
Qed.

Lemma save_countermeasures (now : Q) (write_ok : bool)
    (s : CountermeasureManager.t) :
  CountermeasureManager.countermeasures
    (snd (CountermeasureManager._save_countermeasures now write_ok s))
  = CountermeasureManager.countermeasures
      (snd (CountermeasureManager._clean_expired_countermeasures now s)).
Proof.
  unfold CountermeasureManager._save_countermeasures.
  destruct write_ok; reflexivity.
Qed.





(** * CountermeasureManager: admission and duplicates *)

Section Admission.

Import CountermeasureManager.

Variable str_float : Q -> string.
Variable md5_hexdigest : string -> string.

Lemma prepare_type cfg now c :
  cm_type (prepare str_float md5_hexdigest cfg now c) = cm_type c.
Proof. destruct c as [i ty sv iv cp ds sv' tt ca ea rc mr tr].
  unfold prepare; simpl. destruct tr, rc, mr, i; reflexivity. Qed.

Lemma prepare_service cfg now c :
  cm_service (prepare str_float md5_hexdigest cfg now c) = cm_service c.
Proof. destruct c as [i ty sv iv cp ds sv' tt ca ea rc mr tr].
  unfold prepare; simpl. destruct tr, rc, mr, i; reflexivity. Qed.

Lemma prepare_interval cfg now c :
  cm_interval (prepare str_float md5_hexdigest cfg now c) = cm_interval c.
Proof. destruct c as [i ty sv iv cp ds sv' tt ca ea rc mr tr].
  unfold prepare; simpl. destruct tr, rc, mr, i; reflexivity. Qed.

Lemma prepare_id cfg now c :
  cm_id (prepare str_float md5_hexdigest cfg now c)
  = Some (default (new_id str_float md5_hexdigest now c) (cm_id c)).
Proof. destruct c as [i ty sv iv cp ds sv' tt ca ea rc mr tr].
  unfold prepare; simpl. destruct tr, rc, mr, i; reflexivity. Qed.

(** The duplicate test answers [True] on the three deduplicated types
    as soon as type, service and, for a preemptive kill, interval
    agree. *)
Lemma is_duplicate_same_key c1 c2 :
  cm_type c1 = cm_type c2 ->
  cm_service c1 = cm_service c2 ->
  (cm_type c1 = Some "preemptive_kill" /\ cm_interval c1 = cm_interval c2)
  \/ cm_type c1 = Some "app_launch_hook"
  \/ cm_type c1 = Some "screen_state_hook" ->
  _is_duplicate_countermeasure c1 c2 = true.
Proof.
  intros Hty Hsv Hkey. unfold _is_duplicate_countermeasure.
  rewrite (bool_decide_eq_true_2 _ Hty), (bool_decide_eq_true_2 _ Hsv).
  simpl. destruct Hkey as [[Hk Hi]|[Hk|Hk]]; rewrite Hk.
  - rewrite (bool_decide_eq_true_2 (Some "preemptive_kill" = _) eq_refl).
    apply bool_decide_eq_true_2. exact Hi.
  - reflexivity.
  - reflexivity.
Qed.

(** The search of [add_countermeasure] finds nothing exactly when no
    stored countermeasure is a duplicate. *)
Lemma update_duplicate_None now ttl c l :
  update_duplicate now ttl c l = None <->
  forall x, In x l -> _is_duplicate_countermeasure x c = false.
Proof.
  induction l as [|e l IH]; simpl.
  - split; [intros _ x [] | reflexivity].
  - destruct (_is_duplicate_countermeasure e c) eqn:E.
    + split.
      * destruct (cm_retry_count e); discriminate.
      * intros H. specialize (H e (or_introl eq_refl)). congruence.
    + destruct (update_duplicate now ttl c l) as [[l'|]|] eqn:U.
      * split; [discriminate |]. intros H.
        assert (X : Some (Some l') = None) by
          (apply IH; intros x Hx; apply H; right; exact Hx).
        discriminate X.
      * split; [discriminate |]. intros H.
        assert (X : Some (@None (list Countermeasure)) = None) by
          (apply IH; intros x Hx; apply H; right; exact Hx).
        discriminate X.
      * split; [| reflexivity]. intros _ x [<-|Hx]; [exact E |].
        apply IH; [reflexivity | exact Hx].
Qed.

(** When it finds one, it is the first duplicate, and only its
    [expires_at] and [retry_count] change. *)
Lemma update_duplicate_Some now ttl c l l' :
  update_duplicate now ttl c l = Some (Some l') ->
  exists pre e post r,
    l = (pre ++ e :: post)%list
    /\ (forall x, In x pre -> _is_duplicate_countermeasure x c = false)
    /\ _is_duplicate_countermeasure e c = true
    /\ cm_retry_count e = Some r
    /\ l' = (pre ++ set_retry_count (Some (r + 1))
                      (set_expires_at (Some (now + ttl)%Q) e) :: post)%list.
Proof.
  revert l'. induction l as [|e l IH]; simpl; intros l'; [discriminate |].
  destruct (_is_duplicate_countermeasure e c) eqn:E.
  - destruct (cm_retry_count e) as [r|] eqn:R; [| discriminate].
    intros [= <-]. exists [], e, l, r. simpl.
    repeat split; try assumption. intros x [].
  - destruct (update_duplicate now ttl c l) as [[l0|]|]; try discriminate.
    intros [= <-].
    destruct (IH l0 eq_refl) as (pre & e0 & post & r & -> & Hpre & He & Hr & ->).
    exists (e :: pre), e0, post, r. simpl.
    repeat split; try assumption.
    intros x [<-|Hx]; [exact E | apply Hpre; exact Hx].
Qed.

Lemma update_duplicate_length now ttl c l l' :
  update_duplicate now ttl c l = Some (Some l') -> length l' = length l.
Proof.
  intros H. apply update_duplicate_Some in H.
  destruct H as (pre & e & post & r & -> & _ & _ & _ & ->).
  rewrite !length_app. reflexivity.
Qed.

(** No stored countermeasure has its identifier changed. *)
Lemma update_duplicate_ids now ttl c l l' :
  update_duplicate now ttl c l = Some (Some l') ->
  map cm_id l' = map cm_id l.
Proof.
  intros H. apply update_duplicate_Some in H.
  destruct H as (pre & e & post & r & -> & _ & _ & _ & ->).
  rewrite !map_app. reflexivity.
Qed.

(** The two ways [add_countermeasure] answers [True]. *)
Lemma add_countermeasure_cases cfg now now_save write_ok c s b s' :
  add_countermeasure str_float md5_hexdigest cfg now now_save write_ok c s
  = Some (b, s') ->
  (b = false /\ s' = s /\ is_empty c = true)
  \/ (is_empty c = false /\ b = true /\
      exists l,
        s' = snd (_save_countermeasures now_save write_ok
                    (set_countermeasures l s))
        /\ (update_duplicate now
              (default (Config.COUNTERMEASURE_TTL cfg) (cm_ttl c))
              (prepare str_float md5_hexdigest cfg now c)
              (countermeasures s) = Some (Some l)
            \/ (update_duplicate now
                  (default (Config.COUNTERMEASURE_TTL cfg) (cm_ttl c))
                  (prepare str_float md5_hexdigest cfg now c)
                  (countermeasures s) = None
                /\ l = (countermeasures s
                        ++ [prepare str_float md5_hexdigest cfg now c])%list))).
Proof.
  unfold add_countermeasure. destruct (is_empty c) eqn:E.
  - intros [= <- <-]. left. auto.
  - destruct (update_duplicate _ _ _ _) as [[l|]|] eqn:U.
    + intros [= <- <-]. right. repeat split. exists l. split; [reflexivity|].
      left. reflexivity.
    + discriminate.
    + intros [= <- <-]. right. repeat split. eexists. split; [reflexivity|].
      right. split; reflexivity.
Qed.

Lemma saved_length now_save write_ok l s :
  (length (countermeasures
             (snd (_save_countermeasures now_save write_ok
                     (set_countermeasures l s))))
   <= length l)%nat.
Proof.
  rewrite save_countermeasures.
  apply (clean_length now_save (set_countermeasures l s)).
Qed.

(** One call adds at most one entry. *)
Lemma add_countermeasure_length cfg now now_save write_ok c s b s' :
  add_countermeasure str_float md5_hexdigest cfg now now_save write_ok c s
  = Some (b, s') ->
  (length (countermeasures s') <= length (countermeasures s) + 1)%nat.
Proof.
  intros H. apply add_countermeasure_cases in H.
  destruct H as [(_ & -> & _)|(_ & _ & l & -> & [U|[_ ->]])].
  - lia.
  - pose proof (saved_length now_save write_ok l s) as Hl.
    apply update_duplicate_length in U. lia.
  - pose proof (saved_length now_save write_ok
                  (countermeasures s
                   ++ [prepare str_float md5_hexdigest cfg now c]) s) as Hl.
    rewrite length_app in Hl. simpl in Hl. exact Hl.
Qed.

Lemma is_empty_type c : is_empty c = true -> cm_type c = None.
Proof.
  destruct c as [i ty sv iv cp ds sv' tt ca ea rc mr tr]. simpl.
  destruct i; [discriminate |]. destruct ty; [discriminate | reflexivity].
Qed.

(** What does hold of two calls: for the types the duplicate test
    covers ([preemptive_kill] with the same interval, [app_launch_hook],
    [screen_state_hook]), two calls of [add_countermeasure] with the
    same type and subject add at most one entry in total; when the
    second call finds a duplicate in the list (the entry of the first
    call is one, if it is still there), it inserts nothing: the first
    duplicate gets [expires_at = now + ttl] and its [retry_count]
    incremented by 1, and the list is then pruned and saved. *)
Theorem add_countermeasure_twice
    cfg now1 save1 w1 now2 save2 w2 cm1 cm2 s b1 s1 b2 s2 :
  cm_type cm1 = cm_type cm2 ->
  cm_service cm1 = cm_service cm2 ->
  (cm_type cm1 = Some "preemptive_kill" /\ cm_interval cm1 = cm_interval cm2)
  \/ cm_type cm1 = Some "app_launch_hook"
  \/ cm_type cm1 = Some "screen_state_hook" ->
  add_countermeasure str_float md5_hexdigest cfg now1 save1 w1 cm1 s
  = Some (b1, s1) ->
  add_countermeasure str_float md5_hexdigest cfg now2 save2 w2 cm2 s1
  = Some (b2, s2) ->
  (length (countermeasures s2) <= length (countermeasures s) + 1)%nat
  /\ (In (prepare str_float md5_hexdigest cfg now1 cm1) (countermeasures s1)
      -> _is_duplicate_countermeasure
           (prepare str_float md5_hexdigest cfg now1 cm1)
           (prepare str_float md5_hexdigest cfg now2 cm2) = true)
  /\ ((exists x, In x (countermeasures s1)
                 /\ _is_duplicate_countermeasure x
                      (prepare str_float md5_hexdigest cfg now2 cm2) = true)
      -> exists pre e post r,
           countermeasures s1 = (pre ++ e :: post)%list
           /\ (forall x, In x pre ->
                 _is_duplicate_countermeasure x
                   (prepare str_float md5_hexdigest cfg now2 cm2) = false)
           /\ _is_duplicate_countermeasure e
                (prepare str_float md5_hexdigest cfg now2 cm2) = true
           /\ cm_retry_count e = Some r
           /\ s2 = snd (_save_countermeasures save2 w2
                          (set_countermeasures
                             (pre ++ set_retry_count (Some (r + 1))
                                       (set_expires_at
                                          (Some (now2
                                                 + default
                                                     (Config.COUNTERMEASURE_TTL
                                                        cfg) (cm_ttl cm2))%Q)
                                          e) :: post)%list s1))).
Proof.
  intros Hty Hsv Hkey H1 H2.
  set (p1 := prepare str_float md5_hexdigest cfg now1 cm1) in *.
  set (p2 := prepare str_float md5_hexdigest cfg now2 cm2) in *.
  assert (Hdup : _is_duplicate_countermeasure p1 p2 = true).
  { unfold p1, p2. apply is_duplicate_same_key.
    - rewrite !prepare_type. exact Hty.
    - rewrite !prepare_service. exact Hsv.
    - rewrite !prepare_type, !prepare_interval. exact Hkey. }
  assert (Hne2 : is_empty cm2 = false).
  { destruct (is_empty cm2) eqn:E; [| reflexivity].
    apply is_empty_type in E. rewrite <- Hty in E.
    destruct Hkey as [[Hk _]|[Hk|Hk]]; congruence. }
  pose proof (add_countermeasure_cases _ _ _ _ _ _ _ _ H2) as C2.
  destruct C2 as [(_ & _ & E)|(_ & _ & l2 & Hs2 & U2)]; [congruence |].
  fold p2 in U2.
  assert (Hfound :
    (exists x, In x (countermeasures s1)
               /\ _is_duplicate_countermeasure x p2 = true) ->
    update_duplicate now2
      (default (Config.COUNTERMEASURE_TTL cfg) (cm_ttl cm2)) p2
      (countermeasures s1) = Some (Some l2)).
  { intros (x & Hx & Hxd). destruct U2 as [U|[U _]]; [exact U |].
    rewrite update_duplicate_None in U. rewrite (U x Hx) in Hxd.
    discriminate. }
  split; [| split].
  - pose proof (add_countermeasure_length _ _ _ _ _ _ _ _ H2) as L2.
    pose proof (add_countermeasure_cases _ _ _ _ _ _ _ _ H1) as C1.
    destruct C1 as [(_ & -> & _)|(_ & _ & l1 & Hs1 & [U1|[_ Hl1]])].
    + exact L2.
    + pose proof (saved_length save1 w1 l1 s) as Hl. rewrite <- Hs1 in Hl.
      apply update_duplicate_length in U1. lia.
    + fold p1 in Hl1.
      destruct (negb (expired save1 p1) && negb (retry_limit_exceeded p1))
        eqn:K.
      * assert (Hin : In p1 (countermeasures s1)).
        { rewrite Hs1, save_countermeasures, clean_keeps. simpl.
          apply andb_true_iff in K. rewrite !negb_true_iff in K.
          rewrite Hl1, in_app_iff. simpl. tauto. }
        specialize (Hfound (ex_intro _ p1 (conj Hin Hdup))).
        apply update_duplicate_length in Hfound.
        pose proof (saved_length save2 w2 l2 s1) as Hl. rewrite <- Hs2 in Hl.
        pose proof (saved_length save1 w1 l1 s) as Hl'. rewrite <- Hs1 in Hl'.
        rewrite Hl1, length_app in Hl'. simpl in Hl'. lia.
      * assert (Hlen : (length (countermeasures s1)
                        <= length (countermeasures s))%nat).
        { rewrite Hs1, save_countermeasures.
          unfold _clean_expired_countermeasures. simpl.
          rewrite Hl1, List.filter_app. simpl. rewrite K, app_nil_r.
          apply List.filter_length_le. }
        lia.
  - intros _. exact Hdup.
  - intros Hex. specialize (Hfound Hex).
    apply update_duplicate_Some in Hfound.
    destruct Hfound as (pre & e & post & r & Hl & Hpre & He & Hr & Hl2).
    exists pre, e, post, r. repeat split; try assumption.
    rewrite Hs2, Hl2. reflexivity.
Qed.

End Admission.

Lemma add_countermeasure_twice_witness :
  let cm :=
    CountermeasureManager.set_id (Some "k1")
      (CountermeasureManager.preemptive_kill_cm Config.defaults "svc" 28
         (5 # 10)) in
  let s := CountermeasureManager.mk [] ∅ ∅ [] in
  let add now s :=
    match CountermeasureManager.add_countermeasure
            (fun _ => "") (fun s => s) Config.defaults now now true cm s with
    | Some (_, s') => s'
    | None => s
    end in
  (length (CountermeasureManager.countermeasures (add 10%Q (add 0%Q s)))
   <= length (CountermeasureManager.countermeasures s) + 1)%nat.
Proof.
  intros cm s add.
  apply (add_countermeasure_twice (fun _ => "") (fun s => s) Config.defaults
           0 0 true 10 10 true cm cm s true (add 0%Q s) true
           (add 10%Q (add 0%Q s))).
  - reflexivity.
  - reflexivity.
  - left. split; reflexivity.
  - vm_compute. reflexivity.
  - vm_compute. reflexivity.
Defined.

(** C4 (the code departs from it): whatever the two library functions
    behind the identifier are, a hook for [svc] added at 0 and again
    at 10 is, for [network_hook], [bluetooth_hook], [usb_hook] and
    [foreground_app_hook], stored twice, both entries with retry count
    0 and the first with the expiry it had; for [app_launch_hook] and
    [screen_state_hook] it is stored once, with retry count 1 and the
    expiry extended to 10 + ttl.  Both calls answer [True] each time. *)
Theorem four_of_the_six_hooks_are_stored_twice
    (str_float : Q -> string) (md5_hexdigest : string -> string) :
  let add :=
    CountermeasureManager.add_countermeasure str_float md5_hexdigest
      Config.defaults in
  let stored hook after :=
    let cm := CountermeasureManager.hook_cm Config.defaults hook "svc" after
                (5 # 10) in
    match add 0%Q 0%Q true cm (CountermeasureManager.mk [] ∅ ∅ []) with
    | Some (true, s1) =>
        match add 10%Q 10%Q true cm s1 with
        | Some (true, s2) =>
            Some (map (fun c => (CountermeasureManager.cm_type c,
                                 CountermeasureManager.cm_retry_count c,
                                 CountermeasureManager.cm_expires_at c))
                    (CountermeasureManager.countermeasures s2))
        | _ => None
        end
    | _ => None
    end in
  let twice hook :=
    Some [(Some hook, Some 0, Some (0 + 86400)%Q);
          (Some hook, Some 0, Some (10 + 86400)%Q)] in
  let once hook := Some [(Some hook, Some 1, Some (10 + 86400)%Q)] in
  stored "network_hook" "network changes" = twice "network_hook"
  /\ stored "bluetooth_hook" "Bluetooth events" = twice "bluetooth_hook"
  /\ stored "usb_hook" "USB events" = twice "usb_hook"
  /\ stored "foreground_app_hook" "foreground app changes"
     = twice "foreground_app_hook"
  /\ stored "app_launch_hook" "app launches" = once "app_launch_hook"
  /\ stored "screen_state_hook" "screen state changes"
     = once "screen_state_hook".
Proof.
  intros add stored twice once.
  split; [vm_compute; reflexivity |].
  split; [vm_compute; reflexivity |].
  split; [vm_compute; reflexivity |].
  split; [vm_compute; reflexivity |].
  split; [vm_compute; reflexivity |].
  vm_compute. reflexivity.
Qed.

(** * CountermeasureManager: escalation *)

Lemma append_cancel_l (p a b : string) : p ++ a = p ++ b -> a = b.
Proof.
  induction p as [|c p IH]; simpl; [auto |].
  intros [= H]. apply IH. exact H.
Qed.

Section Escalation.

Import CountermeasureManager.

Variable str_float : Q -> string.
Variable md5_hexdigest : string -> string.

Lemma escalate_id cfg now c : cm_id (escalate_countermeasure cfg now c) = None.
Proof.
  unfold escalate_countermeasure. simpl.
  destruct (bool_decide (cm_type c = Some "preemptive_kill")); simpl;
    [reflexivity |].
  destruct (cm_type c) as [ty|]; simpl; [| reflexivity].
  destruct (bool_decide (ty ∈ hook_types)); reflexivity.
Qed.

Lemma escalate_service cfg now c :
  cm_service (escalate_countermeasure cfg now c) = cm_service c.
Proof.
  unfold escalate_countermeasure. simpl.
  destruct (bool_decide (cm_type c = Some "preemptive_kill")); simpl;
    [reflexivity |].
  destruct (cm_type c) as [ty|]; simpl; [| reflexivity].
  destruct (bool_decide (ty ∈ hook_types)); reflexivity.
Qed.

(** A hook becomes a combined strategy; every other type is kept. *)
Lemma escalate_type_hook cfg now c ty :
  cm_type c = Some ty -> In ty hook_types ->
  cm_type (escalate_countermeasure cfg now c) = Some "combined_strategy".
Proof.
  intros Hty Hin. unfold escalate_countermeasure. rewrite Hty.
  rewrite bool_decide_eq_false_2.
  2:{ intros [= ->]. simpl in Hin.
      repeat (destruct Hin as [Hin|Hin]; [discriminate Hin |]).
      exact Hin. }
  rewrite bool_decide_eq_true_2 by (apply list_elem_of_In; exact Hin).
  reflexivity.
Qed.

Lemma escalate_type_other cfg now c :
  (forall ty, cm_type c = Some ty -> ~ In ty hook_types) ->
  cm_type (escalate_countermeasure cfg now c) = cm_type c.
Proof.
  intros Hno. unfold escalate_countermeasure. simpl.
  destruct (bool_decide (cm_type c = Some "preemptive_kill")); simpl;
    [reflexivity |].
  destruct (cm_type c) as [ty|] eqn:E; simpl; [| exact E].
  rewrite bool_decide_eq_false_2; [exact E |].
  rewrite list_elem_of_In. apply Hno. reflexivity.
Qed.

Lemma is_empty_severity c : is_empty c = true -> cm_severity c = None.
Proof.
  destruct c as [i ty sv iv cp ds sv' tt ca ea rc mr tr]. simpl.
  destruct i; [discriminate |]. destruct ty; [discriminate |].
  destruct sv; [discriminate |]. destruct iv; [discriminate |].
  destruct cp; [discriminate |]. destruct ds; [discriminate |].
  destruct sv'; [discriminate | reflexivity].
Qed.

Lemma escalate_not_empty cfg now c :
  is_empty (escalate_countermeasure cfg now c) = false.
Proof.
  destruct (is_empty (escalate_countermeasure cfg now c)) eqn:E;
    [| reflexivity].
  apply is_empty_severity in E. discriminate E.
Qed.

(** C7 (as amended): [escalate_countermeasure] returns a copy without
    identifier, for which [add_countermeasure] mints
    [<type>_<subject>_<first 8 hex digits of the digest of
    type_subject_now>].  Against an original identifier minted the same
    way, the new one differs whenever the type changed (the six hook
    types become [combined_strategy]); for an unchanged type it is the
    same identifier exactly when the two digests agree.  Admission
    changes the identifier of no stored countermeasure: before pruning,
    the list has the identifiers it had, or those and the new one. *)
Theorem escalation_mints_an_identifier
    (cfg : Config.t) (now now' : Q) (original : Countermeasure) :
  let escalated := escalate_countermeasure cfg now original in
  let admitted := prepare str_float md5_hexdigest cfg now' escalated in
  cm_id escalated = None
  /\ cm_id admitted
     = Some (new_id str_float md5_hexdigest now' escalated)
  /\ (forall ty now0,
        cm_type original = Some ty -> In ty hook_types ->
        cm_id original
        = Some (new_id str_float md5_hexdigest now0 original) ->
        cm_id admitted <> cm_id original)
  /\ (forall now0,
        (forall ty, cm_type original = Some ty -> ~ In ty hook_types) ->
        cm_id original
        = Some (new_id str_float md5_hexdigest now0 original) ->
        (cm_id admitted = cm_id original <->
         substring 0 8
           (md5_hexdigest
              (default "unknown" (cm_type original) ++ "_"
               ++ default "global" (cm_service original) ++ "_"
               ++ str_float now'))
         = substring 0 8
             (md5_hexdigest
                (default "unknown" (cm_type original) ++ "_"
                 ++ default "global" (cm_service original) ++ "_"
                 ++ str_float now0))))
  /\ (forall now_save write_ok s b s',
        add_countermeasure str_float md5_hexdigest cfg now' now_save write_ok
          escalated s = Some (b, s') ->
        exists l,
          countermeasures s'
          = countermeasures
              (snd (_clean_expired_countermeasures now_save
                      (set_countermeasures l s)))
          /\ (map cm_id l = map cm_id (countermeasures s)
              \/ l = (countermeasures s ++ [admitted])%list)).
Proof.
  intros escalated admitted.
  assert (Hnone : cm_id escalated = None) by apply escalate_id.
  assert (Hid : cm_id admitted
                = Some (new_id str_float md5_hexdigest now' escalated)).
  { unfold admitted. rewrite prepare_id, Hnone. reflexivity. }
  split; [exact Hnone |]. split; [exact Hid |]. split; [| split].
  - intros ty now0 Hty Hin Horig. rewrite Hid, Horig.
    unfold new_id, escalated.
    rewrite (escalate_type_hook cfg now original ty Hty Hin), Hty.
    simpl in Hin.
    repeat (destruct Hin as [<-|Hin]; [simpl; discriminate |]).
    destruct Hin.
  - intros now0 Hother Horig. rewrite Hid, Horig.
    unfold new_id, escalated.
    rewrite (escalate_type_other cfg now original Hother), escalate_service.
    split.
    + intros [= H].
      repeat (apply append_cancel_l in H). exact H.
    + intros H. rewrite H. reflexivity.
  - intros now_save write_ok s b s' Hadd.
    apply add_countermeasure_cases in Hadd.
    destruct Hadd as [(_ & _ & E)|(_ & _ & l & -> & [U|[_ ->]])].
    + unfold escalated in E. rewrite escalate_not_empty in E. discriminate E.
    + exists l. rewrite save_countermeasures. split; [reflexivity |].
      left. apply update_duplicate_ids in U. exact U.
    + eexists. rewrite save_countermeasures. split; [reflexivity |].
      right. reflexivity.
Qed.

End Escalation.

(** An original admitted on the clock reading [100] and its escalation
    admitted on the same reading: both are stored, under one
    identifier, whatever the two library functions are. *)
Lemma escalation_on_the_same_reading
    (str_float : Q -> string) (md5_hexdigest : string -> string) :
  let add := CountermeasureManager.add_countermeasure str_float md5_hexdigest
               Config.defaults 100 100 true in
  let original :=
    CountermeasureManager.prepare str_float md5_hexdigest Config.defaults 100
      (CountermeasureManager.preemptive_kill_cm Config.defaults "svc" 30
         (5 # 10)) in
  let escalated :=
    CountermeasureManager.escalate_countermeasure Config.defaults 100
      original in
  let admitted :=
    CountermeasureManager.prepare str_float md5_hexdigest Config.defaults 100
      escalated in
  let s0 := CountermeasureManager.mk [] ∅ ∅ [] in
  let s1 := CountermeasureManager.mk [original] ∅ ∅ [original] in
  let s2 :=
    CountermeasureManager.mk [original; admitted] ∅ ∅ [original; admitted] in
  add (CountermeasureManager.preemptive_kill_cm Config.defaults "svc" 30
         (5 # 10)) s0 = Some (true, s1)
  /\ add escalated s1 = Some (true, s2)
  /\ CountermeasureManager.cm_id admitted
     = CountermeasureManager.cm_id original.
Proof.
  intros add original escalated admitted s0 s1 s2.
  split; [| split].
  - vm_compute. reflexivity.
  - vm_compute. reflexivity.
  - vm_compute. reflexivity.
Qed.

(** C7, the claim as written fails: no choice of the two library
    functions makes the identifier of an escalation differ from the
    original's when both are admitted on the same clock reading. *)
Lemma escalation_can_repeat_the_identifier :
  ~ (exists (str_float : Q -> string) (md5_hexdigest : string -> string),
       let original :=
         CountermeasureManager.prepare str_float md5_hexdigest
           Config.defaults 100
           (CountermeasureManager.preemptive_kill_cm Config.defaults "svc" 30
              (5 # 10)) in
       let admitted :=
         CountermeasureManager.prepare str_float md5_hexdigest
           Config.defaults 100
           (CountermeasureManager.escalate_countermeasure Config.defaults 100
              original) in
       CountermeasureManager.cm_id admitted
       <> CountermeasureManager.cm_id original).
Proof.
  intros (str_float & md5_hexdigest & H). apply H.
  apply (escalation_on_the_same_reading str_float md5_hexdigest).
Qed.

(** * CountermeasureManager: effectiveness *)

(** [_calculate_effectiveness] looks [created_at] up in the tracking
    dictionary, where no code puts it, and falls back on the clock: on
    a clock that does not run backwards the time active is never
    positive and the answer is 1, whatever the counters. *)
Lemma calculate_effectiveness_is_one
    (now1 now2 : Q) (tracking : CountermeasureManager.Tracking) :
  CountermeasureManager.tracking_created_at tracking = None ->
  (CountermeasureManager.last_checked tracking <= now1)%Q ->
  (CountermeasureManager._calculate_effectiveness now1 now2 tracking == 1)%Q.
Proof.
  intros Hnone Hle. unfold CountermeasureManager._calculate_effectiveness.
  rewrite Hnone. simpl.
  assert (Hactive :
    Qltb 0 (CountermeasureManager.last_checked tracking - now1) = false).
  { apply Qltb_ge. lra. }
  rewrite Hactive.
  set (before := Z.max 1 (CountermeasureManager.resurrections_before tracking)).
  assert (Hpos : (0 < inject_Z before / (3600 / 3600))%Q).
  { assert (Hb : (0 < inject_Z before)%Q).
    { change 0%Q with (inject_Z 0). rewrite <- Zlt_Qlt. unfold before. lia. }
    apply Qlt_shift_div_l; [reflexivity | lra]. }
  apply Qltb_lt in Hpos. rewrite Hpos.
  set (r := (1 - 0 / (inject_Z before / (3600 / 3600)))%Q).
  assert (Hr : (r == 1)%Q).
  { unfold r. unfold Qdiv at 1. rewrite Qmult_0_l. reflexivity. }
  unfold py_max, py_min.
  assert (H1 : Qltb r 1 = false) by (apply Qltb_ge; rewrite Hr; apply Qle_refl).
  rewrite H1. reflexivity.
Qed.

(** C2 (the code departs from it): a preemptive kill is admitted at
    time 0; the subject resurrects at 1800 s, which sets the baseline
    to 1, and again at 3600 s, one resurrection in the hour since the
    countermeasure was created, the baseline rate.  The claim's formula
    gives effectiveness 0 there, as [_calculate_effectiveness] itself
    does once [created_at] is in the tracking dictionary; but the
    manager stores effectiveness 1 and [get_ineffective_countermeasures]
    returns nothing, so nothing is escalated. *)
Theorem unchanged_rate_is_scored_fully_effective
    (str_float : Q -> string) (md5_hexdigest : string -> string) :
  let cm :=
    CountermeasureManager.set_id (Some "k1")
      (CountermeasureManager.preemptive_kill_cm Config.defaults "svc" 28
         (5 # 10)) in
  let s0 := CountermeasureManager.mk [] ∅ ∅ [] in
  let s1 :=
    match CountermeasureManager.add_countermeasure str_float md5_hexdigest
            Config.defaults 0 0 true cm s0 with
    | Some (_, s) => s
    | None => s0
    end in
  let s2 := CountermeasureManager.update_effectiveness 1800 1800 "svc" false
              s1 in
  let s3 := CountermeasureManager.update_effectiveness 3600 3600 "svc" false
              s2 in
  map CountermeasureManager.cm_created_at
    (CountermeasureManager.countermeasures s3) = [Some 0%Q]
  /\ map CountermeasureManager.cm_tracking
       (CountermeasureManager.countermeasures s3)
     = [Some (CountermeasureManager.mkTracking 1 1 3600 None)]
  /\ (exists m,
        CountermeasureManager.metrics_countermeasures s3 !! "k1" = Some m
        /\ (CountermeasureManager.effectiveness m == 1)%Q)
  /\ CountermeasureManager.get_ineffective_countermeasures Config.defaults
       3600 3600 None s3 = []
  /\ (CountermeasureManager._calculate_effectiveness 3600 3600
        (CountermeasureManager.mkTracking 1 1 3600 (Some 0%Q)) == 0)%Q.
Proof.
  intros cm s0 s1 s2 s3.
  split; [vm_compute; reflexivity |].
  split; [vm_compute; reflexivity |].
  split.
  { eexists. split; [vm_compute; reflexivity | vm_compute; reflexivity]. }
  split; [vm_compute; reflexivity |].
  vm_compute. reflexivity.
Qed.

(** * Sorting *)

Section Sorting.

Context {A : Type}.
Variable lt : A -> A -> bool.
Variable R : A -> A -> Prop.

(** [R] is the order [lt] decides: whichever way a comparison goes,
    the two elements are in order one way round. *)
Hypothesis lt_true : forall a b, lt a b = true -> R a b.
Hypothesis lt_false : forall a b, lt a b = false -> R b a.

Lemma insert_sorted_perm x l : Permutation (insert_sorted lt x l) (x :: l).
Proof.
  induction l as [|y l IH]; simpl; [reflexivity |].
  destruct (lt y x); [| reflexivity].
  rewrite IH. apply perm_swap.
Qed.

Lemma insert_sorted_hd x y l :
  R y x -> HdRel R y l -> HdRel R y (insert_sorted lt x l).
Proof.
  intros Hyx Hhd. destruct l as [|z l]; simpl.
  - constructor. exact Hyx.
  - destruct (lt z x); constructor; [| exact Hyx].
    inversion Hhd; assumption.
Qed.

Lemma insert_sorted_sorted x l :
  Sorted R l -> Sorted R (insert_sorted lt x l).
Proof.
  induction l as [|y l IH]; simpl; intros Hs.
  - repeat constructor.
  - inversion Hs as [|? ? Hl Hhd]; subst.
    destruct (lt y x) eqn:E.
    + constructor; [apply IH; exact Hl |].
      apply insert_sorted_hd; [apply lt_true; exact E | exact Hhd].
    + constructor; [exact Hs |]. constructor. apply lt_false. exact E.
Qed.

Lemma fold_insert_perm l :
  Permutation (fold_right (insert_sorted lt) [] l) l.
Proof.
  induction l as [|x l IH]; simpl; [reflexivity |].
  rewrite insert_sorted_perm, IH. reflexivity.
Qed.

Lemma fold_insert_sorted l : Sorted R (fold_right (insert_sorted lt) [] l).
Proof.
  induction l as [|x l IH]; simpl; [constructor |].
  apply insert_sorted_sorted. exact IH.
Qed.

End Sorting.

Lemma py_sort_perm {A} (key : A -> Q) (reverse : bool) (l : list A) :
  Permutation (py_sort key reverse l) l.
Proof. unfold py_sort. apply fold_insert_perm. Qed.

(** [sort(key=...)] leaves the keys in ascending order. *)
Lemma py_sort_ascending {A} (key : A -> Q) (l : list A) :
  StronglySorted (fun a b => (key a <= key b)%Q) (py_sort key false l).
Proof.
  apply Sorted_StronglySorted.
  - intros a b c Hab Hbc. exact (Qle_trans _ _ _ Hab Hbc).
  - unfold py_sort. apply fold_insert_sorted.
    + intros a b H. apply Qltb_lt in H. apply Qlt_le_weak. exact H.
    + intros a b H. apply Qltb_ge in H. exact H.
Qed.

(** [sort(key=..., reverse=True)] leaves them in descending order. *)
Lemma py_sort_descending {A} (key : A -> Q) (l : list A) :
  StronglySorted (fun a b => (key b <= key a)%Q) (py_sort key true l).
Proof.
  apply Sorted_StronglySorted.
  - intros a b c Hab Hbc. exact (Qle_trans _ _ _ Hbc Hab).
  - unfold py_sort. apply fold_insert_sorted.
    + intros a b H. apply Qltb_lt in H. apply Qlt_le_weak. exact H.
    + intros a b H. apply Qltb_ge in H. exact H.
Qed.

(** * Facts about the rounded subtraction *)

Lemma round_half_even_le (n d k : Z) :
  0 < d -> n <= k * d -> round_half_even n d <= k.
Proof.
  intros Hd Hn. unfold round_half_even.
  pose proof (Z.div_mod n d ltac:(lia)) as Hdm.
  pose proof (Z.mod_pos_bound n d Hd) as Hr.
  set (q := n / d) in *. set (r := n mod d) in *.
  assert (Hq : q < k \/ (q = k /\ r = 0)) by nia.
  destruct (Z.ltb_spec (2 * r) d); [lia |].
  destruct (Z.ltb_spec d (2 * r)); [lia |].
  destruct (Z.even q); lia.
Qed.

Lemma round_half_even_nonneg (n d : Z) :
  0 < d -> 0 <= n -> 0 <= round_half_even n d.
Proof.
  intros Hd Hn. unfold round_half_even.
  assert (Hq : 0 <= n / d) by (apply Z.div_pos; lia).
  destruct (2 * (n mod d) <? d); [exact Hq |].
  destruct (d <? 2 * (n mod d)); [lia |].
  destruct (Z.even (n / d)); lia.
Qed.

Lemma double_exponent_negative (n d k : Z) :
  0 < n -> 0 < d -> n <= k * d -> k <= 2 ^ 51 ->
  double_exponent n d < 0.
Proof.
  intros Hn Hd Hle Hk. unfold double_exponent.
  assert (Hlog : Z.log2 n <= 51 + Z.log2 d).
  { rewrite <- (Z.log2_mul_pow2 d 51) by lia.
    apply Z.log2_le_mono. nia. }
  set (e := Z.log2 n - Z.log2 d - 52).
  assert (He : e < 0) by (unfold e; lia).
  destruct (if 0 <=? e then _ else _); lia.
Qed.

(** Rounding keeps a difference within a window of whole seconds: the
    bound is a double itself. *)
Lemma round_double_within (x : Q) (k : Z) :
  0 <= k <= 2 ^ 51 ->
  (Qabs x <= inject_Z k)%Q -> (Qabs (round_double x) <= inject_Z k)%Q.
Proof.
  intros Hk Hx. destruct x as [n0 dp]. unfold round_double.
  cbn [Qnum Qden].
  assert (Hn : Z.abs n0 <= k * Z.pos dp).
  { unfold Qle in Hx. cbn in Hx. lia. }
  destruct (Z.eqb_spec (Z.abs n0) 0) as [_|Hne].
  { unfold Qle. cbn. lia. }
  pose proof (double_exponent_negative (Z.abs n0) (Z.pos dp) k
                ltac:(lia) ltac:(lia) Hn ltac:(lia)) as He.
  set (e := double_exponent (Z.abs n0) (Z.pos dp)) in *.
  rewrite (proj2 (Z.leb_gt 0 e) He).
  assert (Hpow : 0 < 2 ^ (- e)) by (apply Z.pow_pos_nonneg; lia).
  set (m := round_half_even (Z.abs n0 * 2 ^ (- e)) (Z.pos dp)).
  assert (Hm0 : 0 <= m).
  { apply round_half_even_nonneg; [lia | nia]. }
  assert (Hmk : m <= k * 2 ^ (- e)).
  { apply round_half_even_le; [lia | nia]. }
  unfold Qle. cbn [Qabs Qnum Qden inject_Z].
  rewrite Z2Pos.id by exact Hpow.
  assert (Habs : Z.abs (Z.sgn n0 * m) = m).
  { clearbody m e. destruct n0 as [|p|p]; cbn [Z.sgn]; [| lia | lia].
    exfalso. apply Hne. reflexivity. }
  rewrite Habs. lia.
Qed.

(** * TriggerAnalyzer: correlation *)

Section Correlation.

Import TriggerAnalyzer.

(** One loop appends, in order, the triggers of the events within the
    window. *)
Lemma scan_triggers ty service t events acc :
  fst (scan ty service t events acc)
  = (fst acc
     ++ map (trigger_of ty service t)
          (List.filter (within_window t) events))%list.
Proof.
  unfold scan. revert acc.
  induction events as [|e events IH]; intros acc.
  - cbn [fold_left List.filter map]. rewrite List.app_nil_r. reflexivity.
  - cbn [fold_left List.filter]. rewrite IH.
    change (Qleb (Qabs (float_sub t (timestamp e))) time_window)
      with (within_window t e).
    destruct (within_window t e); cbn [fst map].
    + rewrite <- List.app_assoc. reflexivity.
    + reflexivity.
Qed.

(** The triggers before sorting: those of the six loops, in order. *)
Lemma check_resurrection_triggers_perm service t s :
  Permutation (fst (check_resurrection_triggers service t s))
    (flat_map
       (fun w => map (trigger_of (fst w) service t)
                   (List.filter (within_window t) (snd w)))
       (windows s)).
Proof.
  unfold check_resurrection_triggers. cbn [fst].
  rewrite py_sort_perm, !scan_triggers.
  unfold windows. cbn [flat_map fst snd app].
  rewrite List.app_nil_r, <- !List.app_assoc. reflexivity.
Qed.

(** C9 (as amended): for every event of any of the six windows,
    [check_resurrection_triggers(service, t)] returns the trigger of
    that event if and only if the difference between [t] and the
    event's timestamp, as the float subtraction gives it, is at most 5
    in absolute value.  An event whose timestamp is at most 5 seconds
    from [t] therefore always yields its trigger, and where the
    subtraction is exact the test is the one on the exact difference.
    Nothing else is returned (the result is a rearrangement of the
    triggers of the events that pass the test), and the result is in
    ascending order of time difference. *)
Theorem check_resurrection_triggers_spec
    (service : string) (t : Q) (s : TriggerAnalyzer.t) :
  let triggers := fst (check_resurrection_triggers service t s) in
  (forall ty events e,
     In (ty, events) (windows s) -> In e events ->
     (In (trigger_of ty service t e) triggers
      <-> (Qabs (float_sub t (timestamp e)) <= 5)%Q)
     /\ ((Qabs (t - timestamp e) <= 5)%Q ->
         In (trigger_of ty service t e) triggers)
     /\ ((float_sub t (timestamp e) == t - timestamp e)%Q ->
         (In (trigger_of ty service t e) triggers
          <-> (Qabs (t - timestamp e) <= 5)%Q)))
  /\ Permutation triggers
       (flat_map
          (fun w => map (trigger_of (fst w) service t)
                      (List.filter (within_window t) (snd w)))
          (windows s))
  /\ StronglySorted (fun a b => (time_diff a <= time_diff b)%Q) triggers.
Proof.
  intros triggers.
  pose proof (check_resurrection_triggers_perm service t s) as Hperm.
  fold triggers in Hperm.
  split; [| split; [exact Hperm |]].
  - intros ty events e Hw He.
    assert (Hiff : In (trigger_of ty service t e) triggers
                   <-> (Qabs (float_sub t (timestamp e)) <= 5)%Q).
    { split.
      - intros Hin. apply (Permutation_in _ Hperm) in Hin.
        apply in_flat_map in Hin. destruct Hin as ([ty' events'] & _ & Hin).
        simpl in Hin. apply in_map_iff in Hin.
        destruct Hin as (e' & Heq & Hin).
        apply filter_In in Hin. destruct Hin as [_ Hwin].
        unfold within_window in Hwin. apply Qleb_le in Hwin.
        apply (f_equal time_diff) in Heq. unfold trigger_of in Heq.
        cbn [time_diff] in Heq. rewrite <- Heq. exact Hwin.
      - intros Hle. apply (Permutation_in _ (Permutation_sym Hperm)).
        apply in_flat_map. exists (ty, events). split; [exact Hw |].
        simpl. apply in_map. apply filter_In. split; [exact He |].
        unfold within_window. apply Qleb_le. exact Hle. }
    split; [exact Hiff |]. split.
    + intros Hle. apply Hiff. unfold float_sub.
      apply (round_double_within (t - timestamp e) 5); [lia | exact Hle].
    + intros Hexact. rewrite Hiff, Hexact. reflexivity.
  - unfold triggers, check_resurrection_triggers. cbn [fst].
    apply py_sort_ascending.
Qed.

End Correlation.

(** C9, the claim as written fails: 5.2 and 0.2 stand for the doubles
    nearest to them, which are 5 + 3/2^54 apart.  Their difference as
    floats is 5.0, so a resurrection at the one finds the screen state
    change recorded at the other, although the two are more than 5
    seconds apart. *)
Lemma rounded_difference_reaches_beyond_the_window :
  ~ (let t := (5854679515581645 # 1125899906842624)%Q in
     let e := TriggerAnalyzer.mkEvent
                (3602879701896397 # 18014398509481984)%Q
                [("state", "awake")] in
     let s := TriggerAnalyzer.record_event "screen_state"
                (TriggerAnalyzer.timestamp e) (TriggerAnalyzer.details e)
                TriggerAnalyzer.init in
     In (TriggerAnalyzer.trigger_of "screen_state_change" "svc" t e)
        (fst (TriggerAnalyzer.check_resurrection_triggers "svc" t s))
     <-> (Qabs (t - TriggerAnalyzer.timestamp e) <= 5)%Q).
Proof.
  intros [H _].
  assert (Hin :
    In (TriggerAnalyzer.trigger_of "screen_state_change" "svc"
          (5854679515581645 # 1125899906842624)%Q
          (TriggerAnalyzer.mkEvent (3602879701896397 # 18014398509481984)%Q
             [("state", "awake")]))
       (fst (TriggerAnalyzer.check_resurrection_triggers "svc"
               (5854679515581645 # 1125899906842624)%Q
               (TriggerAnalyzer.record_event "screen_state"
                  (3602879701896397 # 18014398509481984)%Q
                  [("state", "awake")] TriggerAnalyzer.init)))).
  { vm_compute. left. reflexivity. }
  apply H in Hin. vm_compute in Hin. apply Hin. reflexivity.
Qed.

(** The two cases of the specification: a screen state change 2 s
    before the resurrection gives a [screen_state_change] trigger, one
    recorded 10 s after it gives none. *)
Lemma screen_state_change_two_and_ten_seconds_away :
  map TriggerAnalyzer.tr_type
    (fst (TriggerAnalyzer.check_resurrection_triggers "svc" 102
            (TriggerAnalyzer.record_event "screen_state" 100
               [("state", "awake")] TriggerAnalyzer.init)))
  = ["screen_state_change"]
  /\ fst (TriggerAnalyzer.check_resurrection_triggers "svc" 102
            (TriggerAnalyzer.record_event "screen_state" 112
               [("state", "awake")] TriggerAnalyzer.init))
     = [].
Proof. split; vm_compute; reflexivity. Qed.

(** * TriggerAnalyzer: strong correlations *)

Lemma append_String_assoc (p a : string) (c : ascii) (b : string) :
  p ++ (a ++ String c b) = (p ++ a) ++ String c b.
Proof.
  induction p as [|d p IH]; [reflexivity |].
  change (String d (p ++ (a ++ String c b))
          = String d ((p ++ a) ++ String c b)).
  f_equal. exact IH.
Qed.

(** [rsplit] cuts at the last separator: what follows it holds none. *)
Lemma rsplit1_last (sep : ascii) (p b : string) :
  rsplit1 sep b = None ->
  rsplit1 sep (p ++ String sep b) = Some (p, b).
Proof.
  intros Hb. induction p as [|c p IH]; simpl.
  - rewrite Hb, Ascii.eqb_refl. reflexivity.
  - rewrite IH. reflexivity.
Qed.

(** Every key [check_resurrection_triggers] counts under is
    [<service>_<trigger type>], and each of the six trigger types holds
    an underscore itself: [get_strong_correlations] splits the key
    inside the trigger type, whatever the service. *)
Lemma rsplit1_trigger_keys (service : string) :
  rsplit1 "_" (service ++ "_" ++ "screen_state_change")
  = Some (service ++ "_screen_state", "change")
  /\ rsplit1 "_" (service ++ "_" ++ "network_change")
     = Some (service ++ "_network", "change")
  /\ rsplit1 "_" (service ++ "_" ++ "usb_event")
     = Some (service ++ "_usb", "event")
  /\ rsplit1 "_" (service ++ "_" ++ "bluetooth_event")
     = Some (service ++ "_bluetooth", "event")
  /\ rsplit1 "_" (service ++ "_" ++ "app_launch")
     = Some (service ++ "_app", "launch")
  /\ rsplit1 "_" (service ++ "_" ++ "foreground_app_change")
     = Some (service ++ "_foreground_app", "change").
Proof.
  repeat apply conj.
  - change (rsplit1 "_" (service ++ ("_screen_state" ++ String "_" "change"))
            = Some (service ++ "_screen_state", "change")).
    rewrite (append_String_assoc service "_screen_state" "_" "change").
    apply rsplit1_last. reflexivity.
  - change (rsplit1 "_" (service ++ ("_network" ++ String "_" "change"))
            = Some (service ++ "_network", "change")).
    rewrite (append_String_assoc service "_network" "_" "change").
    apply rsplit1_last. reflexivity.
  - change (rsplit1 "_" (service ++ ("_usb" ++ String "_" "event"))
            = Some (service ++ "_usb", "event")).
    rewrite (append_String_assoc service "_usb" "_" "event").
    apply rsplit1_last. reflexivity.
  - change (rsplit1 "_" (service ++ ("_bluetooth" ++ String "_" "event"))
            = Some (service ++ "_bluetooth", "event")).
    rewrite (append_String_assoc service "_bluetooth" "_" "event").
    apply rsplit1_last. reflexivity.
  - change (rsplit1 "_" (service ++ ("_app" ++ String "_" "launch"))
            = Some (service ++ "_app", "launch")).
    rewrite (append_String_assoc service "_app" "_" "launch").
    apply rsplit1_last. reflexivity.
  - change (rsplit1 "_" (service ++ ("_foreground_app" ++ String "_" "change"))
            = Some (service ++ "_foreground_app", "change")).
    rewrite (append_String_assoc service "_foreground_app" "_" "change").
    apply rsplit1_last. reflexivity.
Qed.

(** C1 (the code departs from it): a screen state change is recorded
    at time 100 and the subject [svc] resurrects at 101, 102 and 103,
    so the counter of [svc] and [screen_state_change] stands at 3.
    [get_strong_correlations(3)] returns one entry for it, with count 3
    and confidence 3/10, but under the subject [svc_screen_state] and
    the trigger type [change]. *)
Theorem strong_correlation_has_the_key_split_wrongly :
  let s0 := TriggerAnalyzer.record_event "screen_state" 100
              [("state", "awake")] TriggerAnalyzer.init in
  let s1 := snd (TriggerAnalyzer.check_resurrection_triggers "svc" 101 s0) in
  let s2 := snd (TriggerAnalyzer.check_resurrection_triggers "svc" 102 s1) in
  let s3 := snd (TriggerAnalyzer.check_resurrection_triggers "svc" 103 s2) in
  map TriggerAnalyzer.tr_type
    (fst (TriggerAnalyzer.check_resurrection_triggers "svc" 103 s2))
  = ["screen_state_change"]
  /\ TriggerAnalyzer.trigger_correlations s3
     = [("svc_screen_state_change", 3)]
  /\ TriggerAnalyzer.get_strong_correlations 3 s3
     = Some [TriggerAnalyzer.mkCorrelation "svc_screen_state" "change" 3
               (3 # 10)].
Proof.
  intros s0 s1 s2 s3.
  split; [vm_compute; reflexivity |].
  split; [vm_compute; reflexivity |].
  vm_compute. reflexivity.
Qed.

(** * TriggerAnalyzer: what holds of the strong correlations *)

(** One entry per counter that reached [min_count], in the order of
    the counters, with the count and the confidence [min(1, count/10)]. *)
Lemma strong_entries_counts (min_count : Z) (items : list (string * Z))
    (l : list TriggerAnalyzer.Correlation) :
  TriggerAnalyzer.strong_entries min_count items = Some l ->
  map (fun c => (TriggerAnalyzer.count c, TriggerAnalyzer.confidence c)) l
  = map (fun kv => (snd kv, py_min 1 (inject_Z (snd kv) / 10)))
      (List.filter (fun kv => min_count <=? snd kv) items).
Proof.
  revert l. induction items as [|[key n] items IH]; intros l.
  - intros [= <-]. reflexivity.
  - cbn [TriggerAnalyzer.strong_entries List.filter snd].
    destruct (min_count <=? n); [| apply IH].
    destruct (rsplit1 "_" key) as [[service ty]|]; [| discriminate].
    destruct (TriggerAnalyzer.strong_entries min_count items) as [l0|];
      [| discriminate].
    intros [= <-]. cbn [map TriggerAnalyzer.count TriggerAnalyzer.confidence snd].
    f_equal. apply IH. reflexivity.
Qed.

(** The result of [get_strong_correlations] is a rearrangement of
    those entries, in descending order of confidence. *)
Lemma get_strong_correlations_sorted (min_count : Z) (s : TriggerAnalyzer.t)
    (l : list TriggerAnalyzer.Correlation) :
  TriggerAnalyzer.get_strong_correlations min_count s = Some l ->
  StronglySorted
    (fun a b => (TriggerAnalyzer.confidence b <= TriggerAnalyzer.confidence a)%Q)
    l
  /\ Permutation
       (map (fun c => (TriggerAnalyzer.count c, TriggerAnalyzer.confidence c))
          l)
       (map (fun kv => (snd kv, py_min 1 (inject_Z (snd kv) / 10)))
          (List.filter (fun kv => min_count <=? snd kv)
             (TriggerAnalyzer.trigger_correlations s))).
Proof.
  unfold TriggerAnalyzer.get_strong_correlations.
  destruct (TriggerAnalyzer.strong_entries min_count
              (TriggerAnalyzer.trigger_correlations s)) as [l0|] eqn:E;
    [| discriminate].
  intros [= <-]. split; [apply py_sort_descending |].
  rewrite <- (strong_entries_counts _ _ _ E).
  apply Permutation_map. apply py_sort_perm.
Qed.

(** * PatternManager: admission *)

(** What [add_patterns] does check: an admitted pattern has a core of
    the minimal length and passes the test of [_is_too_similar] against
    every pattern that was stored when the call began. *)
Lemma add_patterns_checks_against_stored
    (cfg : Config.t) (new_patterns : list string) (s : PatternManager.t)
    (p q : string) :
  In p (PatternManager.unique_patterns cfg new_patterns s) ->
  In q (PatternManager.patterns s) ->
  p <> q
  /\ (Config.MIN_PATTERN_LENGTH cfg
      <= String.length (PatternManager.core p))%nat
  /\ PatternManager.too_similar_to cfg (PatternManager.core p) q = false.
Proof.
  unfold PatternManager.unique_patterns. intros Hp Hq.
  apply filter_In in Hp. destruct Hp as [_ Hp].
  apply andb_true_iff in Hp. destruct Hp as [Hnew Hsim].
  apply negb_true_iff in Hnew, Hsim.
  apply bool_decide_eq_false in Hnew.
  unfold PatternManager._is_too_similar in Hsim.
  destruct (String.length (PatternManager.core p)
            <? Config.MIN_PATTERN_LENGTH cfg)%nat eqn:L; [discriminate |].
  apply Nat.ltb_ge in L.
  split; [| split; [exact L |]].
  - intros ->. apply Hnew. apply list_elem_of_In. exact Hq.
  - destruct (PatternManager.too_similar_to cfg (PatternManager.core p) q)
      eqn:E; [| reflexivity].
    assert (X : existsb (PatternManager.too_similar_to cfg
                           (PatternManager.core p))
                  (PatternManager.patterns s) = true).
    { apply existsb_exists. exists q. split; [exact Hq | exact E]. }
    congruence.
Qed.

(** C3 (the code departs from it): the default pattern list satisfies
    the invariant; [add_patterns] is given two candidates in one call,
    the second core a substring of the first and their similarity 8/9,
    above the threshold 0.75.  Both are admitted, because candidates
    are compared with the stored list only and not with each other,
    and the list no longer satisfies the invariant. *)
Theorem add_patterns_admits_similar_candidates_of_one_batch :
  let s := PatternManager.mk PatternManager.default_services
             PatternManager.default_patterns 1 []
             PatternManager.default_patterns in
  let s' := snd (PatternManager.add_patterns Config.defaults true
                   [".*Telemetry.*"; ".*Telemetr.*"] s) in
  spec_store_invariant Config.defaults (PatternManager.patterns s) = true
  /\ PatternManager.patterns s'
     = (PatternManager.default_patterns
        ++ [".*Telemetry.*"; ".*Telemetr.*"])%list
  /\ is_substring (PatternManager.core ".*Telemetr.*")
       (PatternManager.core ".*Telemetry.*") = true
  /\ Qltb (Config.PATTERN_SIMILARITY_THRESHOLD Config.defaults)
       (PatternManager.similarity (PatternManager.core ".*Telemetr.*")
          (PatternManager.core ".*Telemetry.*")) = true
  /\ spec_store_invariant Config.defaults (PatternManager.patterns s') = false.
Proof.
  intros s s'.
  split; [vm_compute; reflexivity |].
  split; [vm_compute; reflexivity |].
  split; [vm_compute; reflexivity |].
  split; [vm_compute; reflexivity |].
  vm_compute. reflexivity.
Qed.

(** Not even equal candidates are told apart: a pattern given twice
    in one call is stored twice. *)
Lemma add_patterns_admits_a_pattern_twice :
  let s := PatternManager.mk PatternManager.default_services
             PatternManager.default_patterns 1 []
             PatternManager.default_patterns in
  PatternManager.patterns
    (snd (PatternManager.add_patterns Config.defaults true
            [".*Telemetry.*"; ".*Telemetry.*"] s))
  = (PatternManager.default_patterns
     ++ [".*Telemetry.*"; ".*Telemetry.*"])%list.
Proof. vm_compute. reflexivity. Qed.

(** The same through the engine's own path: the candidates mined from
    three service names are all admitted in one call, 66 of them,
    among them [.*Tele.*] and [.*Telem.*]. *)
Lemma mined_candidates_are_all_admitted :
  let s := PatternManager.mk PatternManager.default_services
             PatternManager.default_patterns 1 []
             PatternManager.default_patterns in
  let candidates :=
    PatternManager.generate_patterns_from_services Config.defaults
      ["FooTelemetryAgent"; "BarTelemetryAgent"; "BazUploader"] in
  let s' := snd (PatternManager.add_patterns Config.defaults true
                   candidates s) in
  length candidates = 66%nat
  /\ fst (PatternManager.add_patterns Config.defaults true candidates s) = 66
  /\ existsb (String.eqb ".*Tele.*") (PatternManager.patterns s') = true
  /\ existsb (String.eqb ".*Telem.*") (PatternManager.patterns s') = true
  /\ spec_store_invariant Config.defaults (PatternManager.patterns s') = false.
Proof.
  intros s candidates s'.
  split; [vm_compute; reflexivity |].
  split; [vm_compute; reflexivity |].
  split; [vm_compute; reflexivity |].
  split; [vm_compute; reflexivity |].
  vm_compute. reflexivity.
Qed.

(** * PatternManager: mining *)

Lemma substring_length (s : string) :
  forall i n, (i + n <= String.length s)%nat ->
              String.length (String.substring i n s) = n.
Proof.
  induction s as [|c s IH]; intros i n H; simpl in H.
  - assert (i = 0%nat) by lia. assert (n = 0%nat) by lia. subst. reflexivity.
  - destruct i as [|i].
    + destruct n as [|n]; [reflexivity |].
      simpl. f_equal. apply IH. lia.
    + simpl. apply IH. lia.
Qed.

(** Every n-gram taken from a service is shorter than
    [MAX_PATTERN_LENGTH]: the bound of the [range] is exclusive. *)
Lemma ngrams_of_length (cfg : Config.t) (service g : string) :
  In g (PatternManager.ngrams_of cfg service) ->
  (Config.MIN_PATTERN_LENGTH cfg <= String.length g
   < Config.MAX_PATTERN_LENGTH cfg)%nat.
Proof.
  unfold PatternManager.ngrams_of.
  destruct (String.length service <? Config.MIN_PATTERN_LENGTH cfg)%nat;
    [intros [] |].
  intros H. apply in_flat_map in H. destruct H as (n & Hn & H).
  apply in_flat_map in H. destruct H as (i & Hi & H).
  unfold range in Hn, Hi. apply in_seq in Hn, Hi.
  destruct (negb (has_letter (String.substring i n service))
            || isdigit (String.substring i n service)); [destruct H |].
  destruct H as [<-|[]].
  rewrite substring_length by lia. lia.
Qed.

Lemma incr_keys (key k : string) (d : list (string * Z)) :
  In k (map fst (incr key d)) -> k = key \/ In k (map fst d).
Proof.
  induction d as [|[k0 v] d IH]; simpl.
  - intros [<-|[]]. left. reflexivity.
  - destruct (String.eqb k0 key); simpl.
    + tauto.
    + intros [H|H]; [tauto |]. apply IH in H. tauto.
Qed.

Lemma Counter_keys (l : list string) (k : string) :
  In k (map fst (Counter l)) -> In k l.
Proof.
  unfold Counter.
  assert (G : forall acc,
    In k (map fst (fold_left (fun d k => incr k d) l acc)) ->
    In k l \/ In k (map fst acc)).
  { induction l as [|x l IH]; intros acc; simpl; [tauto |].
    intros H. apply IH in H. destruct H as [H|H]; [tauto |].
    apply incr_keys in H. destruct H as [->|H]; tauto. }
  intros H. apply G in H. destruct H as [H|[]]. exact H.
Qed.

(** No candidate comes from an n-gram of [MAX_PATTERN_LENGTH]
    characters, whatever the services. *)
Lemma generated_ngrams_are_shorter_than_max
    (cfg : Config.t) (services : list string) (p : string) :
  In p (PatternManager.generate_patterns_from_services cfg services) ->
  exists g, p = ".*" ++ re_escape g ++ ".*"
            /\ (Config.MIN_PATTERN_LENGTH cfg <= String.length g
                < Config.MAX_PATTERN_LENGTH cfg)%nat.
Proof.
  unfold PatternManager.generate_patterns_from_services.
  destruct (length services <? 2)%nat; [intros [] |].
  intros H. apply in_map_iff in H. destruct H as (g & <- & H).
  exists g. split; [reflexivity |].
  apply in_map_iff in H. destruct H as ([g' v] & Hg & H). simpl in Hg.
  subst g'. apply filter_In in H. destruct H as [H _].
  assert (Hk : In g (map fst (Counter
                 (flat_map (PatternManager.ngrams_of cfg) services)))).
  { apply in_map_iff. exists (g, v). split; [reflexivity | exact H]. }
  apply Counter_keys in Hk. apply in_flat_map in Hk.
  destruct Hk as (service & _ & Hk).
  exact (ngrams_of_length cfg service g Hk).
Qed.

(** C8 (the code departs from it): [abcd] occurs in one subject only,
    twice, yet it is counted twice and becomes a candidate; and the
    20-character n-gram shared by two subjects, of the maximal length
    the claim admits, gives no candidate. *)
Theorem generate_patterns_counts_occurrences_and_stops_at_19 :
  PatternManager.generate_patterns_from_services Config.defaults
    ["abcdabcd"; "wxyz"] = [".*abcd.*"]
  /\ is_substring "abcd" "wxyz" = false
  /\ String.length "abcdefghijklmnopqrst" = 20%nat
  /\ forallb (is_substring "abcdefghijklmnopqrst")
       ["abcdefghijklmnopqrstX"; "abcdefghijklmnopqrstY"] = true
  /\ existsb (String.eqb ".*abcdefghijklmnopqrst.*")
       (PatternManager.generate_patterns_from_services Config.defaults
          ["abcdefghijklmnopqrstX"; "abcdefghijklmnopqrstY"]) = false.
Proof.
  split; [vm_compute; reflexivity |].
  split; [vm_compute; reflexivity |].
  split; [reflexivity |].
  split; [vm_compute; reflexivity |].
  vm_compute. reflexivity.
Qed.

(** * Further properties: the event windows *)

Lemma last_n_length {A} (n : nat) (l : list A) :
  length (last_n n l) = Nat.min n (length l).
Proof. unfold last_n. rewrite length_skipn. lia. Qed.

Lemma last_n_suffix {A} (n : nat) (l : list A) :
  exists evicted, l = (evicted ++ last_n n l)%list
                  /\ length evicted = (length l - n)%nat.
Proof.
  exists (firstn (length l - n) l). unfold last_n. split.
  - symmetry. apply firstn_skipn.
  - rewrite length_firstn. lia.
Qed.

Lemma last_n_snoc {A} (n : nat) (l : list A) (x : A) :
  (0 < n)%nat -> exists l', last_n n (l ++ [x]) = (l' ++ [x])%list.
Proof.
  intros Hn. unfold last_n. rewrite length_app. simpl.
  assert (Hk : (length l + 1 - n <= length l)%nat) by lia.
  rewrite skipn_app.
  replace (length l + 1 - n - length l)%nat with 0%nat by lia.
  simpl. eexists. reflexivity.
Qed.

(** X1: [record_event] under one of the six event types puts the
    event last in the list of that type and keeps the 20 most recent
    entries in their order, dropping the oldest; the other five lists
    and the counters are left as they were.  Under any other event
    type nothing is recorded. *)
Theorem record_event_window
    (event_type : string) (timestamp : Q) (details : list (string * string))
    (s : TriggerAnalyzer.t) :
  let s' := TriggerAnalyzer.record_event event_type timestamp details s in
  let event := TriggerAnalyzer.mkEvent timestamp details in
  TriggerAnalyzer.trigger_correlations s'
  = TriggerAnalyzer.trigger_correlations s
  /\ (forall name proj,
        In (name, proj) TriggerAnalyzer.event_lists ->
        if String.eqb event_type name then
          proj s' = last_n 20 (proj s ++ [event])
          /\ length (proj s') = Nat.min 20 (S (length (proj s)))
          /\ (exists kept, proj s' = (kept ++ [event])%list)
          /\ (exists evicted,
                (proj s ++ [event])%list = (evicted ++ proj s')%list
                /\ length evicted = (length (proj s) + 1 - 20)%nat)
        else proj s' = proj s)
  /\ ((forall name proj,
         In (name, proj) TriggerAnalyzer.event_lists -> event_type <> name) ->
      s' = s).
Proof.
  intros s' event.
  assert (Hpush : forall l : list TriggerAnalyzer.Event,
    length (last_n 20 (l ++ [event])) = Nat.min 20 (S (length l))
    /\ (exists kept, last_n 20 (l ++ [event]) = (kept ++ [event])%list)
    /\ (exists evicted,
          (l ++ [event])%list = (evicted ++ last_n 20 (l ++ [event]))%list
          /\ length evicted = (length l + 1 - 20)%nat)).
  { intros l. split; [| split].
    - rewrite last_n_length, length_app. cbn [length]. lia.
    - apply last_n_snoc. lia.
    - destruct (last_n_suffix 20 (l ++ [event])) as (ev & H1 & H2).
      exists ev. split; [exact H1 |]. rewrite H2, length_app. reflexivity. }
  unfold s', TriggerAnalyzer.record_event. fold event.
  split; [| split].
  - repeat (destruct (String.eqb event_type _); [reflexivity |]).
    reflexivity.
  - intros name proj Hin. unfold TriggerAnalyzer.event_lists in Hin.
    simpl in Hin.
    destruct Hin as [H|[H|[H|[H|[H|[H|[]]]]]]]; injection H as <- <-;
      destruct (String.eqb_spec event_type "screen_state") as [->|H1];
      try (cbn; first [ split; [reflexivity | apply Hpush] | reflexivity ]);
      destruct (String.eqb_spec event_type "network") as [->|H2];
      try (cbn; first [ split; [reflexivity | apply Hpush] | reflexivity ]);
      destruct (String.eqb_spec event_type "usb") as [->|H3];
      try (cbn; first [ split; [reflexivity | apply Hpush] | reflexivity ]);
      destruct (String.eqb_spec event_type "bluetooth") as [->|H4];
      try (cbn; first [ split; [reflexivity | apply Hpush] | reflexivity ]);
      destruct (String.eqb_spec event_type "app_launch") as [->|H5];
      try (cbn; first [ split; [reflexivity | apply Hpush] | reflexivity ]);
      destruct (String.eqb_spec event_type "foreground_app") as [->|H6];
      try (cbn; first [ split; [reflexivity | apply Hpush] | reflexivity ]).
  - intros Hnot.
    assert (Hne : forall name proj,
      In (name, proj) TriggerAnalyzer.event_lists ->
      String.eqb event_type name = false).
    { intros name proj Hin. apply String.eqb_neq. exact (Hnot name proj Hin). }
    unfold TriggerAnalyzer.event_lists in Hne.
    rewrite (Hne "screen_state" _ (or_introl eq_refl)).
    rewrite (Hne "network" _ (or_intror (or_introl eq_refl))).
    rewrite (Hne "usb" _ (or_intror (or_intror (or_introl eq_refl)))).
    rewrite (Hne "bluetooth" _
               (or_intror (or_intror (or_intror (or_introl eq_refl))))).
    rewrite (Hne "app_launch" _
               (or_intror (or_intror (or_intror (or_intror
                  (or_introl eq_refl)))))).
    rewrite (Hne "foreground_app" _
               (or_intror (or_intror (or_intror (or_intror (or_intror
                  (or_introl eq_refl))))))).
    reflexivity.
Qed.

(** * Further properties: the threat scorer *)

Section ScorerInvariant.

Import ThreatScorer.

(** What holds of every entry of [service_stats]. *)
Let stats_ok (st : ServiceStats) : Prop :=
  0 <= kill_count st
  /\ Z.of_nat (length (resurrection_times st)) <= resurrection_count st
  /\ (length (resurrection_times st) <= 20)%nat.

Lemma fresh_stats_ok now : stats_ok (fresh_stats now).
Proof. unfold stats_ok. simpl. lia. Qed.

Lemma update_service_stats_lookup now service killed rt s other :
  other <> service ->
  service_stats (update_service_stats now service killed rt s) !! other
  = service_stats s !! other.
Proof.
  intros Hne. unfold update_service_stats. simpl.
  apply lookup_insert_ne. congruence.
Qed.

Lemma update_service_stats_ok now service killed rt s :
  (forall k st, service_stats s !! k = Some st -> stats_ok st) ->
  forall k st,
    service_stats (update_service_stats now service killed rt s) !! k
    = Some st ->
    stats_ok st.
Proof.
  intros Hinv k st.
  destruct (decide (k = service)) as [->|Hne].
  2:{ rewrite update_service_stats_lookup by exact Hne. apply Hinv. }
  unfold update_service_stats. cbn [service_stats].
  rewrite lookup_insert_eq. intros [= <-].
  assert (Hold : stats_ok (match service_stats s !! service with
                           | Some st => st
                           | None => fresh_stats now
                           end)).
  { destruct (service_stats s !! service) as [st|] eqn:E;
      [exact (Hinv _ _ E) | apply fresh_stats_ok]. }
  destruct (match service_stats s !! service with
            | Some st => st
            | None => fresh_stats now
            end) as [kc rc times fs ls pm].
  unfold stats_ok in *.
  cbn [kill_count resurrection_count resurrection_times] in Hold.
  destruct killed;
    cbn [kill_count resurrection_count resurrection_times first_seen
         last_seen patterns_matched].
  - lia.
  - destruct rt as [r|]; [| lia].
    rewrite last_n_length, length_app. cbn [length]. lia.
Qed.

Lemma add_pattern_match_ok now service pattern s :
  (forall k st, service_stats s !! k = Some st -> stats_ok st) ->
  forall k st,
    service_stats (add_pattern_match now service pattern s) !! k = Some st ->
    stats_ok st.
Proof.
  intros Hinv. unfold add_pattern_match.
  set (s1 := match service_stats s !! service with
             | Some _ => s
             | None => update_service_stats now service false None s
             end).
  assert (H1 : forall k st, service_stats s1 !! k = Some st -> stats_ok st).
  { unfold s1. destruct (service_stats s !! service);
      [exact Hinv | apply update_service_stats_ok; exact Hinv]. }
  destruct (service_stats s1 !! service) as [st1|] eqn:E; [| exact H1].
  intros k st. cbn [service_stats].
  destruct (decide (service = k)) as [<-|Hne].
  - rewrite lookup_insert_eq. intros [= <-].
    exact (H1 _ _ E).
  - rewrite lookup_insert_ne by exact Hne. apply H1.
Qed.

(** The score before the clamp is at least the base score. *)
Lemma score_of_at_least_half st :
  0 <= resurrection_count st -> (1 # 2 <= score_of st)%Q.
Proof.
  intros Hrc. unfold score_of.
  set (ratio := (inject_Z (resurrection_count st)
                 / inject_Z (kill_count st))%Q).
  set (bonus1 := py_min (3 # 10) (ratio * (1 # 10))).
  set (count := (inject_Z (sumZ (resurrection_times st))
                 / inject_Z (Z.of_nat (length (resurrection_times st))))%Q).
  set (bonus3 := py_min (2 # 10)
                   (inject_Z (Z.of_nat (size (patterns_matched st)))
                    * (5 # 100))).
  assert (H3 : (0 <= bonus3)%Q).
  { unfold bonus3, py_min.
    assert (Hp : (0 <= inject_Z (Z.of_nat (size (patterns_matched st))))%Q).
    { change 0%Q with (inject_Z 0). rewrite <- Zle_Qle. lia. }
    destruct (Qltb _ _); [| lra].
    apply Qmult_le_0_compat; [exact Hp | lra]. }
  assert (H1 : 0 < kill_count st -> (0 <= bonus1)%Q).
  { intros Hk. unfold bonus1, py_min.
    assert (Hr : (0 <= ratio)%Q).
    { unfold ratio. apply Qle_shift_div_l.
      - change 0%Q with (inject_Z 0). rewrite <- Zlt_Qlt. exact Hk.
      - rewrite Qmult_0_l. change 0%Q with (inject_Z 0).
        rewrite <- Zle_Qle. exact Hrc. }
    destruct (Qltb _ _); [| lra].
    apply Qmult_le_0_compat; [exact Hr | lra]. }
  set (s1 := if 0 <? kill_count st then ((5 # 10) + bonus1)%Q
             else (5 # 10)%Q).
  assert (Hs1 : (1 # 2 <= s1)%Q).
  { unfold s1. destruct (0 <? kill_count st) eqn:K.
    - apply Z.ltb_lt in K. specialize (H1 K). lra.
    - lra. }
  set (s2 := match resurrection_times st with
             | [] => s1
             | _ :: _ =>
                 if Qltb count 10 then (s1 + (15 # 100))%Q
                 else if Qltb count 30 then (s1 + (1 # 10))%Q
                 else if Qltb count 60 then (s1 + (5 # 100))%Q
                 else s1
             end).
  assert (Hs2 : (1 # 2 <= s2)%Q).
  { unfold s2. destruct (resurrection_times st); [exact Hs1 |].
    destruct (Qltb count 10); [lra |].
    destruct (Qltb count 30); [lra |].
    destruct (Qltb count 60); lra. }
  change (1 # 2 <= py_max 0 (py_min 1 (s2 + bonus3)))%Q.
  unfold py_max, py_min.
  destruct (Qltb (s2 + bonus3) 1) eqn:E1.
  - destruct (Qltb 0 (s2 + bonus3)) eqn:E0; [lra |].
    apply Qltb_ge in E0. lra.
  - destruct (Qltb 0 1) eqn:E0; [lra |]. discriminate E0.
Qed.

(** The entries of [service_stats] of a reachable scorer. *)
Lemma reachable_stats_ok (s : ThreatScorer.t) :
  Reachable s ->
  forall service st,
    service_stats s !! service = Some st -> stats_ok st.
Proof.
  intros H. change (forall service st,
    service_stats s !! service = Some st -> stats_ok st).
  induction H as [|now service killed rt s _ IH|now service pattern s _ IH
                  |now s _ IH].
  - intros service st. cbn. rewrite lookup_empty. discriminate.
  - apply update_service_stats_ok. exact IH.
  - apply add_pattern_match_ok. exact IH.
  - exact IH.
Qed.

(** X2: on every scorer reached from a new one by
    [update_service_stats], [add_pattern_match] and
    [calculate_threat_scores], each subject's kill count is not
    negative, its history of resurrection times has at most 20 entries
    and never more entries than resurrections were counted. *)
Theorem reachable_stats_bounded (s : ThreatScorer.t) :
  Reachable s ->
  forall service st,
    service_stats s !! service = Some st ->
    0 <= kill_count st
    /\ Z.of_nat (length (resurrection_times st)) <= resurrection_count st
    /\ (length (resurrection_times st) <= 20)%nat.
Proof. exact (reachable_stats_ok s). Qed.

(** The scores a reachable scorer has stored. *)
Lemma reachable_stored_scores (s : ThreatScorer.t) :
  Reachable s ->
  forall service x,
    threat_scores s !! service = Some x ->
    (1 # 2 <= x <= 1)%Q /\ is_Some (service_stats s !! service).
Proof.
  intros H.
  induction H as [|now' service killed rt s H IH|now' service pattern s H IH
                  |now' s H IH].
  - intros service x. cbn. rewrite lookup_empty. discriminate.
  - intros k x Hk. cbn [threat_scores update_service_stats] in Hk.
    destruct (IH k x Hk) as [Hx Hsome]. split; [exact Hx |].
    unfold update_service_stats. cbn [service_stats].
    destruct (decide (service = k)) as [<-|Hne].
    + rewrite lookup_insert_eq. eauto.
    + rewrite lookup_insert_ne by exact Hne. exact Hsome.
  - intros k x Hk.
    assert (Hsc : threat_scores (add_pattern_match now' service pattern s)
                  = threat_scores s).
    { unfold add_pattern_match.
      destruct (service_stats s !! service); cbn.
      - destruct (service_stats s !! service); reflexivity.
      - rewrite lookup_insert_eq. reflexivity. }
    rewrite Hsc in Hk. destruct (IH k x Hk) as [Hx Hsome].
    split; [exact Hx |].
    unfold add_pattern_match.
    set (s1 := match service_stats s !! service with
               | Some _ => s
               | None => update_service_stats now' service false None s
               end).
    assert (H1 : is_Some (service_stats s1 !! k)).
    { unfold s1. destruct (service_stats s !! service); [exact Hsome |].
      unfold update_service_stats. cbn [service_stats].
      destruct (decide (service = k)) as [<-|Hne].
      + rewrite lookup_insert_eq. eauto.
      + rewrite lookup_insert_ne by exact Hne. exact Hsome. }
    destruct (service_stats s1 !! service) as [st1|]; [| exact H1].
    cbn [service_stats].
    destruct (decide (service = k)) as [<-|Hne].
    + rewrite lookup_insert_eq. eauto.
    + rewrite lookup_insert_ne by exact Hne. exact H1.
  - intros k x. rewrite calculate_threat_scores_stored.
    rewrite calculate_threat_scores_lookup.
    change (service_stats (snd (calculate_threat_scores now' s)))
      with (service_stats s).
    destruct (service_stats s !! k) as [st|] eqn:E.
    + destruct (stale now' st).
      * intros Hk. destruct (IH k x Hk) as [Hx _].
        split; [exact Hx | eauto].
      * intros [= <-]. split; [| eauto]. split.
        -- apply score_of_at_least_half.
           destruct (reachable_stats_ok s H k st E) as (? & ? & ?). lia.
        -- apply score_of_unit.
    + intros Hk. destruct (IH k x Hk) as [Hx Hs]. rewrite E in Hs.
      split; [exact Hx | exact Hs].
Qed.

(** X3: on such a scorer every score [calculate_threat_scores] returns
    lies between the base score 0.5 and 1, and belongs to a subject
    that has statistics. *)
Theorem reachable_scores_between_half_and_one
    (s : ThreatScorer.t) (now : Q) :
  Reachable s ->
  forall service x,
    fst (calculate_threat_scores now s) !! service = Some x ->
    (1 # 2 <= x <= 1)%Q /\ is_Some (service_stats s !! service).
Proof.
  intros H.
  pose proof (reachable_stored_scores s H) as Hstored.
  intros service x. rewrite calculate_threat_scores_lookup.
  destruct (service_stats s !! service) as [st|] eqn:E.
  - destruct (stale now st).
    + intros Hk. destruct (Hstored service x Hk) as [Hx _].
      split; [exact Hx | eauto].
    + intros [= <-]. split; [| eauto]. split.
      * apply score_of_at_least_half.
        destruct (reachable_stats_ok s H service st E) as (? & ? & ?). lia.
      * apply score_of_unit.
  - intros Hk. destruct (Hstored service x Hk) as [Hx Hs]. rewrite E in Hs.
    split; [exact Hx | exact Hs].
Qed.

End ScorerInvariant.

Lemma reachable_stats_bounded_witness :
  0 <= ThreatScorer.kill_count (ThreatScorer.mkStats 0 1 [30%Z] 5 5 ∅)
  /\ Z.of_nat
       (length (ThreatScorer.resurrection_times
                  (ThreatScorer.mkStats 0 1 [30%Z] 5 5 ∅)))
     <= ThreatScorer.resurrection_count (ThreatScorer.mkStats 0 1 [30%Z] 5 5 ∅)
  /\ (length (ThreatScorer.resurrection_times
                (ThreatScorer.mkStats 0 1 [30%Z] 5 5 ∅)) <= 20)%nat.
Proof.
  apply (reachable_stats_bounded
           (ThreatScorer.update_service_stats 5 "svc" false (Some 30)
              ThreatScorer.init)
           (ThreatScorer.reach_update 5 "svc" false (Some 30)
              ThreatScorer.init ThreatScorer.reach_init)
           "svc" (ThreatScorer.mkStats 0 1 [30%Z] 5 5 ∅)).
  apply lookup_insert_eq.
Defined.

Lemma reachable_scores_between_half_and_one_witness :
  (1 # 2 <= ThreatScorer.score_of (ThreatScorer.mkStats 1 0 [] 5 5 ∅) <= 1)%Q.
Proof.
  apply (reachable_scores_between_half_and_one
           (ThreatScorer.update_service_stats 5 "svc" true None
              ThreatScorer.init)
           10
           (ThreatScorer.reach_update 5 "svc" true None ThreatScorer.init
              ThreatScorer.reach_init)
           "svc"
           (ThreatScorer.score_of (ThreatScorer.mkStats 1 0 [] 5 5 ∅))).
  rewrite calculate_threat_scores_lookup.
  unfold ThreatScorer.update_service_stats.
  cbn [ThreatScorer.service_stats]. rewrite lookup_insert_eq.
  reflexivity.
Defined.

(** * Further properties: admission of patterns *)

Lemma filter_none {A} (f : A -> bool) (l : list A) :
  (forall x, In x l -> f x = false) -> List.filter f l = [].
Proof.
  induction l as [|x l IH]; intros H; [reflexivity |].
  cbn [List.filter]. rewrite (H x (or_introl eq_refl)).
  apply IH. intros y Hy. apply H. right. exact Hy.
Qed.

Section AdmissionOfPatterns.

Import PatternManager.

Lemma is_too_similar_grows cfg p s s' :
  (forall q, In q (patterns s) -> In q (patterns s')) ->
  _is_too_similar cfg p s = true -> _is_too_similar cfg p s' = true.
Proof.
  intros Hsub. unfold _is_too_similar.
  destruct (String.length (core p) <? Config.MIN_PATTERN_LENGTH cfg)%nat;
    [reflexivity |].
  rewrite !existsb_exists. intros (q & Hq & H). exists q. auto.
Qed.

Lemma add_patterns_patterns cfg w new s :
  patterns (snd (add_patterns cfg w new s))
  = (patterns s ++ unique_patterns cfg new s)%list.
Proof.
  unfold add_patterns. destruct new as [|p new].
  - cbn. rewrite List.app_nil_r. reflexivity.
  - destruct (unique_patterns cfg (p :: new) s) eqn:E; cbn [snd patterns].
    + reflexivity.
    + unfold _save_patterns. destruct w; reflexivity.
Qed.

(** X4: a second call of [add_patterns] with the same candidates
    admits nothing and leaves the manager as the first call left it:
    what the first call admitted is now stored, and what it turned down
    is turned down again. *)
Theorem add_patterns_repeated
    (cfg : Config.t) (w1 w2 : bool) (new_patterns : list string)
    (s : PatternManager.t) :
  add_patterns cfg w2 new_patterns (snd (add_patterns cfg w1 new_patterns s))
  = (0, snd (add_patterns cfg w1 new_patterns s)).
Proof.
  set (s1 := snd (add_patterns cfg w1 new_patterns s)).
  assert (Hpat : patterns s1
                 = (patterns s ++ unique_patterns cfg new_patterns s)%list)
    by apply add_patterns_patterns.
  assert (Hnone : unique_patterns cfg new_patterns s1 = []).
  { unfold unique_patterns at 1. apply filter_none.
    intros p Hp. apply andb_false_iff.
    destruct (bool_decide (p ∈ patterns s1)) eqn:B; [left; reflexivity |].
    right. apply negb_false_iff.
    apply bool_decide_eq_false in B.
    assert (Hs : ~ In p (patterns s)).
    { intros H. apply B. apply list_elem_of_In. rewrite Hpat.
      apply in_or_app. left. exact H. }
    assert (Hu : ~ In p (unique_patterns cfg new_patterns s)).
    { intros H. apply B. apply list_elem_of_In. rewrite Hpat.
      apply in_or_app. right. exact H. }
    apply (is_too_similar_grows cfg p s s1).
    - intros q Hq. rewrite Hpat. apply in_or_app. left. exact Hq.
    - destruct (_is_too_similar cfg p s) eqn:T; [reflexivity |].
      exfalso. apply Hu. unfold unique_patterns. apply filter_In.
      split; [exact Hp |]. rewrite T.
      rewrite bool_decide_eq_false_2; [reflexivity |].
      rewrite list_elem_of_In. exact Hs. }
  unfold add_patterns at 1. destruct new_patterns as [|p l]; [reflexivity |].
  rewrite Hnone. cbn [length Z.of_nat]. f_equal.
  destruct s1 as [sv pt vs pc pf]. cbn. rewrite List.app_nil_r. reflexivity.
Qed.

(** X5: [add_patterns] only appends: the stored patterns stay where
    they were, what follows them are candidates of this call, in their
    order, none of which was stored; the number returned is the number
    appended; the services are untouched; and when nothing is admitted
    nothing changes, neither version, cache nor file. *)
Theorem add_patterns_appends
    (cfg : Config.t) (write_ok : bool) (new_patterns : list string)
    (s : PatternManager.t) :
  let r := add_patterns cfg write_ok new_patterns s in
  exists admitted,
    patterns (snd r) = (patterns s ++ admitted)%list
    /\ fst r = Z.of_nat (length admitted)
    /\ admitted = unique_patterns cfg new_patterns s
    /\ (forall p, In p admitted -> In p new_patterns /\ ~ In p (patterns s))
    /\ services (snd r) = services s
    /\ (admitted = [] -> snd r = s)
    /\ (admitted <> [] ->
        version (snd r) = version s + 1
        /\ pattern_cache (snd r) = []
        /\ pattern_file (snd r)
           = if write_ok then patterns (snd r) else pattern_file s).
Proof.
  intros r. exists (unique_patterns cfg new_patterns s).
  split; [apply add_patterns_patterns |].
  assert (Hin : forall p, In p (unique_patterns cfg new_patterns s) ->
                In p new_patterns /\ ~ In p (patterns s)).
  { intros p Hp. unfold unique_patterns in Hp. apply filter_In in Hp.
    destruct Hp as [Hp Hc]. split; [exact Hp |].
    apply andb_true_iff in Hc. destruct Hc as [Hc _].
    apply negb_true_iff, bool_decide_eq_false in Hc.
    rewrite list_elem_of_In in Hc. exact Hc. }
  unfold r, add_patterns. destruct new_patterns as [|p l].
  - cbn. repeat split; try reflexivity; try tauto.
    all: intros H; exfalso; apply H; reflexivity.
  - destruct (unique_patterns cfg (p :: l) s) as [|u us] eqn:E.
    + cbn [fst snd length Z.of_nat services].
      split; [reflexivity |]. split; [reflexivity |].
      split; [exact Hin |]. split; [reflexivity |]. split.
      * intros _. destruct s as [sv pt vs pc pf]. cbn.
        rewrite List.app_nil_r. reflexivity.
      * intros H. exfalso. apply H. reflexivity.
    + split; [reflexivity |]. split; [reflexivity |].
      split; [exact Hin |].
      unfold _save_patterns. destruct write_ok; cbn.
      * repeat split; try reflexivity. intros H. discriminate H.
      * repeat split; try reflexivity. intros H. discriminate H.
Qed.

End AdmissionOfPatterns.

(** * Further properties: mining of candidates *)

(** ** Counting *)

Lemma counter_incr (key k : string) (d : list (string * Z)) :
  counter k (incr key d)
  = if String.eqb key k then counter k d + 1 else counter k d.
Proof.
  induction d as [|[k0 v] d IH]; cbn [incr counter].
  - destruct (String.eqb key k); reflexivity.
  - destruct (String.eqb_spec k0 key) as [->|Hne]; cbn [counter].
    + destruct (String.eqb key k); reflexivity.
    + destruct (String.eqb_spec k0 k) as [->|Hk].
      * rewrite (proj2 (String.eqb_neq key k)) by congruence. reflexivity.
      * exact IH.
Qed.

Lemma incr_keys_NoDup (key : string) (d : list (string * Z)) :
  List.NoDup (map fst d) -> List.NoDup (map fst (incr key d)).
Proof.
  induction d as [|[k0 v] d IH]; cbn [incr map fst]; intros H.
  - constructor; [intros [] | constructor].
  - destruct (String.eqb_spec k0 key) as [->|Hne]; cbn [map fst].
    + exact H.
    + inversion H as [|? ? Hnot Hd]; subst. constructor.
      * intros Hin. apply incr_keys in Hin. destruct Hin as [->|Hin];
          [apply Hne; reflexivity | exact (Hnot Hin)].
      * exact (IH Hd).
Qed.

Lemma counter_In (k : string) (v : Z) (d : list (string * Z)) :
  List.NoDup (map fst d) -> In (k, v) d -> counter k d = v.
Proof.
  induction d as [|[k0 v0] d IH]; cbn [counter map fst]; intros Hnd Hin.
  - destruct Hin.
  - inversion Hnd as [|? ? Hnot Hd]; subst.
    destruct Hin as [[= -> ->]|Hin].
    + rewrite String.eqb_refl. reflexivity.
    + destruct (String.eqb_spec k0 k) as [->|Hne].
      * exfalso. apply Hnot. apply in_map_iff. exists (k, v). auto.
      * exact (IH Hd Hin).
Qed.

Lemma counter_positive_In (k : string) (d : list (string * Z)) :
  counter k d <> 0 -> In (k, counter k d) d.
Proof.
  induction d as [|[k0 v0] d IH]; cbn [counter]; intros H.
  - congruence.
  - destruct (String.eqb_spec k0 k) as [->|Hne].
    + left. reflexivity.
    + right. exact (IH H).
Qed.

(** A [Counter] has each key once and holds, for every string, the
    number of its occurrences in the list. *)
Lemma Counter_spec (l : list string) :
  List.NoDup (map fst (Counter l))
  /\ forall k, counter k (Counter l)
               = Z.of_nat (count_occ string_dec l k).
Proof.
  unfold Counter.
  assert (G : forall acc,
    List.NoDup (map fst acc) ->
    List.NoDup (map fst (fold_left (fun d k => incr k d) l acc))
    /\ forall k, counter k (fold_left (fun d k => incr k d) l acc)
                 = counter k acc + Z.of_nat (count_occ string_dec l k)).
  { induction l as [|x l IH]; intros acc Hacc; cbn [fold_left count_occ].
    - split; [exact Hacc | intros k; lia].
    - destruct (IH (incr x acc) (incr_keys_NoDup x acc Hacc)) as [H1 H2].
      split; [exact H1 |]. intros k. rewrite H2, counter_incr.
      destruct (string_dec x k) as [->|Hne].
      + rewrite String.eqb_refl. lia.
      + rewrite (proj2 (String.eqb_neq x k) Hne). lia. }
  destruct (G [] (List.NoDup_nil _)) as [H1 H2]. split; [exact H1 |].
  intros k. rewrite H2. reflexivity.
Qed.

(** ** Escaping *)

Lemma length_append (a b : string) :
  String.length (a ++ b) = (String.length a + String.length b)%nat.
Proof. induction a as [|c a IH]; simpl; [reflexivity | rewrite IH; lia]. Qed.

Lemma append_cancel_r (a b t : string) : a ++ t = b ++ t -> a = b.
Proof.
  revert b. induction a as [|c a IH]; intros [|d b] H.
  - reflexivity.
  - apply (f_equal String.length) in H.
    rewrite (length_append (String d b)) in H.
    change ("" ++ t) with t in H. simpl in H. lia.
  - apply (f_equal String.length) in H.
    rewrite (length_append (String c a)) in H.
    change ("" ++ t) with t in H. simpl in H. lia.
  - change (String c (a ++ t) = String d (b ++ t)) in H.
    injection H as -> H. f_equal. apply IH. exact H.
Qed.

(** [re.escape] loses nothing: different strings escape differently. *)
Lemma re_escape_injective (a b : string) :
  re_escape a = re_escape b -> a = b.
Proof.
  revert b. induction a as [|c a IH]; intros [|d b]; cbn [re_escape].
  - reflexivity.
  - destruct (existsb (Ascii.eqb d) re_special); discriminate.
  - destruct (existsb (Ascii.eqb c) re_special); discriminate.
  - destruct (existsb (Ascii.eqb c) re_special) eqn:C,
             (existsb (Ascii.eqb d) re_special) eqn:D.
    + intros [= -> H]. f_equal. apply IH. exact H.
    + intros [= <- _]. vm_compute in D. discriminate D.
    + intros [= -> _]. vm_compute in C. discriminate C.
    + intros [= -> H]. f_equal. apply IH. exact H.
Qed.

Lemma candidate_injective (a b : string) :
  ".*" ++ re_escape a ++ ".*" = ".*" ++ re_escape b ++ ".*" -> a = b.
Proof.
  intros H. apply append_cancel_l in H. apply append_cancel_r in H.
  apply re_escape_injective. exact H.
Qed.

(** ** Substrings *)

Lemma prefix_substring0 (n : nat) (s : string) :
  String.prefix (String.substring 0 n s) s = true.
Proof.
  revert n. induction s as [|c s IH]; intros [|n]; try reflexivity.
  cbn [String.substring String.prefix].
  destruct (ascii_dec c c) as [_|Hne]; [apply IH | congruence].
Qed.

Lemma is_substring_substring (i n : nat) (s : string) :
  is_substring (String.substring i n s) s = true.
Proof.
  revert i. induction s as [|c s IH]; intros i.
  - destruct i, n; reflexivity.
  - destruct i as [|i].
    + cbn [is_substring]. rewrite prefix_substring0. reflexivity.
    + cbn [is_substring]. change (String.substring (S i) n (String c s))
        with (String.substring i n s).
      rewrite IH. apply orb_true_r.
Qed.

Section Mining.

Import PatternManager.

(** An n-gram taken from a service holds a letter and occurs in it. *)
Lemma ngrams_of_sound (cfg : Config.t) (service g : string) :
  In g (ngrams_of cfg service) ->
  has_letter g = true /\ is_substring g service = true.
Proof.
  unfold ngrams_of.
  destruct (String.length service <? Config.MIN_PATTERN_LENGTH cfg)%nat;
    [intros [] |].
  intros H. apply in_flat_map in H. destruct H as (n & _ & H).
  apply in_flat_map in H. destruct H as (i & _ & H).
  destruct (has_letter (String.substring i n service)) eqn:L;
    cbn [negb orb] in H; [| destruct H].
  destruct (isdigit (String.substring i n service)); [destruct H |].
  destruct H as [<-|[]].
  split; [exact L | apply is_substring_substring].
Qed.

(** X6: the candidates of [generate_patterns_from_services] are exactly
    the patterns [.*<escaped n-gram>.*] of the n-grams that were taken
    at least twice, counting every position in every service: given
    fewer than two services there is none. *)
Theorem generate_patterns_by_occurrences
    (cfg : Config.t) (services : list string) (p : string) :
  In p (generate_patterns_from_services cfg services) <->
  (2 <= length services)%nat
  /\ exists g,
       p = ".*" ++ re_escape g ++ ".*"
       /\ (2 <= count_occ string_dec (flat_map (ngrams_of cfg) services) g)%nat.
Proof.
  unfold generate_patterns_from_services.
  destruct (Nat.ltb_spec (length services) 2) as [Hlt|Hge].
  { split; [intros [] | intros [H _]; lia]. }
  destruct (Counter_spec (flat_map (ngrams_of cfg) services)) as [Hnd Hcount].
  split.
  - intros H. split; [exact Hge |].
    apply in_map_iff in H. destruct H as (g & <- & H). exists g.
    split; [reflexivity |].
    apply in_map_iff in H. destruct H as ([g' v] & Hg & H).
    cbn [fst] in Hg. subst g'. apply filter_In in H.
    destruct H as [H Hv]. cbn [snd] in Hv. apply Z.leb_le in Hv.
    rewrite <- (counter_In g v _ Hnd H), Hcount in Hv. lia.
  - intros (_ & g & -> & Hg).
    apply (in_map (fun ngram => ".*" ++ re_escape ngram ++ ".*")).
    apply in_map_iff.
    exists (g, counter g (Counter (flat_map (ngrams_of cfg) services))).
    split; [reflexivity |]. apply filter_In. split.
    + apply counter_positive_In. rewrite Hcount. lia.
    + cbn [snd]. apply Z.leb_le. rewrite Hcount. lia.
Qed.

Lemma map_fst_filter_NoDup {A B} (f : A * B -> bool) (l : list (A * B)) :
  List.NoDup (map fst l) -> List.NoDup (map fst (List.filter f l)).
Proof.
  induction l as [|x l IH]; cbn [List.filter map]; intros H; [constructor |].
  inversion H as [|? ? Hnot Hl]; subst.
  destruct (f x); cbn [map]; [| exact (IH Hl)].
  constructor; [| exact (IH Hl)].
  intros Hin. apply Hnot. apply in_map_iff in Hin.
  destruct Hin as (y & Hy & Hin). apply filter_In in Hin.
  apply in_map_iff. exists y. tauto.
Qed.

Lemma generated_from_an_ngram
    (cfg : Config.t) (services : list string) (p : string) :
  In p (generate_patterns_from_services cfg services) ->
  exists g, p = ".*" ++ re_escape g ++ ".*"
            /\ In g (flat_map (ngrams_of cfg) services).
Proof.
  unfold generate_patterns_from_services.
  destruct (length services <? 2)%nat; [intros [] |].
  intros H. apply in_map_iff in H. destruct H as (g & <- & H).
  exists g. split; [reflexivity |].
  apply in_map_iff in H. destruct H as ([g' v] & Hg & H). cbn [fst] in Hg.
  subst g'. apply filter_In in H. destruct H as [H _].
  apply Counter_keys. apply in_map_iff. exists (g, v).
  split; [reflexivity | exact H].
Qed.

Lemma map_injective_NoDup {A B} (f : A -> B) (l : list A) :
  (forall a b, f a = f b -> a = b) ->
  List.NoDup l -> List.NoDup (map f l).
Proof.
  intros Hf. induction l as [|x l IH]; cbn [map]; intros H; [constructor |].
  inversion H as [|? ? Hnot Hl]; subst. constructor; [| exact (IH Hl)].
  intros Hin. apply in_map_iff in Hin. destruct Hin as (y & Hy & Hin).
  apply Hf in Hy. subst y. exact (Hnot Hin).
Qed.

(** X7: no candidate is returned twice, and each comes from an n-gram
    that occurs in one of the services given, holds a letter, and has
    at least [MIN_PATTERN_LENGTH] and fewer than [MAX_PATTERN_LENGTH]
    characters. *)
Theorem generate_patterns_distinct_and_sound
    (cfg : Config.t) (services : list string) :
  List.NoDup (generate_patterns_from_services cfg services)
  /\ forall p,
       In p (generate_patterns_from_services cfg services) ->
       exists g service,
         p = ".*" ++ re_escape g ++ ".*"
         /\ In service services
         /\ is_substring g service = true
         /\ has_letter g = true
         /\ (Config.MIN_PATTERN_LENGTH cfg <= String.length g
             < Config.MAX_PATTERN_LENGTH cfg)%nat.
Proof.
  split.
  - unfold generate_patterns_from_services.
    destruct (length services <? 2)%nat; [constructor |].
    apply map_injective_NoDup.
    + intros a b. apply candidate_injective.
    + apply map_fst_filter_NoDup. apply Counter_spec.
  - intros p Hp. apply generated_from_an_ngram in Hp.
    destruct Hp as (g & -> & Hin).
    apply in_flat_map in Hin. destruct Hin as (service & Hs & Hin).
    destruct (ngrams_of_sound cfg service g Hin) as [Hl Hsub].
    exists g, service. repeat split; try assumption.
    + exact (proj1 (ngrams_of_length cfg service g Hin)).
    + exact (proj2 (ngrams_of_length cfg service g Hin)).
Qed.

End Mining.

(** * Further properties: the fallback distance *)

Lemma edit_distance_nil_r (s : list ascii) :
  edit_distance s [] = Z.of_nat (length s).
Proof. destruct s; reflexivity. Qed.

Lemma edit_distance_cons (a b : ascii) (s t : list ascii) :
  edit_distance (a :: s) (b :: t)
  = Z.min (Z.min (edit_distance s (b :: t) + 1)
                 (edit_distance (a :: s) t + 1))
          (edit_distance s t + (if Ascii.eqb a b then 0 else 1)).
Proof. reflexivity. Qed.

Lemma table_row_cons (rs rt rest : list ascii) :
  table_row rs rt rest = edit_distance rs rt :: tl (table_row rs rt rest).
Proof. destruct rest; reflexivity. Qed.

(** The inner loop fills the row of [c1 :: rs] from the row of [rs]. *)
Lemma lev_row_table (c1 : ascii) (rs rest rt : list ascii) :
  lev_row c1 rest (table_row rs rt rest) (edit_distance (c1 :: rs) rt)
  = tl (table_row (c1 :: rs) rt rest).
Proof.
  revert rt. induction rest as [|b rest IH]; intros rt; [reflexivity |].
  cbn [table_row tl]. rewrite (table_row_cons rs (b :: rt) rest).
  cbn [lev_row]. rewrite <- (table_row_cons rs (b :: rt) rest).
  rewrite <- edit_distance_cons. rewrite IH.
  symmetry. apply table_row_cons.
Qed.

(** The outer loop goes from the row of [rs] to the row of the whole
    first string, read backwards. *)
Lemma lev_rows_table (s1 s2 rs : list ascii) :
  lev_rows s1 s2 (Z.of_nat (length rs)) (table_row rs [] s2)
  = table_row (rev s1 ++ rs) [] s2.
Proof.
  revert rs. induction s1 as [|c1 s1 IH]; intros rs; [reflexivity |].
  cbn [lev_rows rev].
  replace (Z.of_nat (length rs) + 1) with (Z.of_nat (length (c1 :: rs)))
    by (cbn [length]; lia).
  rewrite <- (edit_distance_nil_r (c1 :: rs)) at 2.
  rewrite lev_row_table, <- table_row_cons, IH, <- app_assoc.
  reflexivity.
Qed.

Lemma table_row_last (rs rt rest : list ascii) (d : Z) :
  List.last (table_row rs rt rest) d = edit_distance rs (rev rest ++ rt).
Proof.
  revert rt. induction rest as [|b rest IH]; intros rt; [reflexivity |].
  cbn [table_row rev]. rewrite <- app_assoc. cbn [app].
  rewrite <- IH. rewrite (table_row_cons rs (b :: rt) rest). reflexivity.
Qed.

Lemma table_row_first (rt rest : list ascii) :
  table_row [] rt rest
  = map Z.of_nat (seq (length rt) (length rest + 1)).
Proof.
  revert rt. induction rest as [|b rest IH]; intros rt; [reflexivity |].
  cbn [table_row length Nat.add seq map]. rewrite IH. reflexivity.
Qed.

Lemma length_list_ascii_of_string (s : string) :
  length (list_ascii_of_string s) = String.length s.
Proof. induction s as [|c s IH]; simpl; congruence. Qed.

(** The table's last entry, whichever way round the function takes its
    arguments. *)
Lemma levenshtein_distance_table (s1 s2 : string) :
  levenshtein_distance s1 s2
  = if (String.length s1 <? String.length s2)%nat
    then edit_distance (rev (list_ascii_of_string s2))
                       (rev (list_ascii_of_string s1))
    else edit_distance (rev (list_ascii_of_string s1))
                       (rev (list_ascii_of_string s2)).
Proof.
  assert (G : forall a b : string,
    (if (String.length b =? 0)%nat then Z.of_nat (String.length a)
     else List.last
            (lev_rows (list_ascii_of_string a) (list_ascii_of_string b) 0
               (map Z.of_nat (range 0 (String.length b + 1)))) 0)
    = edit_distance (rev (list_ascii_of_string a))
                    (rev (list_ascii_of_string b))).
  { intros a b. destruct (Nat.eqb_spec (String.length b) 0) as [E|E].
    - destruct b; [| discriminate E]. cbn [list_ascii_of_string rev].
      rewrite edit_distance_nil_r, length_rev, length_list_ascii_of_string.
      reflexivity.
    - unfold range. rewrite Nat.sub_0_r.
      rewrite <- (length_list_ascii_of_string b).
      change (seq 0) with (seq (length (@nil ascii))).
      rewrite <- (table_row_first [] (list_ascii_of_string b)).
      change 0 with (Z.of_nat (length (@nil ascii))) at 1.
      rewrite lev_rows_table, table_row_last, !app_nil_r. reflexivity. }
  unfold levenshtein_distance.
  destruct (String.length s1 <? String.length s2)%nat; apply G.
Qed.

(** ** Alignments *)

Lemma Edits_cost (s t : list ascii) (n m : Z) :
  Edits s t n -> n = m -> Edits s t m.
Proof. intros H <-. exact H. Qed.

Lemma Edits_nonneg (s t : list ascii) (n : Z) : Edits s t n -> 0 <= n.
Proof.
  induction 1 as [|a s t n _ IH|b s t n _ IH|a b s t n _ IH]; try lia.
  destruct (Ascii.eqb a b); lia.
Qed.

Lemma Edits_insert_all (t : list ascii) :
  Edits [] t (Z.of_nat (length t)).
Proof.
  induction t as [|b t IH]; [constructor |].
  eapply Edits_cost; [apply edits_insert, IH | cbn [length]; lia].
Qed.

Lemma Edits_delete_all (s : list ascii) :
  Edits s [] (Z.of_nat (length s)).
Proof.
  induction s as [|a s IH]; [constructor |].
  eapply Edits_cost; [apply edits_delete, IH | cbn [length]; lia].
Qed.

(** The recurrence is the cost of an alignment, and of a cheapest one. *)
Lemma edit_distance_Edits (s t : list ascii) :
  Edits s t (edit_distance s t).
Proof.
  revert t. induction s as [|a s IHs]; intros t.
  - apply Edits_insert_all.
  - induction t as [|b t IHt].
    + rewrite edit_distance_nil_r. apply Edits_delete_all.
    + rewrite edit_distance_cons.
      set (x := edit_distance s (b :: t) + 1).
      set (y := edit_distance (a :: s) t + 1).
      set (z := edit_distance s t + (if Ascii.eqb a b then 0 else 1)).
      destruct (Z.min_spec (Z.min x y) z) as [[_ ->]|[_ ->]].
      * destruct (Z.min_spec x y) as [[_ ->]|[_ ->]].
        -- apply edits_delete, IHs.
        -- apply edits_insert, IHt.
      * apply edits_substitute, IHs.
Qed.

Lemma edit_distance_least (s t : list ascii) (n : Z) :
  Edits s t n -> edit_distance s t <= n.
Proof.
  induction 1 as [|a s t n _ IH|b s t n _ IH|a b s t n _ IH].
  - reflexivity.
  - destruct t as [|b t].
    + rewrite edit_distance_nil_r in *. cbn [length]. lia.
    + rewrite edit_distance_cons. lia.
  - destruct s as [|a s].
    + cbn [edit_distance length] in *. lia.
    + rewrite edit_distance_cons. lia.
  - rewrite edit_distance_cons. lia.
Qed.

Lemma Edits_delete_last (a : ascii) (s t : list ascii) (n : Z) :
  Edits s t n -> Edits (s ++ [a]) t (n + 1).
Proof.
  induction 1 as [|a' s t n _ IH|b s t n _ IH|a' b s t n _ IH]; cbn [app].
  - apply (edits_delete a [] [] 0). constructor.
  - eapply Edits_cost; [apply edits_delete, IH | lia].
  - eapply Edits_cost; [apply edits_insert, IH | lia].
  - eapply Edits_cost; [apply (edits_substitute a' b), IH | lia].
Qed.

Lemma Edits_insert_last (b : ascii) (s t : list ascii) (n : Z) :
  Edits s t n -> Edits s (t ++ [b]) (n + 1).
Proof.
  induction 1 as [|a s t n _ IH|b' s t n _ IH|a b' s t n _ IH]; cbn [app].
  - apply (edits_insert b [] [] 0). constructor.
  - eapply Edits_cost; [apply edits_delete, IH | lia].
  - eapply Edits_cost; [apply edits_insert, IH | lia].
  - eapply Edits_cost; [apply (edits_substitute a b'), IH | lia].
Qed.

Lemma Edits_substitute_last (a b : ascii) (s t : list ascii) (n : Z) :
  Edits s t n ->
  Edits (s ++ [a]) (t ++ [b]) (n + if Ascii.eqb a b then 0 else 1).
Proof.
  induction 1 as [|a' s t n _ IH|b' s t n _ IH|a' b' s t n _ IH]; cbn [app].
  - apply (edits_substitute a b [] [] 0). constructor.
  - eapply Edits_cost; [apply edits_delete, IH | lia].
  - eapply Edits_cost; [apply edits_insert, IH | lia].
  - eapply Edits_cost; [apply (edits_substitute a' b'), IH | lia].
Qed.

Lemma Edits_rev (s t : list ascii) (n : Z) :
  Edits s t n -> Edits (rev s) (rev t) n.
Proof.
  induction 1 as [|a s t n _ IH|b s t n _ IH|a b s t n _ IH]; cbn [rev].
  - constructor.
  - apply Edits_delete_last, IH.
  - apply Edits_insert_last, IH.
  - apply Edits_substitute_last, IH.
Qed.

Lemma Edits_sym (s t : list ascii) (n : Z) : Edits s t n -> Edits t s n.
Proof.
  induction 1 as [|a s t n _ IH|b s t n _ IH|a b s t n _ IH].
  - constructor.
  - apply edits_insert, IH.
  - apply edits_delete, IH.
  - rewrite Ascii.eqb_sym. apply edits_substitute, IH.
Qed.

Lemma Edits_refl (s : list ascii) : Edits s s 0.
Proof.
  induction s as [|a s IH]; [constructor |].
  eapply Edits_cost; [apply (edits_substitute a a), IH |].
  rewrite Ascii.eqb_refl. reflexivity.
Qed.

Lemma Edits_zero (s t : list ascii) (n : Z) :
  Edits s t n -> n = 0 -> s = t.
Proof.
  induction 1 as [|a s t n H IH|b s t n H IH|a b s t n H IH]; intros E.
  - reflexivity.
  - apply Edits_nonneg in H. lia.
  - apply Edits_nonneg in H. lia.
  - pose proof (Edits_nonneg _ _ _ H) as Hn.
    destruct (Ascii.eqb_spec a b) as [->|Hne]; [| lia].
    f_equal. apply IH. lia.
Qed.

Lemma Edits_lengths (s t : list ascii) (n : Z) :
  Edits s t n ->
  Z.abs (Z.of_nat (length s) - Z.of_nat (length t)) <= n.
Proof.
  induction 1 as [|a s t n _ IH|b s t n _ IH|a b s t n _ IH];
    cbn [length]; try lia.
  destruct (Ascii.eqb a b); lia.
Qed.

Lemma Edits_by_substitution (s t : list ascii) :
  exists n, Edits s t n
            /\ n <= Z.max (Z.of_nat (length s)) (Z.of_nat (length t)).
Proof.
  revert t. induction s as [|a s IH]; intros t.
  - exists (Z.of_nat (length t)). split; [apply Edits_insert_all |].
    cbn [length]. lia.
  - destruct t as [|b t].
    + exists (Z.of_nat (length (a :: s))).
      split; [apply Edits_delete_all | lia].
    + destruct (IH t) as (n & H & Hn).
      exists (n + if Ascii.eqb a b then 0 else 1).
      split; [apply edits_substitute, H |].
      cbn [length]. destruct (Ascii.eqb a b); lia.
Qed.

Lemma Edits_trans (s t u : list ascii) (n m : Z) :
  Edits s t n -> Edits t u m -> exists k, Edits s u k /\ k <= n + m.
Proof.
  intros H. revert u m.
  induction H as [|a s t n _ IH|b s t n H IH|a b s t n H IH]; intros u m H2.
  - exists m. split; [exact H2 | lia].
  - destruct (IH u m H2) as (k & Hk & Hle).
    exists (k + 1). split; [apply edits_delete, Hk | lia].
  - remember (b :: t) as bt eqn:Ebt. revert Ebt.
    induction H2 as [|b' t' u m H2 _|c t' u m H2 IH2|b' c t' u m H2 _];
      intros Ebt.
    + discriminate Ebt.
    + injection Ebt as -> ->.
      destruct (IH u m H2) as (k & Hk & Hle). exists k. split; [exact Hk | lia].
    + destruct (IH2 Ebt) as (k & Hk & Hle).
      exists (k + 1). split; [apply edits_insert, Hk | lia].
    + injection Ebt as -> ->.
      destruct (IH u m H2) as (k & Hk & Hle).
      exists (k + 1). split; [apply edits_insert, Hk |].
      destruct (Ascii.eqb b c); lia.
  - remember (b :: t) as bt eqn:Ebt. revert Ebt.
    induction H2 as [|b' t' u m H2 _|c t' u m H2 IH2|b' c t' u m H2 _];
      intros Ebt.
    + discriminate Ebt.
    + injection Ebt as -> ->.
      destruct (IH u m H2) as (k & Hk & Hle).
      exists (k + 1). split; [apply edits_delete, Hk |].
      destruct (Ascii.eqb a b); lia.
    + destruct (IH2 Ebt) as (k & Hk & Hle).
      exists (k + 1). split; [apply edits_insert, Hk | lia].
    + injection Ebt as -> ->.
      destruct (IH u m H2) as (k & Hk & Hle).
      exists (k + if Ascii.eqb a c then 0 else 1).
      split; [apply edits_substitute, Hk |].
      destruct (Ascii.eqb_spec a b) as [Hab|Hab],
               (Ascii.eqb_spec b c) as [Hbc|Hbc],
               (Ascii.eqb_spec a c) as [Hac|Hac]; try lia.
      congruence.
Qed.

(** The function returns the cost of an alignment of its arguments, and
    no alignment is cheaper. *)
Lemma levenshtein_distance_Edits (s1 s2 : string) :
  Edits (list_ascii_of_string s1) (list_ascii_of_string s2)
        (levenshtein_distance s1 s2).
Proof.
  rewrite levenshtein_distance_table.
  destruct (String.length s1 <? String.length s2)%nat.
  - apply Edits_sym.
    rewrite <- (rev_involutive (list_ascii_of_string s1)),
            <- (rev_involutive (list_ascii_of_string s2)) at 1.
    apply Edits_rev, edit_distance_Edits.
  - rewrite <- (rev_involutive (list_ascii_of_string s1)),
            <- (rev_involutive (list_ascii_of_string s2)) at 1.
    apply Edits_rev, edit_distance_Edits.
Qed.

Lemma levenshtein_distance_least (s1 s2 : string) (n : Z) :
  Edits (list_ascii_of_string s1) (list_ascii_of_string s2) n ->
  levenshtein_distance s1 s2 <= n.
Proof.
  intros H. rewrite levenshtein_distance_table.
  destruct (String.length s1 <? String.length s2)%nat.
  - apply edit_distance_least, Edits_rev, Edits_sym, H.
  - apply edit_distance_least, Edits_rev, H.
Qed.

(** X8: the fallback [levenshtein_distance] is the least number of
    single-character deletions, insertions and substitutions that turn
    the first string into the second. *)
Theorem levenshtein_distance_is_the_least_number_of_edits
    (s1 s2 : string) :
  Edits (list_ascii_of_string s1) (list_ascii_of_string s2)
        (levenshtein_distance s1 s2)
  /\ forall n,
       Edits (list_ascii_of_string s1) (list_ascii_of_string s2) n ->
       levenshtein_distance s1 s2 <= n.
Proof.
  split; [apply levenshtein_distance_Edits |].
  intros n. apply levenshtein_distance_least.
Qed.

Lemma list_ascii_of_string_injective (s1 s2 : string) :
  list_ascii_of_string s1 = list_ascii_of_string s2 -> s1 = s2.
Proof.
  intros H. rewrite <- (string_of_list_ascii_of_string s1),
                    <- (string_of_list_ascii_of_string s2), H.
  reflexivity.
Qed.

(** X9: the fallback distance is a metric on strings: it is 0 exactly
    between equal strings, the same in both directions, and the
    distance by way of a third string is never shorter. *)
Theorem levenshtein_distance_is_a_metric (s1 s2 s3 : string) :
  0 <= levenshtein_distance s1 s2
  /\ (levenshtein_distance s1 s2 = 0 <-> s1 = s2)
  /\ levenshtein_distance s1 s2 = levenshtein_distance s2 s1
  /\ levenshtein_distance s1 s3
     <= levenshtein_distance s1 s2 + levenshtein_distance s2 s3.
Proof.
  split; [| split; [| split]].
  - exact (Edits_nonneg _ _ _ (levenshtein_distance_Edits s1 s2)).
  - split.
    + intros E. apply list_ascii_of_string_injective.
      exact (Edits_zero _ _ _ (levenshtein_distance_Edits s1 s2) E).
    + intros <-.
      pose proof (Edits_nonneg _ _ _ (levenshtein_distance_Edits s1 s1)).
      pose proof (levenshtein_distance_least s1 s1 0 (Edits_refl _)).
      lia.
  - pose proof (levenshtein_distance_least s1 s2 _
                  (Edits_sym _ _ _ (levenshtein_distance_Edits s2 s1))).
    pose proof (levenshtein_distance_least s2 s1 _
                  (Edits_sym _ _ _ (levenshtein_distance_Edits s1 s2))).
    lia.
  - destruct (Edits_trans _ _ _ _ _ (levenshtein_distance_Edits s1 s2)
                (levenshtein_distance_Edits s2 s3)) as (k & Hk & Hle).
    pose proof (levenshtein_distance_least s1 s3 k Hk). lia.
Qed.

Lemma levenshtein_distance_bounds (s1 s2 : string) :
  Z.abs (Z.of_nat (String.length s1) - Z.of_nat (String.length s2))
  <= levenshtein_distance s1 s2
  <= Z.of_nat (Nat.max (String.length s1) (String.length s2)).
Proof.
  rewrite <- !length_list_ascii_of_string. split.
  - exact (Edits_lengths _ _ _ (levenshtein_distance_Edits s1 s2)).
  - destruct (Edits_by_substitution (list_ascii_of_string s1)
                (list_ascii_of_string s2)) as (n & H & Hn).
    pose proof (levenshtein_distance_least s1 s2 n H). lia.
Qed.

Lemma levenshtein_distance_sym (s1 s2 : string) :
  levenshtein_distance s1 s2 = levenshtein_distance s2 s1.
Proof.
  pose proof (levenshtein_distance_least s1 s2 _
                (Edits_sym _ _ _ (levenshtein_distance_Edits s2 s1))).
  pose proof (levenshtein_distance_least s2 s1 _
                (Edits_sym _ _ _ (levenshtein_distance_Edits s1 s2))).
  lia.
Qed.

(** X10: the distance lies between the difference of the two lengths
    and the greater length, so the similarity [_is_too_similar] takes
    from it lies between 0 and 1 whenever one of the strings is not
    empty, and it is 1 for equal strings only. *)
Theorem similarity_between_zero_and_one (s1 s2 : string) :
  Z.abs (Z.of_nat (String.length s1) - Z.of_nat (String.length s2))
  <= levenshtein_distance s1 s2
  <= Z.of_nat (Nat.max (String.length s1) (String.length s2))
  /\ ((0 < Nat.max (String.length s1) (String.length s2))%nat ->
      (0 <= PatternManager.similarity s1 s2 <= 1)%Q
      /\ (PatternManager.similarity s1 s2 == 1 <-> s1 = s2)%Q).
Proof.
  split; [apply levenshtein_distance_bounds |].
  intros Hpos. unfold PatternManager.similarity.
  pose proof (levenshtein_distance_bounds s1 s2) as [Hlo Hhi].
  set (d := levenshtein_distance s1 s2) in *.
  set (m := Z.of_nat (Nat.max (String.length s1) (String.length s2))) in *.
  assert (Hm : (0 < inject_Z m)%Q).
  { change 0%Q with (inject_Z 0). rewrite <- Zlt_Qlt. unfold m. lia. }
  assert (Hd0 : (0 <= inject_Z d / inject_Z m)%Q).
  { apply Qle_shift_div_l; [exact Hm |]. rewrite Qmult_0_l.
    change 0%Q with (inject_Z 0). rewrite <- Zle_Qle. lia. }
  assert (Hd1 : (inject_Z d / inject_Z m <= 1)%Q).
  { apply Qle_shift_div_r; [exact Hm |]. rewrite Qmult_1_l.
    rewrite <- Zle_Qle. exact Hhi. }
  split; [split; lra |]. split.
  - intros E.
    assert (Hz : (inject_Z d / inject_Z m == 0)%Q) by lra.
    assert (Hd : (inject_Z d == 0)%Q).
    { rewrite <- (Qmult_div_r (inject_Z d) (inject_Z m)) by lra.
      rewrite Hz. ring. }
    change 0%Q with (inject_Z 0) in Hd.
    apply (proj1 (inject_Z_injective d 0)) in Hd.
    apply list_ascii_of_string_injective.
    exact (Edits_zero _ _ _ (levenshtein_distance_Edits s1 s2) Hd).
  - intros E. subst s2.
    assert (Hd : d = 0).
    { pose proof (Edits_nonneg _ _ _ (levenshtein_distance_Edits s1 s1)).
      pose proof (levenshtein_distance_least s1 s1 0 (Edits_refl _)).
      unfold d. lia. }
    rewrite Hd. unfold Qdiv. rewrite Qmult_0_l. ring.
Qed.

(** X11: the similarity test takes no side: with cores of at least
    [MIN_PATTERN_LENGTH] characters, a pattern is too similar to a
    store that holds only another pattern exactly when the other is
    too similar to a store that holds only the first. *)
Theorem is_too_similar_takes_no_side
    (cfg : Config.t) (p q : string) (s s' : PatternManager.t) :
  PatternManager.patterns s = [q] ->
  PatternManager.patterns s' = [p] ->
  (Config.MIN_PATTERN_LENGTH cfg
   <= String.length (PatternManager.core p))%nat ->
  (Config.MIN_PATTERN_LENGTH cfg
   <= String.length (PatternManager.core q))%nat ->
  PatternManager._is_too_similar cfg p s
  = PatternManager._is_too_similar cfg q s'.
Proof.
  intros Hs Hs' Hp Hq. unfold PatternManager._is_too_similar.
  rewrite (proj2 (Nat.ltb_ge _ _) Hp), (proj2 (Nat.ltb_ge _ _) Hq).
  rewrite Hs, Hs'. cbn [existsb]. rewrite !orb_false_r.
  unfold PatternManager.too_similar_to, PatternManager.similarity.
  rewrite (orb_comm (is_substring (PatternManager.core p) _)).
  rewrite (andb_comm (0 <? String.length (PatternManager.core p))%nat).
  rewrite (levenshtein_distance_sym (PatternManager.core p)).
  rewrite (Nat.max_comm (String.length (PatternManager.core p))).
  reflexivity.
Qed.

Lemma is_too_similar_takes_no_side_witness :
  PatternManager._is_too_similar Config.defaults ".*abcd.*"
    (PatternManager.mk [] [".*abxd.*"] 0 [] [])
  = PatternManager._is_too_similar Config.defaults ".*abxd.*"
    (PatternManager.mk [] [".*abcd.*"] 0 [] []).
Proof.
  apply is_too_similar_takes_no_side;
    [reflexivity | reflexivity | vm_compute; lia | vm_compute; lia].
Defined.

(** * Further properties: the correlation counters *)

Section Correlations.

Import TriggerAnalyzer.

Lemma scan_counter ty service t events acc k :
  counter k (snd (scan ty service t events acc))
  = counter k (snd acc)
    + if String.eqb (service ++ "_" ++ ty) k
      then Z.of_nat (length (List.filter (within_window t) events))
      else 0.
Proof.
  unfold scan. revert acc.
  induction events as [|e events IH]; intros acc.
  - cbn [fold_left List.filter length]. destruct (String.eqb _ k); lia.
  - cbn [fold_left List.filter]. rewrite IH.
    change (Qleb (Qabs (float_sub t (timestamp e))) time_window)
      with (within_window t e).
    destruct (within_window t e); cbn [snd length]; [| reflexivity].
    rewrite counter_incr. destruct (String.eqb _ k); lia.
Qed.

Lemma scan_keys ty service t events acc k :
  In k (map fst (snd (scan ty service t events acc))) ->
  k = service ++ "_" ++ ty \/ In k (map fst (snd acc)).
Proof.
  unfold scan. revert acc.
  induction events as [|e events IH]; intros acc; cbn [fold_left].
  - auto.
  - intros H. apply IH in H. destruct H as [H|H]; [left; exact H |].
    destruct (Qleb _ time_window); [| right; exact H].
    cbn [snd] in H. apply incr_keys in H. exact H.
Qed.

Lemma eqb_append_l (p a b : string) :
  String.eqb (p ++ a) (p ++ b) = String.eqb a b.
Proof.
  destruct (String.eqb_spec a b) as [->|Hne].
  - apply String.eqb_refl.
  - apply String.eqb_neq. intros H. apply append_cancel_l in H. auto.
Qed.

Lemma record_event_correlations event_type timestamp details s :
  trigger_correlations (record_event event_type timestamp details s)
  = trigger_correlations s.
Proof.
  unfold record_event.
  repeat (destruct (String.eqb event_type _); [reflexivity |]).
  reflexivity.
Qed.

Lemma check_resurrection_triggers_windows service t s :
  windows (snd (check_resurrection_triggers service t s)) = windows s.
Proof. reflexivity. Qed.

(** X12: [check_resurrection_triggers] adds to the counter of the
    service and a trigger type the number of events of that type
    within the time window, leaves every other counter as it was, and
    does not touch the event lists; the triggers it returns are as
    many as the counters went up in all. *)
Theorem check_resurrection_triggers_counts
    (service : string) (t : Q) (s : TriggerAnalyzer.t) :
  let r := check_resurrection_triggers service t s in
  (forall ty events,
     In (ty, events) (windows s) ->
     counter (service ++ "_" ++ ty) (trigger_correlations (snd r))
     = counter (service ++ "_" ++ ty) (trigger_correlations s)
       + Z.of_nat (length (List.filter (within_window t) events)))
  /\ (forall k,
        (forall ty, In ty trigger_types -> k <> service ++ "_" ++ ty) ->
        counter k (trigger_correlations (snd r))
        = counter k (trigger_correlations s))
  /\ windows (snd r) = windows s
  /\ length (fst r)
     = length (flat_map (fun w => List.filter (within_window t) (snd w))
                 (windows s)).
Proof.
  intros r. split; [| split; [| split]].
  - intros ty events Hin. unfold r, check_resurrection_triggers.
    cbn [snd trigger_correlations]. rewrite !scan_counter. cbn [snd].
    rewrite !eqb_append_l.
    unfold windows in Hin. cbn [In] in Hin.
    destruct Hin as [H|[H|[H|[H|[H|[H|[]]]]]]]; injection H as <- <-;
      cbn [String.eqb Ascii.eqb Bool.eqb]; lia.
  - intros k Hk. unfold r, check_resurrection_triggers.
    cbn [snd trigger_correlations]. rewrite !scan_counter. cbn [snd].
    assert (Hne : forall ty, In ty trigger_types ->
                  String.eqb (service ++ "_" ++ ty) k = false).
    { intros ty Hty. apply String.eqb_neq. intros E. exact (Hk ty Hty (eq_sym E)). }
    unfold trigger_types in Hne.
    rewrite !Hne by (cbn [In]; tauto). lia.
  - reflexivity.
  - unfold r. rewrite (Permutation_length
                         (check_resurrection_triggers_perm service t s)).
    unfold windows. cbn [flat_map fst snd].
    rewrite !length_app, !length_map. reflexivity.
Qed.

(** ** What [get_strong_correlations] makes of the keys *)

Lemma rsplit1_inv (sep : ascii) (s a b : string) :
  rsplit1 sep s = Some (a, b) -> s = a ++ String sep b.
Proof.
  revert a. induction s as [|c s IH]; intros a; cbn [rsplit1];
    [discriminate |].
  destruct (rsplit1 sep s) as [[a' b']|].
  - intros [= <- <-]. change (String c s = String c (a' ++ String sep b')).
    f_equal. apply IH. reflexivity.
  - destruct (Ascii.eqb_spec c sep) as [->|_]; [| discriminate].
    intros [= <- <-]. reflexivity.
Qed.

Lemma rsplit1_of_trigger_key (service ty : string) :
  In ty trigger_types ->
  exists a b, rsplit1 "_" (service ++ "_" ++ ty) = Some (a, b)
              /\ In b ["change"; "event"; "launch"].
Proof.
  destruct (rsplit1_trigger_keys service) as (H1 & H2 & H3 & H4 & H5 & H6).
  unfold trigger_types. cbn [In].
  intros [<-|[<-|[<-|[<-|[<-|[<-|[]]]]]]]; eexists; eexists;
    (split; [eassumption | cbn [In]; tauto]).
Qed.

Lemma strong_entries_Forall2 (min_count : Z) (items : list (string * Z))
    (l : list Correlation) :
  strong_entries min_count items = Some l ->
  Forall2
    (fun kv c =>
       rsplit1 "_" (fst kv) = Some (service c, trigger_type c)
       /\ count c = snd kv
       /\ confidence c = py_min 1 (inject_Z (snd kv) / 10))
    (List.filter (fun kv => min_count <=? snd kv) items) l.
Proof.
  revert l. induction items as [|[key n] items IH]; intros l;
    cbn [strong_entries List.filter snd].
  - intros [= <-]. constructor.
  - destruct (min_count <=? n); [| apply IH].
    destruct (rsplit1 "_" key) as [[sv ty]|] eqn:E; [| discriminate].
    destruct (strong_entries min_count items) as [l'|]; [| discriminate].
    intros [= <-]. constructor; [| apply IH; reflexivity].
    cbn. auto.
Qed.

Lemma strong_entries_total (min_count : Z) (items : list (string * Z)) :
  (forall k, In k (map fst items) -> rsplit1 "_" k <> None) ->
  strong_entries min_count items <> None.
Proof.
  induction items as [|[key n] items IH]; intros H; cbn [strong_entries];
    [discriminate |].
  assert (IH' : strong_entries min_count items <> None).
  { apply IH. intros k Hk. apply H. right. exact Hk. }
  destruct (min_count <=? n); [| exact IH'].
  destruct (rsplit1 "_" key) as [[sv ty]|] eqn:E.
  - destruct (strong_entries min_count items); [discriminate | congruence].
  - exfalso. apply (H key); [left; reflexivity | exact E].
Qed.

(** Every key of a reachable analyzer was written by
    [check_resurrection_triggers]. *)
Lemma reachable_keys (s : TriggerAnalyzer.t) :
  Reachable s ->
  forall k, In k (map fst (trigger_correlations s)) ->
            exists service ty, In ty trigger_types
                               /\ k = service ++ "_" ++ ty.
Proof.
  induction 1 as [|event_type timestamp details s _ IH
                  |service t s _ IH]; intros k Hk.
  - destruct Hk.
  - rewrite record_event_correlations in Hk. exact (IH k Hk).
  - unfold check_resurrection_triggers in Hk.
    cbn [snd trigger_correlations] in Hk.
    repeat (apply scan_keys in Hk;
            destruct Hk as [->|Hk];
            [exists service; eexists; (split; [| reflexivity]);
             unfold trigger_types; cbn [In]; tauto |]).
    cbn [snd] in Hk. exact (IH k Hk).
Qed.

(** X13: on an analyzer that was only written to by [record_event]
    and [check_resurrection_triggers], [get_strong_correlations] does
    not raise; it returns one entry for each counter of at least
    [min_count], in descending order of confidence, the confidence
    being a tenth of the count and at most 1; and the trigger type of
    every entry is the last word of the key, [change], [event] or
    [launch], the rest of the key being taken for the service. *)
Theorem reachable_strong_correlations
    (min_count : Z) (s : TriggerAnalyzer.t) :
  Reachable s ->
  exists l,
    get_strong_correlations min_count s = Some l
    /\ Permutation
         (map (fun c => (service c ++ "_" ++ trigger_type c, count c)) l)
         (List.filter (fun kv => min_count <=? snd kv)
            (trigger_correlations s))
    /\ StronglySorted (fun a b => (confidence b <= confidence a)%Q) l
    /\ forall c, In c l ->
         min_count <= count c
         /\ confidence c = py_min 1 (inject_Z (count c) / 10)
         /\ In (trigger_type c) ["change"; "event"; "launch"].
Proof.
  intros Hreach. unfold get_strong_correlations.
  destruct (strong_entries min_count (trigger_correlations s)) as [l|] eqn:E.
  2:{ exfalso. revert E. apply strong_entries_total. intros k Hk.
      destruct (reachable_keys s Hreach k Hk) as (sv & ty & Hty & ->).
      destruct (rsplit1_of_trigger_key sv ty Hty) as (a & b & -> & _).
      discriminate. }
  exists (py_sort confidence true l). split; [reflexivity |].
  pose proof (strong_entries_Forall2 _ _ _ E) as HF.
  assert (Hmap : map (fun c => (service c ++ "_" ++ trigger_type c, count c)) l
                 = List.filter (fun kv => min_count <=? snd kv)
                     (trigger_correlations s)).
  { clear E. induction HF as [|[k n] c items l' (H1 & H2 & _) _ IH];
      [reflexivity |].
    cbn [map]. rewrite IH. f_equal. cbn [fst snd] in *.
    apply rsplit1_inv in H1. rewrite H1, H2. reflexivity. }
  split; [rewrite py_sort_perm, Hmap; reflexivity |].
  split; [apply py_sort_descending |].
  intros c Hc. apply (Permutation_in _ (py_sort_perm _ _ _)) in Hc.
  assert (Hitems : forall kv,
            In kv (List.filter (fun kv => min_count <=? snd kv)
                     (trigger_correlations s)) ->
            min_count <= snd kv
            /\ exists sv ty, In ty trigger_types
                             /\ fst kv = sv ++ "_" ++ ty).
  { intros kv Hkv. apply filter_In in Hkv. destruct Hkv as [Hin Hle].
    split; [apply Z.leb_le, Hle |].
    apply (reachable_keys s Hreach). apply in_map. exact Hin. }
  clear E Hmap. induction HF as [|kv c' items l' (H1 & H2 & H3) _ IH];
    [destruct Hc |].
  destruct Hc as [->|Hc].
  - destruct (Hitems kv (or_introl eq_refl)) as (Hle & sv & ty & Hty & Hk).
    rewrite H2. split; [exact Hle |]. split; [exact H3 |].
    destruct (rsplit1_of_trigger_key sv ty Hty) as (a & b & Hs & Hb).
    rewrite <- Hk, H1 in Hs. injection Hs as _ ->. exact Hb.
  - apply IH; [exact Hc |]. intros kv' Hkv'. apply Hitems. right. exact Hkv'.
Qed.

Lemma reachable_strong_correlations_witness :
  exists l,
    get_strong_correlations 1
      (snd (check_resurrection_triggers "svc" 101
              (record_event "network" 100 [("state", "connected")] init)))
    = Some l
    /\ Permutation
         (map (fun c => (service c ++ "_" ++ trigger_type c, count c)) l)
         (List.filter (fun kv => 1 <=? snd kv)
            (trigger_correlations
               (snd (check_resurrection_triggers "svc" 101
                       (record_event "network" 100 [("state", "connected")]
                          init)))))
    /\ StronglySorted (fun a b => (confidence b <= confidence a)%Q) l
    /\ forall c, In c l ->
         1 <= count c
         /\ confidence c = py_min 1 (inject_Z (count c) / 10)
         /\ In (trigger_type c) ["change"; "event"; "launch"].
Proof.
  apply (reachable_strong_correlations 1).
  apply reach_check, reach_record, reach_init.
Defined.

End Correlations.

(** * Further properties: what the generator builds *)

Section Generator.

Import CountermeasureManager.

Lemma correlation_countermeasure_none cfg ts c :
  In (TriggerAnalyzer.trigger_type c) ["change"; "event"; "launch"] ->
  correlation_countermeasure cfg ts c = [].
Proof.
  unfold correlation_countermeasure. cbn [In].
  intros [<-|[<-|[<-|[]]]]; destruct (Qltb _ (7 # 10)); reflexivity.
Qed.

Lemma flat_map_none {A B} (f : A -> list B) (l : list A) :
  (forall x, In x l -> f x = []) -> flat_map f l = [].
Proof.
  induction l as [|x l IH]; intros H; [reflexivity |].
  cbn [flat_map]. rewrite (H x (or_introl eq_refl)).
  apply IH. intros y Hy. apply H. right. exact Hy.
Qed.

Lemma periodic_countermeasure_type cfg ts item cm :
  In cm (periodic_countermeasure cfg ts item) ->
  cm_type cm = Some "preemptive_kill"
  /\ cm_service cm = Some (fst item)
  /\ (exists i, cm_interval cm = Some i /\ 1 <= i)
  /\ (3 <= length (snd item))%nat.
Proof.
  unfold periodic_countermeasure. destruct item as [service times].
  destruct (Nat.leb_spec 3 (length times)) as [Hlen|]; [| intros []].
  destruct (Qltb _ 25); [| intros []].
  intros [<-|[]]. cbn. repeat split; try exact Hlen.
  eexists. split; [reflexivity | lia].
Qed.

(** X14: the correlations [get_strong_correlations] returns on an
    analyzer written to by its two methods never lead
    [generate_countermeasures] to a hook: it returns what it returns
    without any correlation, and every countermeasure in it is a
    preemptive kill. *)
Theorem analyzer_correlations_generate_no_hook
    (cfg : Config.t) (resurrection_patterns : list (string * list Z))
    (threat_scores : gmap string Q) (min_count : Z)
    (s : TriggerAnalyzer.t) (l : list TriggerAnalyzer.Correlation) :
  TriggerAnalyzer.Reachable s ->
  TriggerAnalyzer.get_strong_correlations min_count s = Some l ->
  generate_countermeasures cfg resurrection_patterns l threat_scores
  = generate_countermeasures cfg resurrection_patterns [] threat_scores
  /\ forall cm,
       In cm (generate_countermeasures cfg resurrection_patterns l
                threat_scores) ->
       cm_type cm = Some "preemptive_kill".
Proof.
  intros Hreach Hl.
  assert (Hnone : flat_map (correlation_countermeasure cfg threat_scores) l
                  = []).
  { apply flat_map_none. intros c Hc. apply correlation_countermeasure_none.
    unfold TriggerAnalyzer.get_strong_correlations in Hl.
    destruct (TriggerAnalyzer.strong_entries min_count
                (TriggerAnalyzer.trigger_correlations s)) as [l0|] eqn:E;
      [| discriminate].
    injection Hl as <-.
    apply (Permutation_in _ (py_sort_perm _ _ _)) in Hc.
    pose proof (strong_entries_Forall2 _ _ _ E) as HF.
    assert (Hkeys : forall kv,
              In kv (List.filter (fun kv => min_count <=? snd kv)
                       (TriggerAnalyzer.trigger_correlations s)) ->
              exists sv ty, In ty TriggerAnalyzer.trigger_types
                            /\ fst kv = sv ++ "_" ++ ty).
    { intros kv Hkv. apply filter_In in Hkv.
      apply (reachable_keys s Hreach). apply in_map. tauto. }
    clear E. induction HF as [|kv c' items l' (H1 & _) _ IH]; [destruct Hc |].
    destruct Hc as [->|Hc].
    - destruct (Hkeys kv (or_introl eq_refl)) as (sv & ty & Hty & Hk).
      destruct (rsplit1_of_trigger_key sv ty Hty) as (a & b & Hs & Hb).
      rewrite <- Hk, H1 in Hs. injection Hs as _ ->. exact Hb.
    - apply IH; [exact Hc |]. intros kv' Hkv'. apply Hkeys. right.
      exact Hkv'. }
  unfold generate_countermeasures. rewrite Hnone. cbn [flat_map].
  split; [reflexivity |].
  intros cm Hcm. apply (Permutation_in _ (py_sort_perm _ _ _)) in Hcm.
  rewrite List.app_nil_r in Hcm. apply in_flat_map in Hcm.
  destruct Hcm as (item & _ & Hcm).
  exact (proj1 (periodic_countermeasure_type _ _ _ _ Hcm)).
Qed.

Lemma analyzer_correlations_generate_no_hook_witness :
  let s := Nat.iter 7
             (fun s =>
                snd (TriggerAnalyzer.check_resurrection_triggers "svc" 101 s))
             (TriggerAnalyzer.record_event "network" 100
                [("state", "connected")] TriggerAnalyzer.init) in
  let l := [TriggerAnalyzer.mkCorrelation "svc_network" "change" 7
              (py_min 1 (inject_Z 7 / 10))] in
  (TriggerAnalyzer.trigger_correlations s = [("svc_network_change", 7)]
   /\ Qltb (py_min 1 (inject_Z 7 / 10)) (7 # 10) = false)
  /\ generate_countermeasures Config.defaults [("svc", [30; 30; 31])] l ∅
     = generate_countermeasures Config.defaults [("svc", [30; 30; 31])] [] ∅
  /\ forall cm,
       In cm (generate_countermeasures Config.defaults
                [("svc", [30; 30; 31])] l ∅) ->
       cm_type cm = Some "preemptive_kill".
Proof.
  intros s l. split; [split; vm_compute; reflexivity |].
  apply (analyzer_correlations_generate_no_hook Config.defaults
           [("svc", [30; 30; 31])] ∅ 3 s l).
  - unfold s. cbn [Nat.iter].
    repeat apply TriggerAnalyzer.reach_check.
    apply TriggerAnalyzer.reach_record, TriggerAnalyzer.reach_init.
  - vm_compute. reflexivity.
Defined.

End Generator.

(** * Further properties: the life of a countermeasure *)

Section Lifecycle.

Import CountermeasureManager.

Variable str_float : Q -> string.
Variable md5_hexdigest : string -> string.

Lemma prepare_has_admission_keys cfg now c :
  has_admission_keys (prepare str_float md5_hexdigest cfg now c).
Proof.
  destruct c as [i ty sv iv cp ds sv' tt ca ea rc mr tr].
  unfold prepare, has_admission_keys; simpl.
  destruct tr, rc, mr, i; simpl; repeat split; eexists; reflexivity.
Qed.

Lemma clean_Forall (P : Countermeasure -> Prop) now s :
  Forall P (countermeasures s) ->
  Forall P (countermeasures (snd (_clean_expired_countermeasures now s))).
Proof.
  intros H. rewrite List.Forall_forall in *. intros x Hx.
  apply clean_keeps in Hx. apply H. tauto.
Qed.

Lemma save_Forall (P : Countermeasure -> Prop) now write_ok s :
  Forall P (countermeasures s) ->
  Forall P (countermeasures (snd (_save_countermeasures now write_ok s))).
Proof. rewrite save_countermeasures. apply clean_Forall. Qed.

(** X15: as long as every stored countermeasure has the keys
    [add_countermeasure] writes, as all it stored itself have,
    [add_countermeasure] does not raise: it answers [False] for the
    empty dictionary and [True] otherwise, and what is stored
    afterwards has those keys again. *)
Theorem add_countermeasure_never_raises
    (cfg : Config.t) (now now_save : Q) (write_ok : bool)
    (c : Countermeasure) (s : CountermeasureManager.t) :
  Forall has_admission_keys (countermeasures s) ->
  exists s',
    add_countermeasure str_float md5_hexdigest cfg now now_save write_ok c s
    = Some (negb (is_empty c), s')
    /\ Forall has_admission_keys (countermeasures s').
Proof.
  intros Hs. unfold add_countermeasure.
  destruct (is_empty c); [exists s; split; [reflexivity | exact Hs] |].
  destruct (update_duplicate _ _ _ _) as [[l|]|] eqn:U.
  - eexists. split; [reflexivity |]. apply save_Forall.
    cbn [countermeasures set_countermeasures].
    apply update_duplicate_Some in U.
    destruct U as (pre & e & post & r & E & _ & _ & _ & ->).
    rewrite E in Hs. apply Forall_app in Hs. destruct Hs as [Hpre Hpost].
    apply Forall_app. split; [exact Hpre |].
    inversion Hpost as [|? ? He Hpost']; subst. constructor; [| exact Hpost'].
    destruct He as (H1 & H2 & H3 & H4 & H5 & H6).
    unfold has_admission_keys. cbn.
    repeat split; try assumption; eexists; reflexivity.
  - exfalso. revert U. generalize (prepare str_float md5_hexdigest cfg now c).
    intros c'. induction (countermeasures s) as [|e l IH]; cbn [update_duplicate];
      [discriminate |].
    inversion Hs as [|? ? He Hl]; subst.
    destruct (_is_duplicate_countermeasure e c').
    + destruct He as (_ & _ & _ & [r Hr] & _). rewrite Hr. discriminate.
    + destruct (update_duplicate now _ c' l) as [[l'|]|];
        [discriminate | | discriminate].
      intros _. apply (IH Hl). reflexivity.
  - eexists. split; [reflexivity |]. apply save_Forall.
    cbn [countermeasures set_countermeasures].
    apply Forall_app. split; [exact Hs |]. constructor; [| constructor].
    apply prepare_has_admission_keys.
Qed.

(** ** Pruning *)

Lemma filter_filter {A} (f g : A -> bool) (l : list A) :
  List.filter f (List.filter g l) = List.filter (fun x => g x && f x) l.
Proof.
  induction l as [|x l IH]; [reflexivity |]. cbn [List.filter].
  destruct (g x); cbn [List.filter andb]; [destruct (f x) |]; rewrite IH;
    reflexivity.
Qed.

Lemma filter_ext_in' {A} (f g : A -> bool) (l : list A) :
  (forall x, In x l -> f x = g x) -> List.filter f l = List.filter g l.
Proof.
  induction l as [|x l IH]; intros H; [reflexivity |]. cbn [List.filter].
  rewrite (H x (or_introl eq_refl)), IH; [reflexivity |].
  intros y Hy. apply H. right. exact Hy.
Qed.

Lemma expired_later now now' c :
  (now <= now')%Q -> expired now c = true -> expired now' c = true.
Proof.
  intros Hle. rewrite !expired_iff. intros (e & He & Hlt).
  exists e. split; [exact He | lra].
Qed.

(** X16: pruning at a later time makes an earlier pruning needless:
    [_clean_expired_countermeasures] at [now'] after one at [now <= now']
    leaves the list a single pruning at [now'] leaves, and the numbers
    the two prunings return add up to its number; pruning again at the
    same time removes nothing. *)
Theorem clean_expired_countermeasures_later
    (now now' : Q) (s : CountermeasureManager.t) :
  (now <= now')%Q ->
  let first := _clean_expired_countermeasures now s in
  let second := _clean_expired_countermeasures now' (snd first) in
  snd second = snd (_clean_expired_countermeasures now' s)
  /\ fst first + fst second = fst (_clean_expired_countermeasures now' s)
  /\ 0 <= fst first /\ 0 <= fst second
  /\ _clean_expired_countermeasures now (snd first) = (0, snd first).
Proof.
  intros Hle first second.
  assert (Hsnd : forall t,
    (now <= t)%Q ->
    List.filter (fun c => negb (expired t c) && negb (retry_limit_exceeded c))
      (List.filter
         (fun c => negb (expired now c) && negb (retry_limit_exceeded c))
         (countermeasures s))
    = List.filter
        (fun c => negb (expired t c) && negb (retry_limit_exceeded c))
        (countermeasures s)).
  { intros t Ht. rewrite filter_filter. apply filter_ext_in'. intros c _.
    destruct (expired now c) eqn:E.
    - rewrite (expired_later now t c Ht E). reflexivity.
    - destruct (retry_limit_exceeded c); cbn; [| reflexivity].
      rewrite andb_false_r. reflexivity. }
  unfold second, first, _clean_expired_countermeasures.
  cbn [fst snd countermeasures set_countermeasures].
  rewrite (Hsnd now' Hle), (Hsnd now (Qle_refl now)).
  pose proof (List.filter_length_le
                (fun c => negb (expired now c)
                          && negb (retry_limit_exceeded c))
                (countermeasures s)) as H1.
  pose proof (Hsnd now' Hle) as H2. apply (f_equal (@length _)) in H2.
  pose proof (List.filter_length_le
                (fun c => negb (expired now' c)
                          && negb (retry_limit_exceeded c))
                (List.filter
                   (fun c => negb (expired now c)
                             && negb (retry_limit_exceeded c))
                   (countermeasures s))) as H3.
  split; [reflexivity |]. split; [lia |]. split; [lia |]. split; [lia |].
  f_equal. lia.
Qed.

Lemma clean_expired_countermeasures_later_witness :
  let s := mk [set_expires_at (Some 5%Q) empty_cm;
               set_expires_at (Some 15%Q) empty_cm] ∅ ∅ [] in
  let first := _clean_expired_countermeasures 10 s in
  let second := _clean_expired_countermeasures 20 (snd first) in
  snd second = snd (_clean_expired_countermeasures 20 s)
  /\ fst first + fst second = fst (_clean_expired_countermeasures 20 s)
  /\ 0 <= fst first /\ 0 <= fst second
  /\ _clean_expired_countermeasures 10 (snd first) = (0, snd first).
Proof.
  apply (clean_expired_countermeasures_later 10 20
           (mk [set_expires_at (Some 5%Q) empty_cm;
                set_expires_at (Some 15%Q) empty_cm] ∅ ∅ [])).
  vm_compute. discriminate.
Defined.

End Lifecycle.

Lemma add_countermeasure_never_raises_witness :
  let cm := CountermeasureManager.preemptive_kill_cm Config.defaults "svc" 28
              (5 # 10) in
  let stored := CountermeasureManager.prepare (fun _ => "") (fun s => s)
                  Config.defaults 0 cm in
  let other := CountermeasureManager.prepare (fun _ => "") (fun s => s)
                 Config.defaults 0
                 (CountermeasureManager.hook_cm Config.defaults
                    "network_hook" "svc" "network changes" (5 # 10)) in
  let s := CountermeasureManager.mk [other; stored] ∅ ∅ [other; stored] in
  Forall CountermeasureManager.has_admission_keys
    (CountermeasureManager.countermeasures s)
  /\ exists s',
       CountermeasureManager.add_countermeasure (fun _ => "") (fun s => s)
         Config.defaults 10 10 true cm s
       = Some (negb (CountermeasureManager.is_empty cm), s')
       /\ Forall CountermeasureManager.has_admission_keys
            (CountermeasureManager.countermeasures s')
       /\ map CountermeasureManager.cm_retry_count
            (CountermeasureManager.countermeasures s')
          = [Some 0; Some 1].
Proof.
  intros cm stored other s.
  assert (Hs : Forall CountermeasureManager.has_admission_keys
                 (CountermeasureManager.countermeasures s)).
  { repeat constructor; apply prepare_has_admission_keys. }
  split; [exact Hs |].
  destruct (add_countermeasure_never_raises (fun _ => "") (fun s => s)
              Config.defaults 10 10 true cm s Hs) as (s' & Hadd & Hkeys).
  exists s'. split; [exact Hadd |]. split; [exact Hkeys |].
  vm_compute in Hadd. injection Hadd as <-. reflexivity.
Defined.

(** * Further properties: the feedback loop *)

Section Feedback.

Import CountermeasureManager.

(** One turn of the loop of [update_effectiveness]. *)
Lemma track_resurrection_step now now_calc service sr visited metrics cm :
  exists cm' metrics',
    track_resurrection now now_calc service sr (visited, metrics) cm
    = ((visited ++ [cm'])%list, metrics')
    /\ set_tracking None cm' = set_tracking None cm
    /\ (cm_service cm <> Some service -> cm' = cm /\ metrics' = metrics)
    /\ (cm_service cm = Some service ->
        exists tr,
          cm_tracking cm' = Some tr
          /\ last_checked tr = now
          /\ tracking_created_at tr
             = match cm_tracking cm with
               | Some t => tracking_created_at t
               | None => None
               end
          /\ (metrics' = metrics
              \/ metrics'
                 = <[default "unknown" (cm_id cm) :=
                       mkCmMetrics
                         (_calculate_effectiveness now_calc now_calc tr) now]>
                     metrics)).
Proof.
  unfold track_resurrection.
  destruct (bool_decide (cm_service cm = Some service)) eqn:B.
  - apply bool_decide_eq_true in B. cbv zeta.
    set (t0 := default (mkTracking 0 0 (default now (cm_created_at cm)) None)
                 (cm_tracking cm)).
    set (t1 := if (resurrections_before t0 =? 0)
                  && (resurrections_after t0 =? 0)
               then mkTracking sr (resurrections_after t0) (last_checked t0)
                      (tracking_created_at t0)
               else mkTracking (resurrections_before t0)
                      (resurrections_after t0 + 1) (last_checked t0)
                      (tracking_created_at t0)).
    assert (H1 : tracking_created_at t1 = tracking_created_at t0).
    { unfold t1. destruct (_ && _); reflexivity. }
    assert (H0 : tracking_created_at t0
                 = match cm_tracking cm with
                   | Some t => tracking_created_at t
                   | None => None
                   end).
    { unfold t0. destruct (cm_tracking cm); reflexivity. }
    eexists. eexists. split; [reflexivity |].
    split; [destruct cm; reflexivity |].
    split; [intros H; contradiction |].
    intros _. eexists. split; [destruct cm; reflexivity |].
    split; [reflexivity |]. split.
    + cbn [tracking_created_at]. rewrite H1. exact H0.
    + cbn [resurrections_before].
      destruct (0 <? resurrections_before t1); [right | left]; reflexivity.
  - apply bool_decide_eq_false in B.
    exists cm, metrics. split; [reflexivity |]. split; [reflexivity |].
    split; [auto | intros H; contradiction].
Qed.

(** The whole loop. *)
Lemma track_resurrection_fold now now_calc service sr l :
  forall visited metrics,
  exists l' metrics',
    fold_left (track_resurrection now now_calc service sr) l
      (visited, metrics)
    = ((visited ++ l')%list, metrics')
    /\ Forall2
         (fun cm cm' =>
            set_tracking None cm' = set_tracking None cm
            /\ (cm_service cm <> Some service -> cm' = cm)
            /\ (cm_service cm = Some service ->
                exists tr,
                  cm_tracking cm' = Some tr
                  /\ last_checked tr = now
                  /\ tracking_created_at tr
                     = match cm_tracking cm with
                       | Some t => tracking_created_at t
                       | None => None
                       end))
         l l'
    /\ (forall id m,
          metrics' !! id = Some m ->
          metrics !! id = Some m
          \/ exists cm tr,
               In cm l
               /\ last_checked tr = now
               /\ tracking_created_at tr
                  = match cm_tracking cm with
                    | Some t => tracking_created_at t
                    | None => None
                    end
               /\ m = mkCmMetrics
                        (_calculate_effectiveness now_calc now_calc tr) now).
Proof.
  induction l as [|cm l IH]; intros visited metrics.
  - exists [], metrics. cbn [fold_left]. rewrite List.app_nil_r.
    split; [reflexivity |]. split; [constructor | auto].
  - cbn [fold_left].
    destruct (track_resurrection_step now now_calc service sr visited
                metrics cm) as (cm' & m1 & -> & Hsame & Hother & Hthis).
    destruct (IH (visited ++ [cm'])%list m1) as (l' & m2 & -> & HF & Hm).
    exists (cm' :: l'), m2. rewrite <- List.app_assoc.
    split; [reflexivity |]. split.
    + constructor; [| exact HF]. split; [exact Hsame |].
      split; [intros H; exact (proj1 (Hother H)) |].
      intros H. destruct (Hthis H) as (tr & H1 & H2 & H3 & _).
      exists tr. auto.
    + intros id m Hlook. destruct (Hm id m Hlook) as [H1|H1].
      * destruct (decide (cm_service cm = Some service)) as [Hs|Hs].
        -- destruct (Hthis Hs) as (tr & _ & H2 & H3 & [->| ->]);
             [left; exact H1 |].
           destruct (decide (default "unknown" (cm_id cm) = id)) as [<-|Hne].
           ++ rewrite lookup_insert_eq in H1. injection H1 as <-.
              right. exists cm, tr. split; [left; reflexivity | auto].
           ++ rewrite lookup_insert_ne in H1 by exact Hne. left. exact H1.
        -- destruct (Hother Hs) as [_ ->]. left. exact H1.
      * destruct H1 as (cm0 & tr & Hin & H2 & H3 & H4).
        right. exists cm0, tr. split; [right; exact Hin | auto].
Qed.

(** X17: [update_effectiveness] changes no file of countermeasures and
    no metrics of another service; it counts one kill or one
    resurrection for the service.  After a kill the countermeasures and
    their metrics are as they were.  After a resurrection the list has
    the same countermeasures in the same order with nothing but their
    [tracking] changed: those of other services are untouched, those
    of the service have a [tracking] checked at [now]. *)
Theorem update_effectiveness_frame
    (now now_calc : Q) (service : string) (killed : bool)
    (s : CountermeasureManager.t) :
  let s' := update_effectiveness now now_calc service killed s in
  let before :=
    default (mkServiceMetrics 0 0 0 0) (metrics_services s !! service) in
  cm_file s' = cm_file s
  /\ (forall other, other <> service ->
        metrics_services s' !! other = metrics_services s !! other)
  /\ (exists m,
        metrics_services s' !! service = Some m
        /\ total_kills m = total_kills before + (if killed then 1 else 0)
        /\ resurrections m = resurrections before + (if killed then 0 else 1))
  /\ (killed = true ->
      countermeasures s' = countermeasures s
      /\ metrics_countermeasures s' = metrics_countermeasures s)
  /\ Forall2
       (fun cm cm' =>
          set_tracking None cm' = set_tracking None cm
          /\ (cm_service cm <> Some service -> cm' = cm)
          /\ (killed = false -> cm_service cm = Some service ->
              exists tr, cm_tracking cm' = Some tr /\ last_checked tr = now))
       (countermeasures s) (countermeasures s').
Proof.
  intros s' before. unfold s', update_effectiveness. fold before.
  destruct killed.
  - cbn [cm_file metrics_services countermeasures metrics_countermeasures].
    split; [reflexivity |].
    split; [intros other Hne; apply lookup_insert_ne; congruence |].
    split; [eexists; split; [apply lookup_insert_eq | cbn; split; lia] |].
    split; [auto |].
    induction (countermeasures s) as [|cm l IH]; constructor; [| exact IH].
    split; [reflexivity |]. split; [reflexivity | discriminate].
  - destruct (track_resurrection_fold now now_calc service
                (resurrections before + 1) (countermeasures s) []
                (metrics_countermeasures s)) as (l' & m' & E & HF & _).
    cbn [resurrections]. rewrite E.
    cbn [cm_file metrics_services countermeasures metrics_countermeasures app].
    split; [reflexivity |].
    split; [intros other Hne; apply lookup_insert_ne; congruence |].
    split; [eexists; split; [apply lookup_insert_eq | cbn; split; lia] |].
    split; [discriminate |].
    clear E. induction HF as [|cm cm' l l'' (H1 & H2 & H3) _ IH];
      constructor; [| exact IH].
    split; [exact H1 |]. split; [exact H2 |].
    intros _ Hs. destruct (H3 Hs) as (tr & Ht & Hc & _). exists tr. auto.
Qed.

(** X18: as the dictionaries stand, every effectiveness
    [update_effectiveness] writes is 1.  No [tracking] dictionary the
    program builds has a key [created_at], so
    [_calculate_effectiveness] takes the clock for it, read after the
    [now] that was just written to [last_checked]: the time active is
    not positive and the rate after is 0.  The metrics of a
    countermeasure either stay as they were or get effectiveness 1
    with [last_updated = now]; and no [tracking] gets the key. *)
Theorem update_effectiveness_writes_one
    (now now_calc : Q) (service : string) (killed : bool)
    (s : CountermeasureManager.t) :
  (now <= now_calc)%Q ->
  tracking_without_created_at (countermeasures s) ->
  let s' := update_effectiveness now now_calc service killed s in
  tracking_without_created_at (countermeasures s')
  /\ forall id m,
       metrics_countermeasures s' !! id = Some m ->
       metrics_countermeasures s !! id = Some m
       \/ ((effectiveness m == 1)%Q /\ last_updated m = now).
Proof.
  intros Hclock Hnone s'. unfold s', update_effectiveness.
  destruct killed.
  - cbn [countermeasures metrics_countermeasures]. split; [exact Hnone | auto].
  - set (sr := resurrections
                 (mkServiceMetrics _ _ _ _)).
    destruct (track_resurrection_fold now now_calc service sr
                (countermeasures s) [] (metrics_countermeasures s))
      as (l' & m' & E & HF & Hm).
    rewrite E. cbn [countermeasures metrics_countermeasures app]. split.
    + intros cm' tr' Hin Htr. revert Hnone Hin. clear E Hm.
      unfold tracking_without_created_at.
      induction HF as [|cm cm2 l l'' (H1 & H2 & H3) _ IH]; intros Hnone Hin;
        [destruct Hin |].
      destruct Hin as [->|Hin].
      * destruct (decide (cm_service cm = Some service)) as [Hs|Hs].
        -- destruct (H3 Hs) as (tr & Ht & _ & Hc).
           rewrite Htr in Ht. injection Ht as <-. rewrite Hc.
           destruct (cm_tracking cm) as [t|] eqn:T; [| reflexivity].
           exact (Hnone cm t (or_introl eq_refl) T).
        -- rewrite (H2 Hs) in Htr.
           exact (Hnone cm tr' (or_introl eq_refl) Htr).
      * apply IH; [| exact Hin]. intros c t Hc Ht.
        exact (Hnone c t (or_intror Hc) Ht).
    + intros id m Hlook. destruct (Hm id m Hlook) as [H|H]; [left; exact H |].
      right. destruct H as (cm & tr & Hin & Hc & Hcreated & ->).
      cbn [effectiveness last_updated]. split; [| reflexivity].
      apply calculate_effectiveness_is_one.
      * rewrite Hcreated. destruct (cm_tracking cm) as [t|] eqn:T;
          [| reflexivity].
        exact (Hnone cm t Hin T).
      * rewrite Hc. exact Hclock.
Qed.

Lemma update_effectiveness_writes_one_witness :
  let s := mk [set_id (Some "k1")
                 (set_tracking (Some (mkTracking 1 0 0 None))
                    (preemptive_kill_cm Config.defaults "svc" 28 (5 # 10)))]
             ∅ ∅ [] in
  let s' := update_effectiveness 1800 1800 "svc" false s in
  tracking_without_created_at (countermeasures s')
  /\ forall id m,
       metrics_countermeasures s' !! id = Some m ->
       metrics_countermeasures s !! id = Some m
       \/ ((effectiveness m == 1)%Q /\ last_updated m = 1800%Q).
Proof.
  apply (update_effectiveness_writes_one 1800 1800 "svc" false
           (mk [set_id (Some "k1")
                  (set_tracking (Some (mkTracking 1 0 0 None))
                     (preemptive_kill_cm Config.defaults "svc" 28 (5 # 10)))]
              ∅ ∅ [])).
  - apply Qle_refl.
  - intros cm tr [<-|[]] [= <-]. reflexivity.
Defined.

(** ** Escalation against the duplicate test *)

(** X19: an escalated copy is a duplicate of the countermeasure it was
    made from in one case only: a preemptive kill whose interval is
    already 1, which escalation cannot shorten.  Adding such a copy
    adds nothing; every other escalation differs from its original in
    type or interval, or is of a type the duplicate test never
    matches. *)
Theorem escalation_duplicates_its_original
    (cfg : Config.t) (now : Q) (original : Countermeasure) :
  _is_duplicate_countermeasure original
    (escalate_countermeasure cfg now original) = true
  <-> cm_type original = Some "preemptive_kill"
      /\ cm_interval original = Some 1.
Proof.
  unfold _is_duplicate_countermeasure.
  rewrite escalate_service.
  rewrite (bool_decide_eq_true_2 (cm_service original = cm_service original)
             eq_refl).
  cbn [negb].
  destruct (decide (cm_type original = Some "preemptive_kill")) as [Hpk|Hpk].
  - assert (Hty : cm_type (escalate_countermeasure cfg now original)
                  = cm_type original).
    { apply escalate_type_other. intros ty Hty. rewrite Hpk in Hty.
      injection Hty as <-. cbn [hook_types In].
      intros H. repeat (destruct H as [H|H]; [discriminate H |]). exact H. }
    rewrite Hty, (bool_decide_eq_true_2 (cm_type original = cm_type original)
                    eq_refl).
    cbn [negb]. rewrite (bool_decide_eq_true_2 _ Hpk).
    assert (Hiv : cm_interval (escalate_countermeasure cfg now original)
                  = Some (Z.max 1 (Z.quot (default 30 (cm_interval original))
                                     2))).
    { unfold escalate_countermeasure.
      rewrite (bool_decide_eq_true_2 _ Hpk). destruct original; reflexivity. }
    rewrite Hiv, bool_decide_eq_true. split.
    + intros H. split; [exact Hpk |].
      destruct (cm_interval original) as [i|]; [| discriminate H].
      injection H as H. cbn [default] in H. f_equal.
      destruct (Z.le_gt_cases i 1) as [Hi|Hi]; [lia |].
      assert (Hq : Z.quot i 2 < i) by (apply Z.quot_lt; lia). lia.
    + intros [_ ->]. reflexivity.
  - rewrite (bool_decide_eq_false_2 _ Hpk).
    split; [| intros [H _]; contradiction].
    destruct (bool_decide (cm_type original
                           = cm_type (escalate_countermeasure cfg now
                                        original))) eqn:B;
      [| discriminate].
    apply bool_decide_eq_true in B. cbn [negb].
    destruct (cm_type original) as [ty|] eqn:Ety.
    + destruct (decide (In ty hook_types)) as [Hin|Hin].
      * rewrite (escalate_type_hook cfg now original ty Ety Hin) in B.
        injection B as ->. cbn [hook_types In] in Hin.
        repeat (destruct Hin as [Hin|Hin]; [discriminate Hin |]).
        destruct Hin.
      * cbn [hook_types In] in Hin.
        rewrite !bool_decide_eq_false_2; [discriminate | |];
          intros [= ->]; apply Hin; tauto.
    + rewrite !bool_decide_eq_false_2 by discriminate. discriminate.
Qed.

End Feedback.

(** * Further properties: events taken from log lines *)

Lemma prefix_iff (a b : string) :
  String.prefix a b = true <-> exists post, b = a ++ post.
Proof.
  revert b. induction a as [|c a IH]; intros b.
  - split; [intros _; exists b; reflexivity |].
    intros _. destruct b; reflexivity.
  - destruct b as [|d b]; cbn [String.prefix].
    + split; [discriminate | intros [post H]; discriminate H].
    + destruct (ascii_dec c d) as [->|Hne].
      * rewrite IH. split; intros [post H]; exists post.
        -- change (String d b = String d (a ++ post)). f_equal. exact H.
        -- change (String d b = String d (a ++ post)) in H.
           injection H as H. exact H.
      * split; [discriminate |]. intros [post H].
        change (String d b = String c (a ++ post)) in H.
        injection H as H _. congruence.
Qed.

Lemma is_substring_iff (a b : string) :
  is_substring a b = true <-> exists pre post, b = pre ++ a ++ post.
Proof.
  induction b as [|d b IH]; cbn [is_substring].
  - rewrite orb_false_r, prefix_iff. split.
    + intros [post H]. exists "", post. exact H.
    + intros (pre & post & H). destruct pre as [|c pre]; [| discriminate H].
      exists post. exact H.
  - rewrite orb_true_iff, prefix_iff, IH. split.
    + intros [[post H]|(pre & post & H)].
      * exists "", post. exact H.
      * exists (String d pre), post.
        change (String d b = String d (pre ++ a ++ post)). f_equal. exact H.
    + intros (pre & post & H). destruct pre as [|c pre].
      * left. exists post. exact H.
      * right. exists pre, post.
        change (String d b = String c (pre ++ a ++ post)) in H.
        injection H as _ H. exact H.
Qed.

Lemma append_assoc (a b c : string) : (a ++ b) ++ c = a ++ (b ++ c).
Proof.
  induction a as [|x a IH]; [reflexivity |].
  change (String x ((a ++ b) ++ c) = String x (a ++ (b ++ c))).
  f_equal. exact IH.
Qed.

(** A string that holds [p ++ a] holds [a]. *)
Lemma is_substring_of_longer (p a b : string) :
  is_substring (p ++ a) b = true -> is_substring a b = true.
Proof.
  rewrite !is_substring_iff. intros (pre & post & ->).
  exists (pre ++ p), post. rewrite !append_assoc. reflexivity.
Qed.

Section Extractor.

Import TriggerAnalyzer.

Variable cmp_package : string -> option string.
Variable displayed_package : string -> option string.
Variable lower : string -> string.

(** X20: [extract_events_from_log] records at most one event for a
    line, of a kind given below, and nothing else changes.  No network
    event and no Bluetooth event is ever recorded with the state
    [disconnected]: the branches that would do so come after the tests
    for [CONNECTED] and [connected], which every such line passes. *)
Theorem extract_events_never_records_a_disconnection
    (timestamp : Q) (log_line : string) (s : TriggerAnalyzer.t) :
  let s' := extract_events_from_log cmp_package displayed_package lower
              timestamp log_line s in
  s' = s
  \/ exists event_type key value,
       s' = record_event event_type timestamp [(key, value)] s
       /\ ((event_type = "screen_state" /\ key = "state"
            /\ In value ["awake"; "asleep"; "dozing"; "unknown"])
           \/ (event_type = "network" /\ key = "state"
               /\ value = "connected")
           \/ (event_type = "usb" /\ key = "state"
               /\ In value ["attached"; "detached"])
           \/ (event_type = "bluetooth" /\ key = "state"
               /\ In value ["enabled"; "disabled"; "connected"])
           \/ (event_type = "app_launch" /\ key = "package"
               /\ cmp_package log_line = Some value)
           \/ (event_type = "foreground_app" /\ key = "package"
               /\ displayed_package log_line = Some value)).
Proof.
  intros s'. unfold s', extract_events_from_log.
  destruct (is_substring "mWakefulness=" log_line).
  { right. eexists. eexists. eexists. split; [reflexivity |]. left.
    split; [reflexivity |]. split; [reflexivity |]. cbn [In].
    destruct (is_substring "Awake" log_line); [tauto |].
    destruct (is_substring "Asleep" log_line); [tauto |].
    destruct (is_substring "Dozing" log_line); tauto. }
  destruct (is_substring "NetworkInfo" log_line
            || is_substring "ConnectivityService" log_line).
  { destruct (is_substring "CONNECTED" log_line) eqn:C.
    - right. eexists. eexists. eexists. split; [reflexivity |].
      right. left. tauto.
    - destruct (is_substring "DISCONNECTED" log_line) eqn:D; [| left; reflexivity].
      apply (is_substring_of_longer "DIS" "CONNECTED") in D. congruence. }
  destruct (is_substring "UsbDeviceManager" log_line
            || is_substring "USB" log_line).
  { destruct (is_substring "attached" (lower log_line)).
    - right. eexists. eexists. eexists. split; [reflexivity |].
      do 2 right. left. cbn [In]. tauto.
    - destruct (is_substring "detached" (lower log_line)); [| left; reflexivity].
      right. eexists. eexists. eexists. split; [reflexivity |].
      do 2 right. left. cbn [In]. tauto. }
  destruct (is_substring "Bluetooth" log_line || is_substring "BT_" log_line).
  { destruct (is_substring "enabled" (lower log_line)).
    { right. eexists. eexists. eexists. split; [reflexivity |].
      do 3 right. left. cbn [In]. tauto. }
    destruct (is_substring "disabled" (lower log_line)).
    { right. eexists. eexists. eexists. split; [reflexivity |].
      do 3 right. left. cbn [In]. tauto. }
    destruct (is_substring "connected" (lower log_line)) eqn:C.
    { right. eexists. eexists. eexists. split; [reflexivity |].
      do 3 right. left. cbn [In]. tauto. }
    destruct (is_substring "disconnected" (lower log_line)) eqn:D;
      [| left; reflexivity].
    apply (is_substring_of_longer "dis" "connected") in D. congruence. }
  destruct (is_substring "ActivityManager" log_line
            && is_substring "start" log_line).
  { destruct (cmp_package log_line) as [p|] eqn:P; [| left; reflexivity].
    right. eexists. eexists. eexists. split; [reflexivity |].
    do 4 right. left. tauto. }
  destruct (is_substring "ActivityManager" log_line
            && is_substring "Displayed" log_line); [| left; reflexivity].
  destruct (displayed_package log_line) as [p|] eqn:P; [| left; reflexivity].
  right. eexists. eexists. eexists. split; [reflexivity |].
  do 5 right. tauto.
Qed.


End Extractor.


(** * Further properties: the report of high threats *)

Section HighThreats.

Import ThreatScorer.

Lemma high_priority_Forall2 threshold stats items l :
  high_priority threshold stats items = Some l ->
  Forall2
    (fun kv th =>
       th_service th = fst kv /\ th_score th = snd kv
       /\ exists st,
            stats !! fst kv = Some st
            /\ th_kill_count th = kill_count st
            /\ th_resurrection_count th = resurrection_count st
            /\ th_resurrection_speed th
               = (inject_Z (sumZ (resurrection_times st))
                  / inject_Z
                      (Z.max 1 (Z.of_nat (length (resurrection_times st)))))%Q
            /\ th_patterns_matched th = patterns_matched st
            /\ th_last_seen th = last_seen st)
    (List.filter (fun kv => Qleb threshold (snd kv)) items) l.
Proof.
  revert l. induction items as [|[service score] items IH]; intros l;
    cbn [high_priority List.filter snd].
  - intros [= <-]. constructor.
  - destruct (Qleb threshold score); [| apply IH].
    destruct (stats !! service) as [st|] eqn:E; [| discriminate].
    destruct (high_priority threshold stats items) as [l'|]; [| discriminate].
    intros [= <-]. constructor; [| apply IH; reflexivity].
    cbn. split; [reflexivity |]. split; [reflexivity |].
    exists st. repeat split; try reflexivity. exact E.
Qed.

Lemma high_priority_total threshold stats items :
  (forall kv, In kv items -> is_Some (stats !! fst kv)) ->
  high_priority threshold stats items <> None.
Proof.
  induction items as [|[service score] items IH]; intros H;
    cbn [high_priority]; [discriminate |].
  assert (IH' : high_priority threshold stats items <> None).
  { apply IH. intros kv Hkv. apply H. right. exact Hkv. }
  destruct (Qleb threshold score); [| exact IH'].
  destruct (H (service, score) (or_introl eq_refl)) as [st Hst].
  cbn [fst] in Hst. rewrite Hst.
  destruct (high_priority threshold stats items); [discriminate | congruence].
Qed.

(** X22: on a scorer its three methods led to,
    [get_high_priority_threats] does not raise, whatever the order of
    the dictionary: it returns one entry for each stored score of at
    least the threshold, highest score first, each with the counts of
    the service's statistics and a score between 0.5 and 1. *)
Theorem reachable_high_priority_threats
    (threshold : Q) (items : list (string * Q)) (s : ThreatScorer.t) :
  Reachable s ->
  Permutation items (map_to_list (threat_scores s)) ->
  exists l,
    get_high_priority_threats threshold items s = Some l
    /\ StronglySorted (fun a b => (th_score b <= th_score a)%Q) l
    /\ Permutation (map (fun th => (th_service th, th_score th)) l)
         (List.filter (fun kv => Qleb threshold (snd kv)) items)
    /\ forall th, In th l ->
         (threshold <= th_score th)%Q
         /\ (1 # 2 <= th_score th <= 1)%Q
         /\ threat_scores s !! th_service th = Some (th_score th)
         /\ exists st,
              service_stats s !! th_service th = Some st
              /\ th_kill_count th = kill_count st
              /\ th_resurrection_count th = resurrection_count st
              /\ th_resurrection_speed th
                 = (inject_Z (sumZ (resurrection_times st))
                    / inject_Z
                        (Z.max 1
                           (Z.of_nat (length (resurrection_times st)))))%Q
              /\ th_patterns_matched th = patterns_matched st
              /\ th_last_seen th = last_seen st.
Proof.
  intros Hreach Hitems.
  assert (Hstored : forall kv, In kv items ->
            threat_scores s !! fst kv = Some (snd kv)).
  { intros [k v] Hkv. apply (Permutation_in _ Hitems) in Hkv.
    apply list_elem_of_In, elem_of_map_to_list in Hkv. exact Hkv. }
  unfold get_high_priority_threats.
  destruct (high_priority threshold (service_stats s) items) as [l|] eqn:E.
  2:{ exfalso. revert E. apply high_priority_total. intros kv Hkv.
      exact (proj2 (reachable_stored_scores s Hreach _ _ (Hstored kv Hkv))). }
  exists (py_sort th_score true l). split; [reflexivity |].
  split; [apply py_sort_descending |].
  pose proof (high_priority_Forall2 _ _ _ _ E) as HF.
  assert (Hmap : map (fun th => (th_service th, th_score th)) l
                 = List.filter (fun kv => Qleb threshold (snd kv)) items).
  { clear E. induction HF as [|[k v] th f l' (H1 & H2 & _) _ IH];
      [reflexivity |].
    cbn [map fst snd] in *. rewrite IH, H1, H2. reflexivity. }
  split; [rewrite py_sort_perm, Hmap; reflexivity |].
  intros th Hth. apply (Permutation_in _ (py_sort_perm _ _ _)) in Hth.
  assert (Hin : In (th_service th, th_score th)
                  (List.filter (fun kv => Qleb threshold (snd kv)) items)).
  { rewrite <- Hmap. apply (in_map (fun th => (th_service th, th_score th))).
    exact Hth. }
  apply filter_In in Hin. destruct Hin as [Hin Hle]. cbn [snd] in Hle.
  pose proof (Hstored _ Hin) as Hsc. cbn [fst snd] in Hsc.
  split; [apply Qleb_le; exact Hle |].
  split; [exact (proj1 (reachable_stored_scores s Hreach _ _ Hsc)) |].
  split; [exact Hsc |].
  clear E Hmap. induction HF as [|kv th' f l' (H1 & _ & Hst) _ IH];
    [destruct Hth |].
  destruct Hth as [->|Hth]; [| exact (IH Hth)].
  rewrite H1. exact Hst.
Qed.

Lemma reachable_high_priority_threats_witness :
  let s := snd (calculate_threat_scores 10
                  (update_service_stats 7 "b" true None
                     (update_service_stats 6 "a" false (Some 5)
                        (update_service_stats 5 "a" true None init)))) in
  exists l,
    get_high_priority_threats (1 # 2) (map_to_list (threat_scores s)) s
    = Some l
    /\ map th_service l = ["a"; "b"]
    /\ StronglySorted (fun a b => (th_score b <= th_score a)%Q) l
    /\ Permutation (map (fun th => (th_service th, th_score th)) l)
         (List.filter (fun kv => Qleb (1 # 2) (snd kv))
            (map_to_list (threat_scores s)))
    /\ forall th, In th l ->
         (1 # 2 <= th_score th)%Q
         /\ (1 # 2 <= th_score th <= 1)%Q
         /\ threat_scores s !! th_service th = Some (th_score th)
         /\ exists st,
              service_stats s !! th_service th = Some st
              /\ th_kill_count th = kill_count st
              /\ th_resurrection_count th = resurrection_count st
              /\ th_resurrection_speed th
                 = (inject_Z (sumZ (resurrection_times st))
                    / inject_Z
                        (Z.max 1
                           (Z.of_nat (length (resurrection_times st)))))%Q
              /\ th_patterns_matched th = patterns_matched st
              /\ th_last_seen th = last_seen st.
Proof.
  intros s.
  destruct (reachable_high_priority_threats (1 # 2)
              (map_to_list (threat_scores s)) s) as (l & H1 & H2 & H3 & H4).
  - apply reach_scores, reach_update, reach_update, reach_update, reach_init.
  - reflexivity.
  - exists l. split; [exact H1 |]. split; [| auto].
    vm_compute in H1. injection H1 as <-. reflexivity.
Defined.

End HighThreats.

(** * Further properties: the generated countermeasures *)

Section Generated.

Import CountermeasureManager.

(** X23: [generate_countermeasures] returns its countermeasures in
    descending order of severity, at most one for each resurrection
    pattern and each correlation.  Each is new (no identifier, no
    tracking, no retry count), has 3 retries and the configured TTL,
    and has for severity the threat score of its service, 0.5 when
    there is none.  It is a preemptive kill at an interval of at least
    1 second for a service with at least 3 resurrection times, or one
    of the six hooks for a correlation of confidence 0.7 or more. *)
Theorem generate_countermeasures_sorted_and_new
    (cfg : Config.t) (resurrection_patterns : list (string * list Z))
    (trigger_correlations : list TriggerAnalyzer.Correlation)
    (threat_scores : gmap string Q) :
  let r := generate_countermeasures cfg resurrection_patterns
             trigger_correlations threat_scores in
  StronglySorted
    (fun a b => (default 0 (cm_severity b) <= default 0 (cm_severity a))%Q) r
  /\ (length r
      <= length resurrection_patterns + length trigger_correlations)%nat
  /\ forall cm, In cm r ->
       is_empty cm = false
       /\ cm_id cm = None /\ cm_tracking cm = None
       /\ cm_retry_count cm = None /\ cm_max_retries cm = Some 3
       /\ cm_ttl cm = Some (Config.COUNTERMEASURE_TTL cfg)
       /\ exists service,
            cm_service cm = Some service
            /\ cm_severity cm
               = Some (default (5 # 10)%Q (threat_scores !! service))
            /\ ((cm_type cm = Some "preemptive_kill"
                 /\ (exists i, cm_interval cm = Some i /\ 1 <= i)
                 /\ exists times,
                      In (service, times) resurrection_patterns
                      /\ (3 <= length times)%nat)
                \/ (exists c hook,
                      In c trigger_correlations
                      /\ TriggerAnalyzer.service c = service
                      /\ (7 # 10 <= TriggerAnalyzer.confidence c)%Q
                      /\ hook = TriggerAnalyzer.trigger_type c
                      /\ In hook TriggerAnalyzer.trigger_types
                      /\ (exists ty, cm_type cm = Some ty /\ In ty hook_types)
                      /\ cm_interval cm = None)).
Proof.
  intros r. unfold r, generate_countermeasures. clear r.
  split; [apply py_sort_descending |]. split.
  - rewrite (Permutation_length (py_sort_perm _ _ _)), length_app.
    apply Nat.add_le_mono.
    + induction resurrection_patterns as [|[service times] l IH];
        [reflexivity |].
      cbn [flat_map]. rewrite length_app. cbn [length].
      assert (length (periodic_countermeasure cfg threat_scores
                        (service, times)) <= 1)%nat.
      { unfold periodic_countermeasure.
        destruct (3 <=? length times)%nat; [| cbn; lia].
        destruct (Qltb _ 25); cbn; lia. }
      lia.
    + induction trigger_correlations as [|c l IH]; [reflexivity |].
      cbn [flat_map]. rewrite length_app. cbn [length].
      assert (length (correlation_countermeasure cfg threat_scores c)
              <= 1)%nat.
      { unfold correlation_countermeasure.
        destruct (Qltb _ (7 # 10)); [cbn; lia |].
        repeat (destruct (String.eqb _ _); [cbn; lia |]). cbn. lia. }
      lia.
  - intros cm Hcm. apply (Permutation_in _ (py_sort_perm _ _ _)) in Hcm.
    apply in_app_or in Hcm. destruct Hcm as [Hcm|Hcm];
      apply in_flat_map in Hcm.
    + destruct Hcm as ([service times] & Hin & Hcm).
      unfold periodic_countermeasure in Hcm.
      destruct (Nat.leb_spec 3 (length times)) as [Hlen|]; [| destruct Hcm].
      destruct (Qltb _ 25); [| destruct Hcm].
      destruct Hcm as [<-|[]]. cbn.
      repeat (split; [reflexivity |]).
      exists service. split; [reflexivity |]. split; [reflexivity |].
      left. split; [reflexivity |]. split.
      * eexists. split; [reflexivity | lia].
      * exists times. auto.
    + destruct Hcm as (c & Hin & Hcm).
      unfold correlation_countermeasure in Hcm.
      destruct (Qltb (TriggerAnalyzer.confidence c) (7 # 10)) eqn:Hconf;
        [destruct Hcm |].
      apply Qltb_ge in Hconf.
      assert (Hhook : forall hook after ty,
        TriggerAnalyzer.trigger_type c = ty ->
        In ty TriggerAnalyzer.trigger_types ->
        In hook hook_types ->
        In cm [hook_cm cfg hook (TriggerAnalyzer.service c) after
                 (default (5 # 10)%Q
                    (threat_scores !! TriggerAnalyzer.service c))] ->
        is_empty cm = false
        /\ cm_id cm = None /\ cm_tracking cm = None
        /\ cm_retry_count cm = None /\ cm_max_retries cm = Some 3
        /\ cm_ttl cm = Some (Config.COUNTERMEASURE_TTL cfg)
        /\ exists service,
             cm_service cm = Some service
             /\ cm_severity cm
                = Some (default (5 # 10)%Q (threat_scores !! service))
             /\ ((cm_type cm = Some "preemptive_kill"
                  /\ (exists i, cm_interval cm = Some i /\ 1 <= i)
                  /\ exists times,
                       In (service, times) resurrection_patterns
                       /\ (3 <= length times)%nat)
                 \/ (exists c0 hook0,
                       In c0 trigger_correlations
                       /\ TriggerAnalyzer.service c0 = service
                       /\ (7 # 10 <= TriggerAnalyzer.confidence c0)%Q
                       /\ hook0 = TriggerAnalyzer.trigger_type c0
                       /\ In hook0 TriggerAnalyzer.trigger_types
                       /\ (exists ty, cm_type cm = Some ty
                                      /\ In ty hook_types)
                       /\ cm_interval cm = None))).
      { intros hook after ty Hty Htypes Hhooks [<-|[]]. cbn.
        repeat (split; [reflexivity |]).
        exists (TriggerAnalyzer.service c).
        split; [reflexivity |]. split; [reflexivity |].
        right. exists c, (TriggerAnalyzer.trigger_type c).
        split; [exact Hin |]. split; [reflexivity |]. split; [exact Hconf |].
        split; [reflexivity |]. split; [rewrite Hty; exact Htypes |].
        split; [exists hook; auto | reflexivity]. }
      unfold TriggerAnalyzer.trigger_types, hook_types in Hhook.
      revert Hcm.
      repeat (destruct (String.eqb (TriggerAnalyzer.trigger_type c) _) eqn:Heq;
              [apply String.eqb_eq in Heq; intros Hcm;
               eapply Hhook; [exact Heq | | | exact Hcm];
               cbn [In]; tauto
              | clear Heq]).
      intros [].
Qed.

End Generated.
